(** * Vulkan state rebuilder (gapis/api/vulkan): a shallow embedding

    The development follows the Go source of the state rebuilder: the
    sparse-binding coverage predicate [IsFullyBound], the pipeline dependency
    resolver [GetPipelinesInOrder], the builder's allocation bookkeeping
    ([MustAllocReadData], [write]), the scratch buffer allocator
    [allocAndFillScratchBuffer] and the driver [RebuildState].

    Unsigned quantities ([VkDeviceSize], [uint64], [uint32], handles) are
    numbers of [N] with the wrap-around of the Go arithmetic written out;
    Go [int] indices are numbers of [Z] or [nat]. *)

From Stdlib Require Import ZArith NArith Lia List Bool.
From stdpp Require Import base gmap sets list strings sorting.

Set Warnings "-register-all".

(** ** Machine arithmetic *)

Module U64.

Definition modulus : N := 2 ^ 64.

(** The value a Go [uint64] expression keeps of its mathematical result. *)
Definition wrap (n : N) : N := (n mod modulus)%N.

Definition add (a b : N) : N := wrap (a + b).

Definition mul (a b : N) : N := wrap (a * b).

(** [a - b] on [uint64]. *)
Definition sub (a b : N) : N := wrap (wrap a + (modulus - wrap b)).

(** [uint64(1) << n]: a shift count of 64 or more leaves zero. *)
Definition shl1 (n : N) : N := if (n <? 64)%N then (2 ^ n)%N else 0%N.

(** [^x] on [uint64]. *)
Definition lnot (x : N) : N := (modulus - 1 - wrap x)%N.

End U64.

Module U32.

Definition modulus : N := 2 ^ 32.

Definition wrap (n : N) : N := (n mod modulus)%N.

(** [1 << i] at type [uint32]. *)
Definition shl1 (i : N) : N := if (i <? 32)%N then (2 ^ i)%N else 0%N.

End U32.

(** ** Go maps *)

(** Modelled from the spec: the generated map types ([U64ːVkSparseMemoryBindᵐ]
    and the per-category tables) are not among the sources. Their [Keys()]
    returns the keys in increasing order ("scan bindings ordered by
    increasing resource offset"), [Contains] tests a key, and [Get] returns
    the Go zero value for an absent key. *)
Definition Keys {V} (m : gmap N V) : list N :=
  merge_sort N.le (map_to_list m).*1.

Definition Contains {V} (m : gmap N V) (k : N) : bool :=
  bool_decide (is_Some (m !! k)).

(** A [for k, v := range m] over a plain Go map visits every entry once, in
    an order the language leaves unspecified and the runtime randomises.
    [goRange picks l] is the order of one such loop over the entries [l]:
    each entry is inserted at the position its pick names, so every list of
    picks gives a permutation, and every permutation has its picks. *)
Definition insertAt {A} (p : nat) (x : A) (l : list A) : list A :=
  take p l ++ x :: drop p l.

Fixpoint goRange {A} (picks : list nat) (l : list A) : list A :=
  match l with
  | [] => []
  | x :: rest => insertAt (hd 0%nat picks) x (goRange (tl picks) rest)
  end.

(** ** Sparse bindings *)

(** [VkSparseMemoryBind] as the API declares it. *)
Record VkSparseMemoryBind := mkBind {
  ResourceOffset : N;
  Size : N;
  Memory : N;
  MemoryOffset : N;
  Flags : N
}.

Definition zeroBind : VkSparseMemoryBind := mkBind 0 0 0 0 0.

Module SparseMap.

(** [U64ːVkSparseMemoryBindᵐ]: bindings keyed by resource offset. *)
Definition Get (m : gmap N VkSparseMemoryBind) (k : N) : VkSparseMemoryBind :=
  default zeroBind (m !! k).

End SparseMap.

(** The first loop of [IsFullyBound]: the index of the first key strictly
    beyond [bound], or [-1]. *)
Fixpoint firstBeyond (resourceOffsets : list N) (i : Z) (bound : N) : Z :=
  match resourceOffsets with
  | [] => (-1)%Z
  | k :: rest => if (bound <? k)%N then i else firstBeyond rest (i + 1)%Z bound
  end.

(** The backward walk [for i > 0 && end > offset]. [None] is the
    [return false] inside the loop, [Some (i, end)] the state at loop exit. *)
Fixpoint walkBack (resourceOffsets : list N) (bindings : gmap N VkSparseMemoryBind)
    (offset : N) (i : nat) (end_ : N) : option (nat * N) :=
  match i with
  | O => Some (O, end_)
  | S i' =>
      if (offset <? end_)%N then
        let resOffset := nth i resourceOffsets 0%N in
        if (end_ <=? U64.add resOffset (Size (SparseMap.Get bindings resOffset)))%N
        then walkBack resourceOffsets bindings offset i' resOffset
        else None
      else Some (i, end_)
  end.

Definition IsFullyBound (offset size : N) (bindings : gmap N VkSparseMemoryBind) : bool :=
  let resourceOffsets := Keys bindings in
  let oneAfterReqRange := firstBeyond resourceOffsets 0 (U64.add offset size) in
  if (oneAfterReqRange =? -1)%Z || (oneAfterReqRange =? 0)%Z then false
  else
    let i := Z.to_nat (oneAfterReqRange - 1) in
    let end_ := U64.add offset size in
    match walkBack resourceOffsets bindings offset i end_ with
    | None => false
    | Some (i, end_) =>
        if (end_ <=? offset)%N then true
        else if Nat.eqb i 0 then
          let resOffset := nth 0 resourceOffsets 0%N in
          (resOffset <=? offset)%N &&
          (end_ <=? U64.add resOffset (Size (SparseMap.Get bindings resOffset)))%N
        else false
    end.

(** A binding map from a list of spans [(resource offset, size)]. *)
Definition spans (l : list (N * N)) : gmap N VkSparseMemoryBind :=
  list_to_map (map (fun '(o, s) => (o, mkBind o s 0 0 0)) l).

(** Byte [b] of the resource lies in the span of some binding. *)
Definition covered (bindings : gmap N VkSparseMemoryBind) (b : N) : Prop :=
  exists k bind, bindings !! k = Some bind /\ (k <= b < k + Size bind)%N.

(** ** Pipeline dependency resolver *)

(** The local variables of [GetPipelinesInOrder]. *)
Record resolver := mkResolver {
  pipelines : list N;
  unhandledPipelines : gmap N N;
  handledPipelines : gmap N bool;
  numHandled : Z
}.

(** The body of [for k, v := range unhandledPipelines]. *)
Definition visit (st : resolver) (kv : N * N) : resolver :=
  let k := kv.1 in
  let v := kv.2 in
  let st1 :=
    if (v =? 0)%N then (mkResolver (pipelines st ++ [k]) (unhandledPipelines st)
                          (handledPipelines st) (numHandled st), true)
    else if Contains (handledPipelines st) v
         then (mkResolver (pipelines st ++ [k]) (unhandledPipelines st)
                 (handledPipelines st) (numHandled st), true)
         else (st, false) in
  if st1.2 then
    mkResolver (pipelines st1.1) (delete k (unhandledPipelines st1.1))
      (<[k := true]> (handledPipelines st1.1)) (numHandled st1.1 + 1)
  else st1.1.

(** One execution of the inner loop, in the order the picks give. *)
Definition pass (picks : list nat) (st : resolver) : resolver :=
  fold_left visit (goRange picks (map_to_list (unhandledPipelines st))) st.

(** The outer loop [for len(unhandledPipelines) != 0]. [sched] gives the
    picks of the successive [range] loops; the fuel bounds the number of
    iterations of the outer loop, [None] meaning that it is still running. *)
Fixpoint resolveLoop (fuel : nat) (sched : list (list nat)) (st : resolver)
    : option (list N) :=
  match fuel with
  | O => None
  | S fuel' =>
      if bool_decide (size (unhandledPipelines st) = 0%nat) then Some (pipelines st)
      else
        let st1 := pass (hd [] sched) st in
        if (numHandled st1 =? 0)%Z then
          Some (pipelines st1 ++
                map fst (goRange (hd [] (tl sched))
                           (map_to_list (unhandledPipelines st1))))
        else resolveLoop fuel' (tl sched) st1
  end.

(** [unhandledPipelines] as the initial loop over [Keys()] fills it:
    [unhandledPipelines[pp.VulkanHandle] = pp.BasePipeline]. *)
Definition initialUnhandled {O} (handle base : O -> N) (table : gmap N O)
    : gmap N N :=
  fold_left
    (fun u p =>
       match table !! p with
       | Some pp => <[handle pp := base pp]> u
       | None => u
       end)
    (Keys table) ∅.

(** Every chain of base references from [k] reaches a pipeline without
    base: what "acyclic and contained in the table" asks of [k]. *)
Inductive grounded (u : gmap N N) : N -> Prop :=
| grounded_root k : u !! k = Some 0%N -> grounded u k
| grounded_derived k v :
    u !! k = Some v -> v <> 0%N -> grounded u v -> grounded u k.

(** [a] occurs in [l] at an earlier position than [b]. *)
Definition emittedBefore (a b : N) (l : list N) : Prop :=
  exists l1 l2 l3, l = l1 ++ a :: l2 ++ b :: l3.


(** What the loops of the resolver maintain, [u0] being the table they
    started from: the emitted and the pending pipelines together are the
    pipelines of the table, each once; the handled set is the emitted list;
    and a pipeline is only emitted after its base. *)
Record resolverInv (u0 : gmap N N) (st : resolver) : Prop := mkResolverInv {
  inv_perm :
    pipelines st ++ (map_to_list (unhandledPipelines st)).*1 ≡ₚ (map_to_list u0).*1;
  inv_sub : forall k v, unhandledPipelines st !! k = Some v -> u0 !! k = Some v;
  inv_handled : forall k, is_Some (handledPipelines st !! k) <-> k ∈ pipelines st;
  inv_count : numHandled st = Z.of_nat (length (pipelines st));
  inv_grounded : forall k, k ∈ pipelines st -> grounded u0 k;
  inv_order :
    forall k v, u0 !! k = Some v -> v <> 0%N -> k ∈ pipelines st ->
                emittedBefore v k (pipelines st)
}.

(** ** Commands, observations and allocations *)

(** Values handed to the allocator and passed as command arguments. *)
Inductive Value :=
| VNum (n : N)
| VInt (z : Z)
| VPtr (address : N)
| VStr (s : string)
| VBytes (bytes : list N)
| VStruct (name : string) (fields : list Value)
| VArr (elems : list Value).

Definition Nullptr : Value := VPtr 0.

(** Modelled from the spec: the call framework is not among the sources. A
    command is "one emitted API call plus its read-observations and
    write-observations (host byte ranges consumed/produced)"; an observation
    is a range of the new address space and what it holds. *)
Record Observation := mkObs {
  obsBase : N;
  obsSize : N;
  obsData : Value
}.

(** [api.Cmd]: a call, its arguments and its observations. *)
Record Cmd := mkCmd {
  cmdName : string;
  cmdArgs : list Value;
  cmdReads : list Observation;
  cmdWrites : list Observation
}.

Definition AddRead (c : Cmd) (o : Observation) : Cmd :=
  mkCmd (cmdName c) (cmdArgs c) (cmdReads c ++ [o]) (cmdWrites c).

Definition AddWrite (c : Cmd) (o : Observation) : Cmd :=
  mkCmd (cmdName c) (cmdArgs c) (cmdReads c) (cmdWrites c ++ [o]).

(** Modelled from the spec: [api.AllocResult], "an allocation in the new
    address space", with its range and its data; [allocId] is the identity of
    the allocation. *)
Record AllocResult := mkAlloc {
  allocId : nat;
  allocBase : N;
  allocSize : N;
  allocData : Value
}.

Definition Ptr (a : AllocResult) : Value := VPtr (allocBase a).

Definition Data (a : AllocResult) : Observation :=
  mkObs (allocBase a) (allocSize a) (allocData a).

(** Modelled from the spec: the allocator of the new state, of which the
    model keeps the bookkeeping: how many allocations were made, and the
    identities [Free] was called on, in order. Where an allocation is placed
    is left to [place] below; exhaustion, on which [AllocDataOrPanic]
    panics, is outside the model. *)
Record Allocator := mkAllocator {
  allocated : nat;
  freed : list nat
}.

(** How often allocation [i] has been freed. *)
Definition timesFreed (i : nat) (a : Allocator) : nat :=
  length (filter (fun j => j = i) (freed a)).

(** What [log.D], [log.W] and [log.E] are given. *)
Inductive LogEntry :=
| LogD (index : nat) (cmd : Cmd)
| LogW (index : nat) (cmd : Cmd) (err : string)
| LogE (msg : string).

(** ** The captured objects *)

Record VkMemoryType := mkMemoryType {
  PropertyFlags : N;
  HeapIndex : N
}.

Record VkPhysicalDeviceMemoryProperties := mkMemoryProperties {
  MemoryTypeCount : N;
  MemoryTypes : list VkMemoryType
}.

Module PhysicalDeviceObject.
Record t := mk {
  VulkanHandle : N;
  Instance : N;
  MemoryProperties : VkPhysicalDeviceMemoryProperties
}.
Definition zero : t := mk 0 0 (mkMemoryProperties 0 []).
End PhysicalDeviceObject.

Module DeviceObject.
Record t := mk {
  VulkanHandle : N;
  PhysicalDevice : N
}.
End DeviceObject.

Record VkMemoryRequirements := mkMemoryRequirements {
  reqSize : N;
  reqAlignment : N;
  MemoryTypeBits : N
}.

Record DedicatedAllocationNV := mkDedicated {
  dedicatedImage : N;
  dedicatedBuffer : N
}.

Module DeviceMemoryObject.
Record t := mk {
  VulkanHandle : N;
  Device : N;
  AllocationSize : N;
  MemoryTypeIndex : N;
  DedicatedAllocationNV : option DedicatedAllocationNV;
  MappedLocation : N;
  MappedOffset : N;
  MappedSize : N
}.
End DeviceMemoryObject.

Module ImageObject.
Record t := mk {
  VulkanHandle : N;
  Device : N;
  IsSwapchainImage : bool
}.
End ImageObject.

Module ShaderModuleObject.
Record t := mk {
  VulkanHandle : N;
  Device : N;
  Words : list N
}.
End ShaderModuleObject.

Record SpecializationInfo := mkSpecialization {
  Specializations : gmap N Value;
  SpecializationData : list N
}.

Record StageData := mkStage {
  Stage : N;
  Module_ : ShaderModuleObject.t;
  EntryPoint : string;
  Specialization : option SpecializationInfo
}.

Module ComputePipelineObject.
Record t := mk {
  VulkanHandle : N;
  Device : N;
  Flags : N;
  PipelineCache : option N;
  BasePipeline : N;
  Stage : StageData;
  PipelineLayout : N
}.
End ComputePipelineObject.

Module GraphicsPipelineObject.
Record t := mk {
  VulkanHandle : N;
  BasePipeline : N
}.
End GraphicsPipelineObject.

Module CommandBufferObject.
Record t := mk {
  VulkanHandle : N;
  Device : N;
  Pool : N;
  Level : N
}.
End CommandBufferObject.

Definition VK_COMMAND_BUFFER_LEVEL_PRIMARY : N := 0.
Definition VK_COMMAND_BUFFER_LEVEL_SECONDARY : N := 1.
Definition VK_SUCCESS : Value := VNum 0.
Definition VK_BUFFER_USAGE_TRANSFER_SRC_BIT : N := 1.
Definition VK_MEMORY_PROPERTY_HOST_VISIBLE_BIT : N := 2.
Definition VK_SHARING_MODE_EXCLUSIVE : N := 0.

(** The object categories whose creation routines are taken as given. *)
Inductive Category :=
| Instances | Surfaces | Queues | Swapchains | Buffers | Samplers | Fences
| Semaphores | Events | CommandPools | PipelineCaches | DescriptorSetLayouts
| PipelineLayouts | RenderPasses | ImageViews | BufferViews | DescriptorPools
| Framebuffers | DescriptorSets | QueryPools.

(** ** What the rebuilder takes from the rest of the system

    The mutate step of a command on the simulated state (which makes and
    releases no allocation of the builder), the queries of the simulated
    state, the allocator's placement policy, the layout [unpackMap] gives a
    map, the interval library, fresh-handle generation and the object types
    the modelled routines do not inspect. *)
Class Externals := {
  ApiState : Type;
  OldState : Type;
  NewStateWithAllocator : OldState -> ApiState;
  Mutate : Cmd -> ApiState -> ApiState * option string;
  hasShaderModule : ApiState -> N -> bool;
  hasComputePipeline : ApiState -> N -> bool;
  place : Allocator -> Value -> N * N;
  packMap : gmap N Value -> Value;
  Merge : list (N * N) -> N * N -> list (N * N);
  newUnusedID : bool -> (N -> bool) -> N;
  OpaqueObject : Category -> Type;
  imagePrimer : Type
}.

Section Builder.
Context `{Ext : Externals}.

(** The captured Vulkan [State]: one handle-indexed table per category. *)
Record State := mkState {
  table : forall c : Category, gmap N (OpaqueObject c);
  PhysicalDevices : gmap N PhysicalDeviceObject.t;
  Devices : gmap N DeviceObject.t;
  DeviceMemories : gmap N DeviceMemoryObject.t;
  Images : gmap N ImageObject.t;
  ShaderModules : gmap N ShaderModuleObject.t;
  ComputePipelines : gmap N ComputePipelineObject.t;
  GraphicsPipelines : gmap N GraphicsPipelineObject.t;
  CommandBuffers : gmap N CommandBufferObject.t;
  TransferBufferMemoryRequirements : gmap N VkMemoryRequirements
}.

(** The new [api.GlobalState]: the simulated state and its allocator. *)
Record GlobalState := mkGlobal {
  api : ApiState;
  allocator : Allocator
}.

Record stateBuilder := mkBuilder {
  s : State;
  oldState : OldState;
  newState : GlobalState;
  cmds : list Cmd;
  readMemories : list AllocResult;
  writeMemories : list AllocResult;
  memoryIntervals : list (N * N);
  logs : list LogEntry
}.

Definition logTo (e : LogEntry) (sb : stateBuilder) : stateBuilder :=
  mkBuilder (s sb) (oldState sb) (newState sb) (cmds sb) (readMemories sb)
    (writeMemories sb) (memoryIntervals sb) (logs sb ++ [e]).

Definition withNewState (g : GlobalState) (sb : stateBuilder) : stateBuilder :=
  mkBuilder (s sb) (oldState sb) g (cmds sb) (readMemories sb)
    (writeMemories sb) (memoryIntervals sb) (logs sb).

(** Modelled from the spec: [AllocDataOrPanic], a fresh allocation in the
    new address space holding [v]. *)
Definition AllocDataOrPanic (g : GlobalState) (v : Value) : AllocResult * GlobalState :=
  let a := allocator g in
  let rng := place a v in
  (mkAlloc (allocated a) rng.1 rng.2 v,
   mkGlobal (api g) (mkAllocator (S (allocated a)) (freed a))).

(** Modelled from the spec: [AllocResult.Free] releases the allocation;
    the model records the call. *)
Definition Free (r : AllocResult) (g : GlobalState) : GlobalState :=
  mkGlobal (api g)
    (mkAllocator (allocated (allocator g)) (freed (allocator g) ++ [allocId r])).

Definition mergeRange (r : AllocResult) (l : list (N * N)) : list (N * N) :=
  Merge l (allocBase r, U64.add (allocBase r) (allocSize r)).

Definition MustAllocReadData (v : Value) (sb : stateBuilder) : AllocResult * stateBuilder :=
  let r := AllocDataOrPanic (newState sb) v in
  let allocate_result := r.1 in
  (allocate_result,
   mkBuilder (s sb) (oldState sb) r.2 (cmds sb)
     (readMemories sb ++ [allocate_result]) (writeMemories sb)
     (mergeRange allocate_result (memoryIntervals sb)) (logs sb)).

Definition MustAllocWriteData (v : Value) (sb : stateBuilder) : AllocResult * stateBuilder :=
  let r := AllocDataOrPanic (newState sb) v in
  let allocate_result := r.1 in
  (allocate_result,
   mkBuilder (s sb) (oldState sb) r.2 (cmds sb)
     (readMemories sb) (writeMemories sb ++ [allocate_result])
     (mergeRange allocate_result (memoryIntervals sb)) (logs sb)).

(** [unpackMap]: one allocation holding the values of the map. *)
Definition unpackMap (g : GlobalState) (m : gmap N Value) : AllocResult * GlobalState :=
  AllocDataOrPanic g (packMap m).

Definition MustUnpackReadMap (m : gmap N Value) (sb : stateBuilder) : AllocResult * stateBuilder :=
  let r := unpackMap (newState sb) m in
  let allocate_result := r.1 in
  (allocate_result,
   mkBuilder (s sb) (oldState sb) r.2 (cmds sb)
     (readMemories sb ++ [allocate_result]) (writeMemories sb)
     (mergeRange allocate_result (memoryIntervals sb)) (logs sb)).

Definition MustUnpackWriteMap (m : gmap N Value) (sb : stateBuilder) : AllocResult * stateBuilder :=
  let r := unpackMap (newState sb) m in
  let allocate_result := r.1 in
  (allocate_result,
   mkBuilder (s sb) (oldState sb) r.2 (cmds sb)
     (readMemories sb) (writeMemories sb ++ [allocate_result])
     (mergeRange allocate_result (memoryIntervals sb)) (logs sb)).

(** The command as [write] appends it: the pending allocations attached
    as read and write observations. *)
Definition observed (cmd : Cmd) (sb : stateBuilder) : Cmd :=
  fold_left (fun c w => AddWrite c (Data w)) (writeMemories sb)
    (fold_left (fun c r => AddRead c (Data r)) (readMemories sb) cmd).

Definition write (cmd : Cmd) (sb : stateBuilder) : stateBuilder :=
  let cmd := observed cmd sb in
  let m := Mutate cmd (api (newState sb)) in
  let entry :=
    match m.2 with
    | Some err => LogW (length (cmds sb)) cmd err
    | None => LogD (length (cmds sb)) cmd
    end in
  let g := mkGlobal m.1 (allocator (newState sb)) in
  let g := fold_left (fun g read => Free read g) (readMemories sb) g in
  let g := fold_left (fun g write => Free write g) (writeMemories sb) g in
  mkBuilder (s sb) (oldState sb) g (cmds sb ++ [cmd]) [] []
    (memoryIntervals sb) (logs sb ++ [entry]).

Definition call (name : string) (args : list Value) : Cmd := mkCmd name args [] [].

(** The pending allocations of the builder, reads first. *)
Definition pending (sb : stateBuilder) : list nat :=
  map allocId (readMemories sb ++ writeMemories sb).

Definition freedTimes (i : nat) (sb : stateBuilder) : nat :=
  timesFreed i (allocator (newState sb)).

(** ** Scratch buffers *)

(** The loop of [memoryTypeIndexFor], from index [i], over the [n]
    remaining indices. *)
Fixpoint memoryTypeIndexFrom (n : nat) (i : N) (memTypeBits : N)
    (props : VkPhysicalDeviceMemoryProperties) (flags : N) : Z :=
  match n with
  | O => (-1)%Z
  | S n' =>
      if (N.land memTypeBits (U32.shl1 i) =? 0)%N
      then memoryTypeIndexFrom n' (i + 1)%N memTypeBits props flags
      else
        let t := nth (N.to_nat i) (MemoryTypes props) (mkMemoryType 0 0) in
        if (flags =? N.land (PropertyFlags t) flags)%N then Z.of_N i
        else memoryTypeIndexFrom n' (i + 1)%N memTypeBits props flags
  end.

Definition memoryTypeIndexFor (memTypeBits : N)
    (props : VkPhysicalDeviceMemoryProperties) (flags : N) : Z :=
  memoryTypeIndexFrom (N.to_nat (MemoryTypeCount props)) 0 memTypeBits props flags.

(** Where the snapshot lacks the physical device of the device,
    [PhysicalDevices.Get] gives nil and the code panics on reading its memory
    properties; the model reads those of a zero object there. The
    properties of this routine and of [allocAndFillScratchBuffer] are stated
    for devices whose physical device is in the snapshot. *)
Definition GetScratchBufferMemoryIndex (device : DeviceObject.t) (sb : stateBuilder)
    : N * stateBuilder :=
  let physicalDeviceObject :=
    default PhysicalDeviceObject.zero
      (PhysicalDevices (s sb) !! DeviceObject.PhysicalDevice device) in
  let props := PhysicalDeviceObject.MemoryProperties physicalDeviceObject in
  let type_bits := U32.wrap (U64.sub (U64.shl1 (MemoryTypeCount props)) 1) in
  let type_bits :=
    match TransferBufferMemoryRequirements (s sb) !! DeviceObject.VulkanHandle device with
    | Some req => MemoryTypeBits req
    | None => type_bits
    end in
  let index := memoryTypeIndexFor type_bits props VK_MEMORY_PROPERTY_HOST_VISIBLE_BIT in
  if (0 <=? index)%Z then (U32.wrap (Z.to_N index), sb)
  else
    (0%N,
     logTo (LogE "cannnot get the memory type index for host visible memory to create scratch buffer, fallback to use index 0") sb).

(** The backing size of a scratch buffer holding [size] bytes:
    [(uint64(size*2) + uint64(255)) & ^uint64(255)]. *)
Definition scratchAllocSize (size : N) : N :=
  N.land (U64.add (U64.mul size 2) 255) (U64.lnot 255).

Definition VkMemoryAllocateInfo (pNext : Value) (allocationSize memoryTypeIndex : N) : Value :=
  VStruct "VkMemoryAllocateInfo"
    [VStr "VK_STRUCTURE_TYPE_MEMORY_ALLOCATE_INFO"; pNext;
     VNum allocationSize; VNum memoryTypeIndex].

(** [allocAndFillScratchBuffer] up to [VkBindBufferMemory]. *)
Definition scratchCreateAndBind (device : DeviceObject.t) (data : list N)
    (usages : list N) (sb : stateBuilder) : (N * N * N) * stateBuilder :=
  let buffer := newUnusedID true (fun x => Contains (table (s sb) Buffers) x) in
  let deviceMemory := newUnusedID true (fun x => Contains (DeviceMemories (s sb)) x) in
  let size := U64.wrap (N.of_nat (length data)) in
  let usageFlags := fold_left N.lor usages VK_BUFFER_USAGE_TRANSFER_SRC_BIT in
  let '(info, sb) :=
    MustAllocReadData
      (VStruct "VkBufferCreateInfo"
         [VStr "VK_STRUCTURE_TYPE_BUFFER_CREATE_INFO"; Nullptr; VNum 0; VNum size;
          VNum usageFlags; VNum VK_SHARING_MODE_EXCLUSIVE; VNum 0; Nullptr]) sb in
  let '(pBuffer, sb) := MustAllocWriteData (VNum buffer) sb in
  let sb :=
    write (call "vkCreateBuffer"
             [VNum (DeviceObject.VulkanHandle device); Ptr info; Nullptr;
              Ptr pBuffer; VK_SUCCESS]) sb in
  let '(memoryTypeIndex, sb) := GetScratchBufferMemoryIndex device sb in
  let allocSize := scratchAllocSize size in
  let '(allocInfo, sb) :=
    MustAllocReadData (VkMemoryAllocateInfo Nullptr allocSize memoryTypeIndex) sb in
  let '(pMemory, sb) := MustAllocWriteData (VNum deviceMemory) sb in
  let sb :=
    write (call "vkAllocateMemory"
             [VNum (DeviceObject.VulkanHandle device); Ptr allocInfo; Nullptr;
              Ptr pMemory; VK_SUCCESS]) sb in
  let sb :=
    write (call "vkBindBufferMemory"
             [VNum (DeviceObject.VulkanHandle device); VNum buffer;
              VNum deviceMemory; VNum 0; VK_SUCCESS]) sb in
  ((buffer, deviceMemory, size), sb).

(** The payload and the pointer cell are allocated directly, without
    the builder's pending lists, and the memory is mapped. *)
Definition scratchMap (device : DeviceObject.t) (deviceMemory size : N)
    (data : list N) (sb : stateBuilder) : (AllocResult * AllocResult) * stateBuilder :=
  let '(dat, g) := AllocDataOrPanic (newState sb) (VBytes data) in
  let at_ := Ptr dat in
  let '(atdata, g) := AllocDataOrPanic g at_ in
  let sb := withNewState g sb in
  let sb :=
    write (AddWrite
             (AddRead
                (call "vkMapMemory"
                   [VNum (DeviceObject.VulkanHandle device); VNum deviceMemory;
                    VNum 0; VNum size; VNum 0; Ptr atdata; VK_SUCCESS])
                (Data atdata))
             (Data atdata)) sb in
  ((dat, atdata), sb).

(** Flush, unmap, and release the payload and the pointer cell. *)
Definition scratchFlushAndUnmap (device : DeviceObject.t) (deviceMemory size : N)
    (dat atdata : AllocResult) (sb : stateBuilder) : stateBuilder :=
  let '(range, sb) :=
    MustAllocReadData
      (VStruct "VkMappedMemoryRange"
         [VStr "VK_STRUCTURE_TYPE_MAPPED_MEMORY_RANGE"; Nullptr;
          VNum deviceMemory; VNum 0; VNum size]) sb in
  let sb :=
    write (AddRead
             (call "vkFlushMappedMemoryRanges"
                [VNum (DeviceObject.VulkanHandle device); VNum 1; Ptr range; VK_SUCCESS])
             (Data dat)) sb in
  let sb :=
    write (call "vkUnmapMemory"
             [VNum (DeviceObject.VulkanHandle device); VNum deviceMemory]) sb in
  let g := Free dat (newState sb) in
  let g := Free atdata g in
  withNewState g sb.

Definition allocAndFillScratchBuffer (device : DeviceObject.t) (data : list N)
    (usages : list N) (sb : stateBuilder) : (N * N) * stateBuilder :=
  let '((buffer, deviceMemory, size), sb) := scratchCreateAndBind device data usages sb in
  let '((dat, atdata), sb) := scratchMap device deviceMemory size data sb in
  let sb := scratchFlushAndUnmap device deviceMemory size dat atdata sb in
  ((buffer, deviceMemory), sb).

(** ** Creation routines *)

Definition createDeviceMemory (mem : DeviceMemoryObject.t) (allowDedicatedNV : bool)
    (sb : stateBuilder) : stateBuilder :=
  if negb allowDedicatedNV && bool_decide (is_Some (DeviceMemoryObject.DedicatedAllocationNV mem))
  then sb
  else
    let '(pNext, sb) :=
      match DeviceMemoryObject.DedicatedAllocationNV mem with
      | Some d =>
          let '(r, sb) :=
            MustAllocReadData
              (VStruct "VkDedicatedAllocationMemoryAllocateInfoNV"
                 [VStr "VK_STRUCTURE_TYPE_DEDICATED_ALLOCATION_MEMORY_ALLOCATE_INFO_NV";
                  Nullptr; VNum (dedicatedImage d); VNum (dedicatedBuffer d)]) sb in
          (Ptr r, sb)
      | None => (Nullptr, sb)
      end in
    let '(info, sb) :=
      MustAllocReadData
        (VkMemoryAllocateInfo pNext (DeviceMemoryObject.AllocationSize mem)
           (DeviceMemoryObject.MemoryTypeIndex mem)) sb in
    let '(pMemory, sb) := MustAllocWriteData (VNum (DeviceMemoryObject.VulkanHandle mem)) sb in
    let sb :=
      write (call "vkAllocateMemory"
               [VNum (DeviceMemoryObject.Device mem); Ptr info; Nullptr; Ptr pMemory;
                VK_SUCCESS]) sb in
    if negb (DeviceMemoryObject.MappedLocation mem =? 0)%N then
      let '(pData, sb) := MustAllocWriteData (VPtr (DeviceMemoryObject.MappedLocation mem)) sb in
      write (call "vkMapMemory"
               [VNum (DeviceMemoryObject.Device mem);
                VNum (DeviceMemoryObject.VulkanHandle mem);
                VNum (DeviceMemoryObject.MappedOffset mem);
                VNum (DeviceMemoryObject.MappedSize mem); VNum 0; Ptr pData;
                VK_SUCCESS]) sb
    else sb.

Definition createShaderModule (sm : ShaderModuleObject.t) (sb : stateBuilder) : stateBuilder :=
  let words := ShaderModuleObject.Words sm in
  let '(pCode, sb) := MustAllocReadData (VArr (map VNum words)) sb in
  let '(info, sb) :=
    MustAllocReadData
      (VStruct "VkShaderModuleCreateInfo"
         [VStr "VK_STRUCTURE_TYPE_SHADER_MODULE_CREATE_INFO"; Nullptr; VNum 0;
          VNum (U64.mul (U64.wrap (N.of_nat (length words))) 4); Ptr pCode]) sb in
  let '(pModule, sb) := MustAllocWriteData (VNum (ShaderModuleObject.VulkanHandle sm)) sb in
  write (call "vkCreateShaderModule"
           [VNum (ShaderModuleObject.Device sm); Ptr info; Nullptr; Ptr pModule;
            VK_SUCCESS]) sb.

Definition createComputePipeline (cp : ComputePipelineObject.t) (sb : stateBuilder)
    : stateBuilder :=
  let cache := default 0%N (ComputePipelineObject.PipelineCache cp) in
  let basePipeline :=
    if negb (ComputePipelineObject.BasePipeline cp =? 0)%N
       && hasComputePipeline (api (newState sb)) (ComputePipelineObject.BasePipeline cp)
    then ComputePipelineObject.BasePipeline cp else 0%N in
  let stage := ComputePipelineObject.Stage cp in
  let module := Module_ stage in
  let '(temporaryShaderModule, sb) :=
    if negb (hasShaderModule (api (newState sb)) (ShaderModuleObject.VulkanHandle module))
    then (Some module, createShaderModule module sb)
    else (None, sb) in
  let '(specializationInfo, sb) :=
    match Specialization stage with
    | Some spec =>
        let data := SpecializationData spec in
        let '(pEntries, sb) := MustUnpackReadMap (Specializations spec) sb in
        let '(pData, sb) := MustAllocReadData (VBytes data) sb in
        let '(r, sb) :=
          MustAllocReadData
            (VStruct "VkSpecializationInfo"
               [VNum (U32.wrap (N.of_nat (size (Specializations spec)))); Ptr pEntries;
                VNum (N.of_nat (length data)); Ptr pData]) sb in
        (Ptr r, sb)
    | None => (Nullptr, sb)
    end in
  let '(pName, sb) := MustAllocReadData (VStr (EntryPoint stage)) sb in
  let '(info, sb) :=
    MustAllocReadData
      (VStruct "VkComputePipelineCreateInfo"
         [VStr "VK_STRUCTURE_TYPE_COMPUTE_PIPELINE_CREATE_INFO"; Nullptr;
          VNum (ComputePipelineObject.Flags cp);
          VStruct "VkPipelineShaderStageCreateInfo"
            [VStr "VK_STRUCTURE_TYPE_PIPELINE_SHADER_STAGE_CREATE_INFO"; Nullptr;
             VNum 0; VNum (Stage stage);
             VNum (ShaderModuleObject.VulkanHandle module); Ptr pName;
             specializationInfo];
          VNum (ComputePipelineObject.PipelineLayout cp); VNum basePipeline;
          VInt (-1)]) sb in
  let '(pPipeline, sb) := MustAllocWriteData (VNum (ComputePipelineObject.VulkanHandle cp)) sb in
  let sb :=
    write (call "vkCreateComputePipelines"
             [VNum (ComputePipelineObject.Device cp); VNum cache; VNum 1; Ptr info;
              Nullptr; Ptr pPipeline; VK_SUCCESS]) sb in
  match temporaryShaderModule with
  | Some m =>
      write (call "vkDestroyShaderModule"
               [VNum (ShaderModuleObject.Device m);
                VNum (ShaderModuleObject.VulkanHandle m); Nullptr]) sb
  | None => sb
  end.

(** The creation routines taken as given: each is some transformation of
    the builder. [createImageRest] and [createCommandBufferRest] stand for
    the bodies of [createImage] and [createCommandBuffer] below their
    initial guard. *)
Class Creators := {
  createInstance : N -> OpaqueObject Instances -> stateBuilder -> stateBuilder;
  create : forall c : Category, OpaqueObject c -> stateBuilder -> stateBuilder;
  createPhysicalDevices :
    gmap N PhysicalDeviceObject.t -> stateBuilder -> stateBuilder;
  createDevice : DeviceObject.t -> stateBuilder -> stateBuilder;
  createGraphicsPipeline : GraphicsPipelineObject.t -> stateBuilder -> stateBuilder;
  newImagePrimer : stateBuilder -> imagePrimer * stateBuilder;
  freeImagePrimer : imagePrimer -> stateBuilder -> stateBuilder;
  createImageRest : ImageObject.t -> imagePrimer -> stateBuilder -> stateBuilder;
  createCommandBufferRest : CommandBufferObject.t -> N -> stateBuilder -> stateBuilder
}.

Context `{Cr : Creators}.

Definition createImage (img : ImageObject.t) (imgPrimer : imagePrimer)
    (sb : stateBuilder) : stateBuilder :=
  if ImageObject.IsSwapchainImage img then sb
  else createImageRest img imgPrimer sb.

Definition createCommandBuffer (cb : CommandBufferObject.t) (level : N)
    (sb : stateBuilder) : stateBuilder :=
  if negb (CommandBufferObject.Level cb =? level)%N then sb
  else createCommandBufferRest cb level sb.

(** ** Builder calls between two emissions

    What a creation routine does before it emits a command: allocations
    through the four helpers, which register the allocation in a pending
    list, and direct allocations, which do not. *)
Inductive builderOp :=
| OpAllocRead (v : Value)
| OpAllocWrite (v : Value)
| OpUnpackRead (m : gmap N Value)
| OpUnpackWrite (m : gmap N Value)
| OpAllocDirect (v : Value).

Definition registers (op : builderOp) : bool :=
  match op with
  | OpAllocDirect _ => false
  | _ => true
  end.

(** The allocations that builder calls register in the pending lists,
    the first call making allocation [n]. *)
Fixpoint registeredIds (n : nat) (ops : list builderOp) : list nat :=
  match ops with
  | [] => []
  | op :: rest => (if registers op then [n] else []) ++ registeredIds (S n) rest
  end.

Definition runOp (op : builderOp) (sb : stateBuilder) : stateBuilder :=
  match op with
  | OpAllocRead v => (MustAllocReadData v sb).2
  | OpAllocWrite v => (MustAllocWriteData v sb).2
  | OpUnpackRead m => (MustUnpackReadMap m sb).2
  | OpUnpackWrite m => (MustUnpackWriteMap m sb).2
  | OpAllocDirect v => withNewState (AllocDataOrPanic (newState sb) v).2 sb
  end.

Definition runOps (ops : list builderOp) (sb : stateBuilder) : stateBuilder :=
  fold_left (fun sb op => runOp op sb) ops sb.

Definition allocatedCount (sb : stateBuilder) : nat := allocated (allocator (newState sb)).

(** Only allocations that were made have been freed. *)
Definition allocatorOk (sb : stateBuilder) : Prop :=
  forall i, i ∈ freed (allocator (newState sb)) -> (i < allocatedCount sb)%nat.

(** ** The driver *)

(** The base-pipeline table of the requested kind, as the first loops of
    [GetPipelinesInOrder] collect it. *)
Definition baseTable (s : State) (compute : bool) : gmap N N :=
  if compute
  then initialUnhandled ComputePipelineObject.VulkanHandle
         ComputePipelineObject.BasePipeline (ComputePipelines s)
  else initialUnhandled GraphicsPipelineObject.VulkanHandle
         GraphicsPipelineObject.BasePipeline (GraphicsPipelines s).

Definition GetPipelinesInOrder (sched : list (list nat)) (fuel : nat) (s : State)
    (compute : bool) : option (list N) :=
  let unhandledPipelines := baseTable s compute in
  resolveLoop fuel sched (mkResolver [] unhandledPipelines ∅ 0).

(** [for _, k := range keys { f(m.Get(k)) }]. For a key that the table
    lacks [Get] gives nil, on which the creation routines of the pipelines
    panic; the model passes over such a key. The loops over [Keys()] never
    meet one, and the loops over the resolver's result meet none in a
    snapshot that files every pipeline under its own handle, which is what
    the properties of those loops assume. *)
Definition forEach {V} (keys : list N) (m : gmap N V)
    (f : V -> stateBuilder -> stateBuilder) (sb : stateBuilder) : stateBuilder :=
  fold_left (fun sb k => match m !! k with Some o => f o sb | None => sb end) keys sb.

Definition forKeys {V} (m : gmap N V) (f : V -> stateBuilder -> stateBuilder)
    (sb : stateBuilder) : stateBuilder :=
  forEach (Keys m) m f sb.

Definition newBuilder (s : State) (oldState : OldState) : stateBuilder :=
  mkBuilder s oldState (mkGlobal (NewStateWithAllocator oldState) (mkAllocator 0 []))
    [] [] [] [] [].

(** [RebuildState]. [schedC] and [schedG] give the map iteration orders of
    the two calls of the pipeline resolver, [fuel] bounds their loops. *)
Definition RebuildState (schedC schedG : list (list nat)) (fuel : nat) (s : State)
    (oldState : OldState) : option (list Cmd * list (N * N)) :=
  let sb := newBuilder s oldState in
  let sb :=
    fold_left
      (fun sb k =>
         match table s Instances !! k with
         | Some inst => createInstance k inst sb
         | None => sb
         end) (Keys (table s Instances)) sb in
  let sb := createPhysicalDevices (PhysicalDevices s) sb in
  let sb := forKeys (table s Surfaces) (create Surfaces) sb in
  let sb := forKeys (Devices s) createDevice sb in
  let sb := forKeys (table s Queues) (create Queues) sb in
  let sb := forKeys (table s Swapchains) (create Swapchains) sb in
  let sb := forKeys (DeviceMemories s) (fun mem => createDeviceMemory mem false) sb in
  let sb := forKeys (table s Buffers) (create Buffers) sb in
  let sb :=
    let '(imgPrimer, sb) := newImagePrimer sb in
    let sb := forKeys (Images s) (fun img => createImage img imgPrimer) sb in
    freeImagePrimer imgPrimer sb in
  let sb := forKeys (table s Samplers) (create Samplers) sb in
  let sb := forKeys (table s Fences) (create Fences) sb in
  let sb := forKeys (table s Semaphores) (create Semaphores) sb in
  let sb := forKeys (table s Events) (create Events) sb in
  let sb := forKeys (table s CommandPools) (create CommandPools) sb in
  let sb := forKeys (table s PipelineCaches) (create PipelineCaches) sb in
  let sb := forKeys (table s DescriptorSetLayouts) (create DescriptorSetLayouts) sb in
  let sb := forKeys (table s PipelineLayouts) (create PipelineLayouts) sb in
  let sb := forKeys (table s RenderPasses) (create RenderPasses) sb in
  let sb := forKeys (ShaderModules s) createShaderModule sb in
  match GetPipelinesInOrder schedC fuel s true with
  | None => None
  | Some computePipelines =>
      let sb := forEach computePipelines (ComputePipelines s) createComputePipeline sb in
      match GetPipelinesInOrder schedG fuel s false with
      | None => None
      | Some graphicsPipelines =>
          let sb :=
            forEach graphicsPipelines (GraphicsPipelines s) createGraphicsPipeline sb in
          let sb := forKeys (table s ImageViews) (create ImageViews) sb in
          let sb := forKeys (table s BufferViews) (create BufferViews) sb in
          let sb := forKeys (table s DescriptorPools) (create DescriptorPools) sb in
          let sb := forKeys (table s Framebuffers) (create Framebuffers) sb in
          let sb := forKeys (table s DescriptorSets) (create DescriptorSets) sb in
          let sb := forKeys (table s QueryPools) (create QueryPools) sb in
          let sb :=
            forKeys (CommandBuffers s)
              (fun cb => createCommandBuffer cb VK_COMMAND_BUFFER_LEVEL_SECONDARY) sb in
          let sb :=
            forKeys (CommandBuffers s)
              (fun cb => createCommandBuffer cb VK_COMMAND_BUFFER_LEVEL_PRIMARY) sb in
          Some (cmds sb, memoryIntervals sb)
      end
  end.

(** ** The emission order as the specification words it

    The stages, the fixed order, and for each stage the creation calls that
    drain it: one call per key of the stage's table, keys increasing (for the
    two pipeline stages, one call per pipeline in the order given, which is
    to be dependency-resolved). *)
Inductive RebuildStage :=
| StInstances | StPhysicalDevices | StSurfaces | StLogicalDevices | StQueues
| StSwapchains | StNonDedicatedMemory | StBuffers | StImages | StSamplers
| StFences | StSemaphores | StEvents | StCommandPools | StPipelineCaches
| StDescriptorSetLayouts | StPipelineLayouts | StRenderPasses | StShaderModules
| StComputePipelines | StGraphicsPipelines | StImageViews | StBufferViews
| StDescriptorPools | StFramebuffers | StDescriptorSets | StQueryPools
| StSecondaryCommandBuffers | StPrimaryCommandBuffers.

Definition fixedStageOrder : list RebuildStage :=
  [StInstances; StPhysicalDevices; StSurfaces; StLogicalDevices; StQueues;
   StSwapchains; StNonDedicatedMemory; StBuffers; StImages; StSamplers;
   StFences; StSemaphores; StEvents; StCommandPools; StPipelineCaches;
   StDescriptorSetLayouts; StPipelineLayouts; StRenderPasses; StShaderModules;
   StComputePipelines; StGraphicsPipelines; StImageViews; StBufferViews;
   StDescriptorPools; StFramebuffers; StDescriptorSets; StQueryPools;
   StSecondaryCommandBuffers; StPrimaryCommandBuffers].

(** One creation call per object of a table. *)
Definition callsOf {V} (keys : list N) (m : gmap N V)
    (f : V -> stateBuilder -> stateBuilder) : list (stateBuilder -> stateBuilder) :=
  omap (fun k => f <$> m !! k) keys.

Definition runCalls (calls : list (stateBuilder -> stateBuilder)) (sb : stateBuilder)
    : stateBuilder :=
  fold_left (fun sb c => c sb) calls sb.

(** The non-dedicated allocations of the snapshot. *)
Definition nonDedicated (m : gmap N DeviceMemoryObject.t) : gmap N DeviceMemoryObject.t :=
  filter (fun kv => DeviceMemoryObject.DedicatedAllocationNV kv.2 = None) m.

(** The command buffers of one level. *)
Definition ofLevel (level : N) (m : gmap N CommandBufferObject.t)
    : gmap N CommandBufferObject.t :=
  filter (fun kv => CommandBufferObject.Level kv.2 = level) m.

(** The images the rebuilder creates itself. *)
Definition ownImages (m : gmap N ImageObject.t) : gmap N ImageObject.t :=
  filter (fun kv => ImageObject.IsSwapchainImage kv.2 = false) m.

Definition drainStage (orderC orderG : list N) (s : State)
    (st : RebuildStage) (sb : stateBuilder) : stateBuilder :=
  match st with
  | StInstances =>
      runCalls (omap (fun k => createInstance k <$> table s Instances !! k)
                  (Keys (table s Instances))) sb
  | StPhysicalDevices => createPhysicalDevices (PhysicalDevices s) sb
  | StSurfaces => runCalls (callsOf (Keys (table s Surfaces)) (table s Surfaces) (create Surfaces)) sb
  | StLogicalDevices => runCalls (callsOf (Keys (Devices s)) (Devices s) createDevice) sb
  | StQueues => runCalls (callsOf (Keys (table s Queues)) (table s Queues) (create Queues)) sb
  | StSwapchains => runCalls (callsOf (Keys (table s Swapchains)) (table s Swapchains) (create Swapchains)) sb
  | StNonDedicatedMemory =>
      runCalls (callsOf (Keys (nonDedicated (DeviceMemories s))) (DeviceMemories s)
                  (fun mem => createDeviceMemory mem true)) sb
  | StBuffers => runCalls (callsOf (Keys (table s Buffers)) (table s Buffers) (create Buffers)) sb
  | StImages =>
      let '(imgPrimer, sb) := newImagePrimer sb in
      freeImagePrimer imgPrimer
        (runCalls (callsOf (Keys (ownImages (Images s))) (Images s)
                     (fun img => createImageRest img imgPrimer)) sb)
  | StSamplers => runCalls (callsOf (Keys (table s Samplers)) (table s Samplers) (create Samplers)) sb
  | StFences => runCalls (callsOf (Keys (table s Fences)) (table s Fences) (create Fences)) sb
  | StSemaphores => runCalls (callsOf (Keys (table s Semaphores)) (table s Semaphores) (create Semaphores)) sb
  | StEvents => runCalls (callsOf (Keys (table s Events)) (table s Events) (create Events)) sb
  | StCommandPools => runCalls (callsOf (Keys (table s CommandPools)) (table s CommandPools) (create CommandPools)) sb
  | StPipelineCaches => runCalls (callsOf (Keys (table s PipelineCaches)) (table s PipelineCaches) (create PipelineCaches)) sb
  | StDescriptorSetLayouts => runCalls (callsOf (Keys (table s DescriptorSetLayouts)) (table s DescriptorSetLayouts) (create DescriptorSetLayouts)) sb
  | StPipelineLayouts => runCalls (callsOf (Keys (table s PipelineLayouts)) (table s PipelineLayouts) (create PipelineLayouts)) sb
  | StRenderPasses => runCalls (callsOf (Keys (table s RenderPasses)) (table s RenderPasses) (create RenderPasses)) sb
  | StShaderModules => runCalls (callsOf (Keys (ShaderModules s)) (ShaderModules s) createShaderModule) sb
  | StComputePipelines =>
      runCalls (callsOf orderC (ComputePipelines s) createComputePipeline) sb
  | StGraphicsPipelines =>
      runCalls (callsOf orderG (GraphicsPipelines s) createGraphicsPipeline) sb
  | StImageViews => runCalls (callsOf (Keys (table s ImageViews)) (table s ImageViews) (create ImageViews)) sb
  | StBufferViews => runCalls (callsOf (Keys (table s BufferViews)) (table s BufferViews) (create BufferViews)) sb
  | StDescriptorPools => runCalls (callsOf (Keys (table s DescriptorPools)) (table s DescriptorPools) (create DescriptorPools)) sb
  | StFramebuffers => runCalls (callsOf (Keys (table s Framebuffers)) (table s Framebuffers) (create Framebuffers)) sb
  | StDescriptorSets => runCalls (callsOf (Keys (table s DescriptorSets)) (table s DescriptorSets) (create DescriptorSets)) sb
  | StQueryPools => runCalls (callsOf (Keys (table s QueryPools)) (table s QueryPools) (create QueryPools)) sb
  | StSecondaryCommandBuffers =>
      runCalls (callsOf (Keys (ofLevel VK_COMMAND_BUFFER_LEVEL_SECONDARY (CommandBuffers s)))
                  (CommandBuffers s)
                  (fun cb => createCommandBufferRest cb VK_COMMAND_BUFFER_LEVEL_SECONDARY)) sb
  | StPrimaryCommandBuffers =>
      runCalls (callsOf (Keys (ofLevel VK_COMMAND_BUFFER_LEVEL_PRIMARY (CommandBuffers s)))
                  (CommandBuffers s)
                  (fun cb => createCommandBufferRest cb VK_COMMAND_BUFFER_LEVEL_PRIMARY)) sb
  end.

(** Drain the stages one after the other, in the given order. *)
Fixpoint drainInOrder (orderC orderG : list N) (s : State)
    (order : list RebuildStage) (sb : stateBuilder) : stateBuilder :=
  match order with
  | [] => sb
  | st :: rest => drainInOrder orderC orderG s rest (drainStage orderC orderG s st sb)
  end.


(** A routine that only adds to the command sequence, as every routine
    that reaches [cmds] through [write] does. *)
Definition appendsOnly (f : stateBuilder -> stateBuilder) : Prop :=
  forall sb, cmds sb `prefix_of` cmds (f sb).


End Builder.


(** ** A small environment to run the model in

    The simulated state records the live shader modules and compute
    pipelines; destroying a shader module that is not live is an error of
    the mutate step. Allocations are placed one after the other; each given
    creation routine emits a single call. *)
Record exampleApi := mkExampleApi {
  liveShaderModules : gset N;
  liveComputePipelines : gset N
}.

(** The handle a creation call returns through its out-pointer. *)
Definition writtenHandle (c : Cmd) : option N :=
  match cmdWrites c with
  | [o] => match obsData o with VNum h => Some h | _ => None end
  | _ => None
  end.

Definition exampleMutate (c : Cmd) (a : exampleApi) : exampleApi * option string :=
  if String.eqb (cmdName c) "vkCreateShaderModule" then
    match writtenHandle c with
    | Some h => (mkExampleApi ({[h]} ∪ liveShaderModules a) (liveComputePipelines a), None)
    | None => (a, Some "null pointer")
    end
  else if String.eqb (cmdName c) "vkDestroyShaderModule" then
    match cmdArgs c with
    | [_; VNum h; _] =>
        if bool_decide (h ∈ liveShaderModules a)
        then (mkExampleApi (liveShaderModules a ∖ {[h]}) (liveComputePipelines a), None)
        else (a, Some "invalid handle: VkShaderModule")
    | _ => (a, Some "malformed call")
    end
  else if String.eqb (cmdName c) "vkCreateComputePipelines" then
    match writtenHandle c with
    | Some h => (mkExampleApi (liveShaderModules a) ({[h]} ∪ liveComputePipelines a), None)
    | None => (a, Some "null pointer")
    end
  else (a, None).

Definition exampleExternals : Externals := {|
  ApiState := exampleApi;
  OldState := unit;
  NewStateWithAllocator := fun _ => mkExampleApi ∅ ∅;
  Mutate := exampleMutate;
  hasShaderModule := fun a h => bool_decide (h ∈ liveShaderModules a);
  hasComputePipeline := fun a h => bool_decide (h ∈ liveComputePipelines a);
  place := fun a _ => ((4096 + 64 * N.of_nat (allocated a))%N, 64%N);
  packMap := fun m => VArr (map (fun k => default (VNum 0) (m !! k)) (Keys m));
  Merge := fun l r => l ++ [r];
  newUnusedID :=
    fun _ used =>
      default 0%N (head (filter (fun x => used x = false) (N.of_nat <$> seq 1 64)));
  OpaqueObject := fun _ => N;
  imagePrimer := unit
|}.

Definition creationCall (c : Category) : string :=
  match c with
  | Instances => "vkCreateInstance"
  | Surfaces => "vkCreateXcbSurfaceKHR"
  | Queues => "vkGetDeviceQueue"
  | Swapchains => "vkCreateSwapchainKHR"
  | Buffers => "vkCreateBuffer"
  | Samplers => "vkCreateSampler"
  | Fences => "vkCreateFence"
  | Semaphores => "vkCreateSemaphore"
  | Events => "vkCreateEvent"
  | CommandPools => "vkCreateCommandPool"
  | PipelineCaches => "vkCreatePipelineCache"
  | DescriptorSetLayouts => "vkCreateDescriptorSetLayout"
  | PipelineLayouts => "vkCreatePipelineLayout"
  | RenderPasses => "vkCreateRenderPass"
  | ImageViews => "vkCreateImageView"
  | BufferViews => "vkCreateBufferView"
  | DescriptorPools => "vkCreateDescriptorPool"
  | Framebuffers => "vkCreateFramebuffer"
  | DescriptorSets => "vkAllocateDescriptorSets"
  | QueryPools => "vkCreateQueryPool"
  end.

(** Each given routine emits one call naming the object it creates. *)
Definition exampleCreators : Creators (Ext := exampleExternals) := {|
  createInstance := fun k _ sb => write (call "vkCreateInstance" [VNum k]) sb;
  create :=
    fun c (h : @OpaqueObject exampleExternals c) sb =>
      write (call (creationCall c) [VNum (h : N)]) sb;
  createPhysicalDevices :=
    fun m sb => write (call "vkEnumeratePhysicalDevices" [VNum (N.of_nat (size m))]) sb;
  createDevice :=
    fun d sb => write (call "vkCreateDevice" [VNum (DeviceObject.VulkanHandle d)]) sb;
  createGraphicsPipeline :=
    fun gp sb =>
      write (call "vkCreateGraphicsPipelines"
               [VNum (GraphicsPipelineObject.VulkanHandle gp)]) sb;
  newImagePrimer := fun sb => (tt : @imagePrimer exampleExternals, sb);
  freeImagePrimer := fun _ sb => sb;
  createImageRest :=
    fun img _ sb => write (call "vkCreateImage" [VNum (ImageObject.VulkanHandle img)]) sb;
  createCommandBufferRest :=
    fun cb _ sb =>
      write (call "vkAllocateCommandBuffers"
               [VNum (CommandBufferObject.VulkanHandle cb)]) sb
|}.

(** A snapshot holding compute pipelines only, given as
    [(handle, base pipeline)]. *)
Definition exampleModule : ShaderModuleObject.t := ShaderModuleObject.mk 50 9 [7; 8]%N.

Definition examplePipeline (hb : N * N) : ComputePipelineObject.t :=
  ComputePipelineObject.mk hb.1 9 0 None hb.2
    (mkStage 32 exampleModule "main" None) 60.

Definition computeOnly (l : list (N * N)) : State (Ext := exampleExternals) :=
  mkState (Ext := exampleExternals) (fun _ => ∅) ∅ ∅ ∅ ∅ ∅
    (list_to_map ((fun hb => (hb.1, examplePipeline hb)) <$> l)) ∅ ∅ ∅.

Definition exampleDevice : DeviceObject.t := DeviceObject.mk 9 3.

(** A snapshot with one device whose physical device offers a
    host-visible memory type at index 1. *)
Definition deviceOnly : State (Ext := exampleExternals) :=
  mkState (Ext := exampleExternals) (fun _ => ∅)
    {[ 3%N := PhysicalDeviceObject.mk 3 1
                (mkMemoryProperties 2 [mkMemoryType 1 0; mkMemoryType 6 0]) ]}
    {[ 9%N := exampleDevice ]} ∅ ∅ ∅ ∅ ∅ ∅ ∅.

(** The compute pipelines a command sequence creates, in order. *)
Definition createdComputePipelines (l : list Cmd) : list N :=
  omap (fun c =>
          if String.eqb (cmdName c) "vkCreateComputePipelines" then writtenHandle c
          else None) l.

(** The allocation sizes of the [VkMemoryAllocateInfo] structures a command
    reads. *)
Definition allocationSizes (c : Cmd) : list N :=
  omap (fun o =>
          match obsData o with
          | VStruct "VkMemoryAllocateInfo" [_; _; VNum size; _] => Some size
          | _ => None
          end) (cmdReads c).

(** A snapshot with objects of several categories. *)
Definition mixedSnapshot : State (Ext := exampleExternals) :=
  mkState (Ext := exampleExternals)
    (fun c =>
       match c with
       | Instances => {[ 1%N := 1%N ]}
       | Samplers => {[ 21%N := 21%N; 20%N := 20%N ]}
       | Buffers => {[ 11%N := 11%N ]}
       | QueryPools => {[ 40%N := 40%N ]}
       | _ => ∅
       end)
    {[ 3%N := PhysicalDeviceObject.mk 3 1
                (mkMemoryProperties 2 [mkMemoryType 1 0; mkMemoryType 6 0]) ]}
    {[ 9%N := exampleDevice ]}
    {[ 30%N := DeviceMemoryObject.mk 30 9 1024 1 None 0 0 0;
       31%N := DeviceMemoryObject.mk 31 9 2048 1 (Some (mkDedicated 0 11)) 0 0 0 ]}
    {[ 70%N := ImageObject.mk 70 9 true; 71%N := ImageObject.mk 71 9 false ]}
    ∅
    (list_to_map ((fun hb => (hb.1, examplePipeline hb)) <$> [(5, 0); (6, 5)]%N))
    {[ 8%N := GraphicsPipelineObject.mk 8 0 ]}
    {[ 90%N := CommandBufferObject.mk 90 9 80 VK_COMMAND_BUFFER_LEVEL_PRIMARY;
       91%N := CommandBufferObject.mk 91 9 80 VK_COMMAND_BUFFER_LEVEL_SECONDARY ]}
    ∅.

(** * Further routines of the rebuilder *)

(** ** Level sizes *)

Definition nextMultipleOf8 (v : N) : N := N.land (U64.add v 7) (U64.lnot 7).

Record byteSizeAndExtent := mkByteSizeAndExtent {
  levelSize_ : N;
  alignedLevelSize : N;
  levelSizeInBuf : N;
  alignedLevelSizeInBuf : N;
  width : N;
  height : N;
  depth : N
}.

Record VkExtent3D := mkExtent3D {
  extentWidth : N;
  extentHeight : N;
  extentDepth : N
}.

Definition VK_IMAGE_ASPECT_COLOR_BIT : N := 1.
Definition VK_IMAGE_ASPECT_DEPTH_BIT : N := 2.
Definition VK_IMAGE_ASPECT_STENCIL_BIT : N := 4.

(** Modelled from the spec: the format tables and size helpers of the API
    description, which [levelSize] calls, are not among the sources: the
    element size and the texel block width and height of a format, the size
    of a mip level, the rounded-up quotient, and the size of a depth element
    "in-image" or "in-linear-buffer". They are left arbitrary; all are
    [uint32] valued. *)
Class FormatSubs := {
  subGetElementAndTexelBlockSize : N -> N * (N * N);
  subGetMipSize : N -> N -> N;
  subRoundUpTo : N -> N -> N;
  subGetDepthElementSize : N -> bool -> N
}.

Section LevelSize.
Context `{Fmt : FormatSubs}.

Definition levelSize (extent : VkExtent3D) (format : N) (mipLevel : N) (aspect : N)
    : byteSizeAndExtent :=
  let elementAndTexelBlockSize := subGetElementAndTexelBlockSize format in
  let texelWidth := U32.wrap elementAndTexelBlockSize.2.1 in
  let texelHeight := U32.wrap elementAndTexelBlockSize.2.2 in
  let width := U32.wrap (subGetMipSize (extentWidth extent) mipLevel) in
  let height := U32.wrap (subGetMipSize (extentHeight extent) mipLevel) in
  let depth := U32.wrap (subGetMipSize (extentDepth extent) mipLevel) in
  let widthInBlocks := U32.wrap (subRoundUpTo width texelWidth) in
  let heightInBlocks := U32.wrap (subRoundUpTo height texelHeight) in
  let elementSize :=
    if (aspect =? VK_IMAGE_ASPECT_COLOR_BIT)%N then U32.wrap elementAndTexelBlockSize.1
    else if (aspect =? VK_IMAGE_ASPECT_DEPTH_BIT)%N
         then U32.wrap (subGetDepthElementSize format false)
         else if (aspect =? VK_IMAGE_ASPECT_STENCIL_BIT)%N then 1%N
              else 0%N in
  let elementSizeInBuf :=
    if (aspect =? VK_IMAGE_ASPECT_DEPTH_BIT)%N
    then U32.wrap (subGetDepthElementSize format true)
    else elementSize in
  let size :=
    U64.mul (U64.mul (U64.mul widthInBlocks heightInBlocks) depth) elementSize in
  let sizeInBuf :=
    U64.mul (U64.mul (U64.mul widthInBlocks heightInBlocks) depth) elementSizeInBuf in
  mkByteSizeAndExtent size (nextMultipleOf8 size) sizeInBuf (nextMultipleOf8 sizeInBuf)
    width height depth.

End LevelSize.

(** ** Memory types *)

(** Memory type [i] is allowed by the type bits and has all of [flags]:
    what the loop of [memoryTypeIndexFor] tests. *)
Definition qualifies (memTypeBits : N) (props : VkPhysicalDeviceMemoryProperties)
    (flags : N) (i : N) : Prop :=
  N.land memTypeBits (U32.shl1 i) <> 0%N /\
  flags = N.land (PropertyFlags (nth (N.to_nat i) (MemoryTypes props) (mkMemoryType 0 0))) flags.

(** ** Queues *)

Module QueueObject.
Record t := mk {
  VulkanHandle : N;
  Device : N;
  Family : N;
  Index : N
}.
End QueueObject.

Definition VK_QUEUE_SPARSE_BINDING_BIT : N := 8.

(** [for _, i := range *queueFamilyIndices { if i == family { ... } }]:
    whether some entry of the map is the family. *)
Definition familyListed (queueFamilyIndices : gmap N N) (family : N) : bool :=
  existsb (fun kv => (kv.2 =? family)%N) (map_to_list queueFamilyIndices).

(** [getQueueFor]. [queues] is the queue table [sb.s.Queues] of the
    snapshot; the two lists of picks give the orders of its two [range]
    loops over that table. The result [None] is the nil queue. *)
Definition getQueueFor (queues : gmap N QueueObject.t) (picks1 picks2 : list nat)
    (lastBoundQueue : option QueueObject.t) (device : N)
    (queueFamilyIndices : option (gmap N N)) : option QueueObject.t :=
  match lastBoundQueue with
  | Some q => Some q
  | None =>
      let listed :=
        match queueFamilyIndices with
        | Some indices =>
            List.find
              (fun v => (QueueObject.Device v =? device)%N &&
                        familyListed indices (QueueObject.Family v))
              (goRange picks1 (map_to_list queues)).*2
        | None => None
        end in
      match listed with
      | Some v => Some v
      | None =>
          List.find (fun v => (QueueObject.Device v =? device)%N)
            (goRange picks2 (map_to_list queues)).*2
      end
  end.

Section Queues.
Context `{Ext : Externals}.

(** [getSparseQueueFor]. [queueFlags] gives the [QueueFlags] of a queue
    family of a physical device (the [QueueFamilyProperties] of the physical
    device objects, zero for a family the map lacks). The outer [None] is the
    nil-pointer panic of the first block, when the device of the last bound
    queue or its physical device is not in the tables. *)
Definition getSparseQueueFor (s : State) (queues : gmap N QueueObject.t)
    (queueFlags : N -> N -> N) (picks : list nat)
    (lastBoundQueue : option QueueObject.t) (device : N)
    (queueFamilyIndices : option (gmap N N)) : option (option QueueObject.t) :=
  let sparse (physicalDevice family : N) : bool :=
    negb (N.land (U32.wrap (queueFlags physicalDevice family))
            VK_QUEUE_SPARSE_BINDING_BIT =? 0)%N in
  let rest :=
    match Devices s !! device with
    | None => lastBoundQueue
    | Some dev =>
        match PhysicalDevices s !! DeviceObject.PhysicalDevice dev with
        | None => lastBoundQueue
        | Some _ =>
            match queueFamilyIndices with
            | Some indices =>
                match
                  List.find
                    (fun v => (QueueObject.Device v =? device)%N &&
                              sparse (DeviceObject.PhysicalDevice dev) (QueueObject.Family v) &&
                              familyListed indices (QueueObject.Family v))
                    (goRange picks (map_to_list queues)).*2
                with
                | Some v => Some v
                | None => lastBoundQueue
                end
            | None => lastBoundQueue
            end
        end
    end in
  match lastBoundQueue with
  | Some q =>
      match Devices s !! QueueObject.Device q with
      | None => None
      | Some qdev =>
          match PhysicalDevices s !! DeviceObject.PhysicalDevice qdev with
          | None => None
          | Some _ =>
              if sparse (DeviceObject.PhysicalDevice qdev) (QueueObject.Family q)
              then Some lastBoundQueue
              else Some rest
          end
      end
  | None => Some rest
  end.

(** ** One-shot command buffers *)

Definition createQueue (q : QueueObject.t) (sb : stateBuilder) : stateBuilder :=
  let '(pQueue, sb) := MustAllocWriteData (VNum (QueueObject.VulkanHandle q)) sb in
  write (call "vkGetDeviceQueue"
           [VNum (QueueObject.Device q); VNum (QueueObject.Family q);
            VNum (QueueObject.Index q); Ptr pQueue]) sb.

Definition getCommandBuffer (queue : QueueObject.t) (sb : stateBuilder)
    : (N * N) * stateBuilder :=
  let commandBufferId := newUnusedID true (fun x => Contains (CommandBuffers (s sb)) x) in
  let commandPoolId := newUnusedID true (fun x => Contains (table (s sb) CommandPools) x) in
  let '(poolInfo, sb) :=
    MustAllocReadData
      (VStruct "VkCommandPoolCreateInfo"
         [VStr "VK_STRUCTURE_TYPE_COMMAND_POOL_CREATE_INFO"; Nullptr; VNum 0;
          VNum (QueueObject.Family queue)]) sb in
  let '(pPool, sb) := MustAllocWriteData (VNum commandPoolId) sb in
  let sb :=
    write (call "vkCreateCommandPool"
             [VNum (QueueObject.Device queue); Ptr poolInfo; Nullptr; Ptr pPool;
              VK_SUCCESS]) sb in
  let '(allocInfo, sb) :=
    MustAllocReadData
      (VStruct "VkCommandBufferAllocateInfo"
         [VStr "VK_STRUCTURE_TYPE_COMMAND_BUFFER_ALLOCATE_INFO"; Nullptr;
          VNum commandPoolId; VNum VK_COMMAND_BUFFER_LEVEL_PRIMARY; VNum 1]) sb in
  let '(pBuffer, sb) := MustAllocWriteData (VNum commandBufferId) sb in
  let sb :=
    write (call "vkAllocateCommandBuffers"
             [VNum (QueueObject.Device queue); Ptr allocInfo; Ptr pBuffer; VK_SUCCESS]) sb in
  let '(beginInfo, sb) :=
    MustAllocReadData
      (VStruct "VkCommandBufferBeginInfo"
         [VStr "VK_STRUCTURE_TYPE_COMMAND_BUFFER_BEGIN_INFO"; Nullptr; VNum 0; Nullptr]) sb in
  let sb :=
    write (call "vkBeginCommandBuffer" [VNum commandBufferId; Ptr beginInfo; VK_SUCCESS]) sb in
  ((commandBufferId, commandPoolId), sb).

Definition endSubmitAndDestroyCommandBuffer (queue : QueueObject.t)
    (commandBuffer commandPool : N) (sb : stateBuilder) : stateBuilder :=
  let sb := write (call "vkEndCommandBuffer" [VNum commandBuffer; VK_SUCCESS]) sb in
  let '(pBuffers, sb) := MustAllocReadData (VNum commandBuffer) sb in
  let '(submitInfo, sb) :=
    MustAllocReadData
      (VStruct "VkSubmitInfo"
         [VStr "VK_STRUCTURE_TYPE_SUBMIT_INFO"; Nullptr; VNum 0; Nullptr; Nullptr;
          VNum 1; Ptr pBuffers; VNum 0; Nullptr]) sb in
  let sb :=
    write (call "vkQueueSubmit"
             [VNum (QueueObject.VulkanHandle queue); VNum 1; Ptr submitInfo; VNum 0;
              VK_SUCCESS]) sb in
  let sb :=
    write (call "vkQueueWaitIdle" [VNum (QueueObject.VulkanHandle queue); VK_SUCCESS]) sb in
  write (call "vkDestroyCommandPool"
           [VNum (QueueObject.Device queue); VNum commandPool; Nullptr]) sb.

Definition freeScratchBuffer (device : DeviceObject.t) (buffer mem : N)
    (sb : stateBuilder) : stateBuilder :=
  let sb :=
    write (call "vkDestroyBuffer" [VNum (DeviceObject.VulkanHandle device); VNum buffer; Nullptr])
      sb in
  write (call "vkFreeMemory" [VNum (DeviceObject.VulkanHandle device); VNum mem; Nullptr]) sb.

(** ** The ledger of allocations *)

(** Every allocation made so far is accounted for exactly once: freed,
    pending in the builder's lists, or held by the running routine. *)
Definition ledgerOk (held : list nat) (sb : stateBuilder) : Prop :=
  freed (allocator (newState sb)) ++ pending sb ++ held ≡ₚ seq 0 (allocatedCount sb).

(** Nothing is pending and every allocation made so far has been freed
    exactly once. *)
Definition settled (sb : stateBuilder) : Prop :=
  readMemories sb = [] /\ writeMemories sb = [] /\
  freed (allocator (newState sb)) ≡ₚ seq 0 (allocatedCount sb).

End Queues.

Definition exampleQueue : QueueObject.t := QueueObject.mk 15 9 0 0.

(** Formats of four-byte elements in blocks of one texel, whose depth
    element takes four bytes in an image and three in a buffer. *)
Definition exampleFormats : FormatSubs := {|
  subGetElementAndTexelBlockSize := fun _ => (4, (1, 1))%N;
  subGetMipSize := fun extent level => N.max (N.shiftr extent level) 1;
  subRoundUpTo := fun dividend divisor => ((dividend + divisor - 1) / divisor)%N;
  subGetDepthElementSize := fun _ inBuffer => if inBuffer then 3%N else 4%N
|}.
(** * Properties *)

(** ** Machine arithmetic and Go maps *)

Lemma wrap_le n : (U64.wrap n <= n)%N.
Proof. unfold U64.wrap, U64.modulus. apply N.Div0.mod_le. Qed.

Lemma wrap_small n : (n < U64.modulus)%N -> U64.wrap n = n.
Proof. unfold U64.wrap. intros H. by apply N.mod_small. Qed.

Lemma elem_of_Keys {V} (m : gmap N V) (k : N) : k ∈ Keys m <-> is_Some (m !! k).
Proof.
  unfold Keys. rewrite merge_sort_Permutation, list_elem_of_fmap. split.
  - intros [[k' v] [-> Hin]]. apply elem_of_map_to_list in Hin. by exists v.
  - intros [v Hv]. exists (k, v). split; [done|]. by apply elem_of_map_to_list.
Qed.

Lemma Keys_empty {V} : Keys (∅ : gmap N V) = [].
Proof. unfold Keys. by rewrite map_to_list_empty. Qed.

Lemma NoDup_Keys {V} (m : gmap N V) : NoDup (Keys m).
Proof.
  unfold Keys. rewrite merge_sort_Permutation. apply NoDup_fst_map_to_list.
Qed.

Lemma Sorted_Keys {V} (m : gmap N V) : Sorted N.le (Keys m).
Proof.
  unfold Keys. apply (Sorted_merge_sort N.le).
Qed.

(** ** [IsFullyBound] *)

Lemma firstBeyond_none keys i bound :
  (forall k, k ∈ keys -> (k <= bound)%N) -> firstBeyond keys i bound = (-1)%Z.
Proof.
  revert i. induction keys as [|k rest IH]; intros i Hle; simpl; [done|].
  assert (k <= bound)%N as Hk by (apply Hle; left).
  destruct (N.ltb_spec bound k); [lia|].
  apply IH. intros k' Hk'. apply Hle. by right.
Qed.

Lemma firstBeyond_range keys i bound :
  firstBeyond keys i bound = (-1)%Z \/
  (i <= firstBeyond keys i bound < i + Z.of_nat (length keys))%Z.
Proof.
  revert i. induction keys as [|k rest IH]; intros i; simpl; [by left|].
  destruct (N.ltb_spec bound k); [right; lia|].
  destruct (IH (i + 1)%Z) as [->|?]; [by left|right; lia].
Qed.

Lemma nth_key_bound (keys : list N) (m : gmap N VkSparseMemoryBind) (i : nat) :
  (forall k, k ∈ keys -> is_Some (m !! k)) -> (i < length keys)%nat ->
  exists bind, m !! nth i keys 0%N = Some bind /\
               SparseMap.Get m (nth i keys 0%N) = bind.
Proof.
  intros Hkeys Hi.
  assert (nth i keys 0%N ∈ keys) as Hin.
  { apply list_elem_of_In. by apply nth_In. }
  destruct (Hkeys _ Hin) as [bind Hb]. exists bind. split; [done|].
  unfold SparseMap.Get. by rewrite Hb.
Qed.

(** The walk only moves [end] down over bytes that a binding covers. *)
Lemma walkBack_covers keys m offset bound i end_ i' end' :
  (forall k, k ∈ keys -> is_Some (m !! k)) -> (i < length keys)%nat ->
  walkBack keys m offset i end_ = Some (i', end') ->
  (forall b, (end_ <= b < bound)%N -> covered m b) ->
  (forall b, (end' <= b < bound)%N -> covered m b) /\ (i' <= i)%nat.
Proof.
  intros Hkeys. revert end_. induction i as [|i IH]; intros end_ Hi Hwalk Hcov.
  - simpl in Hwalk. injection Hwalk as <- <-. split; [done|lia].
  - simpl in Hwalk. destruct (N.ltb_spec offset end_) as [Hlt|Hge].
    + set (r := nth (S i) keys 0%N) in *.
      destruct (N.leb_spec end_ (U64.add r (Size (SparseMap.Get m r)))) as [Hle|]; [|done].
      destruct (nth_key_bound keys m (S i) Hkeys Hi) as [bind [Hb Hget]].
      fold r in Hb, Hget. rewrite Hget in Hle.
      destruct (IH r) as [Hcov' Hi']; [lia|done| |split; [done|lia]].
      intros b Hb'. destruct (N.lt_ge_cases b end_) as [Hlow|Hhigh].
      * exists r, bind. split; [done|].
        pose proof (wrap_le (r + Size bind)). unfold U64.add in Hle. lia.
      * apply Hcov. lia.
    + injection Hwalk as <- <-. split; [done|lia].
Qed.

(** Soundness of the predicate: a positive answer means that every byte
    from [offset] up to the 64-bit end of the range is bound. *)
Lemma IsFullyBound_sound offset size bindings b :
  IsFullyBound offset size bindings = true ->
  (offset <= b < U64.add offset size)%N -> covered bindings b.
Proof.
  unfold IsFullyBound. intros Htrue Hb.
  set (keys := Keys bindings) in *. set (bound := U64.add offset size) in *.
  assert (forall k, k ∈ keys -> is_Some (bindings !! k)) as Hkeys.
  { intros k. apply elem_of_Keys. }
  destruct (firstBeyond_range keys 0 bound) as [Heq|Hrange].
  { rewrite Heq in Htrue. done. }
  destruct (Z.eqb_spec (firstBeyond keys 0 bound) (-1)); [done|].
  destruct (Z.eqb_spec (firstBeyond keys 0 bound) 0); [done|]. simpl in Htrue.
  set (i := Z.to_nat (firstBeyond keys 0 bound - 1)) in *.
  assert (i < length keys)%nat as Hi by lia.
  destruct (walkBack keys bindings offset i bound) as [[i' end']|] eqn:Hwalk; [|done].
  destruct (walkBack_covers keys bindings offset bound i bound i' end' Hkeys Hi Hwalk)
    as [Hcov Hi']; [intros; lia|].
  destruct (N.leb_spec end' offset) as [Hend|Hend]; [apply Hcov; lia|].
  destruct (Nat.eqb_spec i' 0) as [->|]; [|done].
  apply andb_true_iff in Htrue as [H0 Hspan].
  apply N.leb_le in H0, Hspan.
  destruct (nth_key_bound keys bindings 0 Hkeys) as [bind [Hbind Hget]]; [lia|].
  rewrite Hget in Hspan.
  destruct (N.lt_ge_cases b end') as [Hlow|Hhigh]; [|apply Hcov; lia].
  exists (nth 0 keys 0%N), bind. split; [done|].
  pose proof (wrap_le (nth 0 keys 0%N + Size bind)). unfold U64.add in Hspan. lia.
Qed.

(** C3. [IsFullyBound] answers false for an empty binding map, whenever
    some byte of the queried range [offset, offset+size) (its end being the
    64-bit sum the code computes) lies in the span of no binding, and
    whenever no binding starts strictly beyond [offset+size]. *)
Theorem IsFullyBound_false_cases (offset size : N) (bindings : gmap N VkSparseMemoryBind) :
  (bindings = ∅ -> IsFullyBound offset size bindings = false) /\
  ((exists b, (offset <= b < U64.add offset size)%N /\ ~ covered bindings b) ->
   IsFullyBound offset size bindings = false) /\
  ((forall k, is_Some (bindings !! k) -> (k <= U64.add offset size)%N) ->
   IsFullyBound offset size bindings = false).
Proof.
  split; [|split].
  - intros ->. unfold IsFullyBound. by rewrite Keys_empty.
  - intros [b [Hb Hnot]].
    destruct (IsFullyBound offset size bindings) eqn:Htrue; [|done].
    exfalso. apply Hnot. by eapply IsFullyBound_sound.
  - intros Hle. unfold IsFullyBound. rewrite firstBeyond_none; [done|].
    intros k Hk. apply Hle. by apply elem_of_Keys.
Qed.

Lemma IsFullyBound_false_cases_witness :
  IsFullyBound 0 20 (∅ : gmap N VkSparseMemoryBind) = false /\
  IsFullyBound 0 20 (spans [(0, 5); (10, 10); (21, 1)]%N) = false /\
  IsFullyBound 0 20 (spans [(0, 10); (10, 5)]%N) = false.
Proof.
  split; [|split].
  - apply (proj1 (IsFullyBound_false_cases 0 20 ∅)). reflexivity.
  - apply (proj1 (proj2 (IsFullyBound_false_cases 0 20 (spans [(0, 5); (10, 10); (21, 1)]%N)))).
    exists 7%N. split; [vm_compute; split; [discriminate|reflexivity]|].
    intros [k [bind [Hk Hspan]]]. unfold spans in Hk. simpl in Hk.
    destruct (decide (k = 0%N)) as [->|]; [simplify_map_eq; simpl in *; lia|].
    destruct (decide (k = 10%N)) as [->|]; [simplify_map_eq; simpl in *; lia|].
    destruct (decide (k = 21%N)) as [->|]; [simplify_map_eq; simpl in *; lia|].
    simplify_map_eq.
  - apply (proj2 (proj2 (IsFullyBound_false_cases 0 20 (spans [(0, 10); (10, 5)]%N)))).
    intros k [bind Hk]. unfold spans in Hk. simpl in Hk.
    destruct (decide (k = 0%N)) as [->|]; [vm_compute; discriminate|].
    destruct (decide (k = 10%N)) as [->|]; [vm_compute; discriminate|].
    simplify_map_eq.
Defined.

(** C1. With bindings [0,10) and [10,20) the range [0,20) is fully covered,
    yet [IsFullyBound(0, 20, ·)] answers false, because no binding starts
    beyond 20; with [0,5) and [10,20) it answers false as well. *)
Theorem IsFullyBound_adjacent_spans :
  IsFullyBound 0 20 (spans [(0, 10); (10, 10)]%N) = false /\
  (forall b, (0 <= b < 20)%N -> covered (spans [(0, 10); (10, 10)]%N) b) /\
  IsFullyBound 0 20 (spans [(0, 5); (10, 10)]%N) = false.
Proof.
  split; [vm_compute; reflexivity|split; [|vm_compute; reflexivity]].
  intros b Hb. destruct (N.lt_ge_cases b 10).
  - exists 0%N, (mkBind 0 10 0 0 0). split; [reflexivity|simpl; lia].
  - exists 10%N, (mkBind 10 10 0 0 0). split; [reflexivity|simpl; lia].
Qed.

(** Once a further binding starts beyond the range, the same two spans are
    recognised as covering it. *)
Lemma IsFullyBound_with_binding_beyond :
  IsFullyBound 0 20 (spans [(0, 10); (10, 10); (21, 1)]%N) = true.
Proof. vm_compute. reflexivity. Qed.

(** ** The order of a [range] loop *)

Lemma insertAt_Permutation {A} (p : nat) (x : A) (l : list A) :
  insertAt p x l ≡ₚ x :: l.
Proof.
  unfold insertAt. rewrite <- Permutation_middle. by rewrite take_drop.
Qed.

Lemma goRange_Permutation {A} (picks : list nat) (l : list A) :
  goRange picks l ≡ₚ l.
Proof.
  revert picks. induction l as [|x l IH]; intros picks; simpl; [done|].
  by rewrite insertAt_Permutation, IH.
Qed.

(** Every order of the entries is the order of some picks. *)
Lemma goRange_complete {A} (l l' : list A) :
  l' ≡ₚ l -> exists picks, goRange picks l = l'.
Proof.
  revert l'. induction l as [|x l IH]; intros l' Hperm.
  - apply Permutation_nil_r in Hperm as ->. by exists [].
  - assert (x ∈ l') as Hin by (rewrite Hperm; left).
    apply list_elem_of_split in Hin as (l1 & l2 & ->).
    rewrite <- Permutation_middle in Hperm. apply Permutation_cons_inv in Hperm.
    destruct (IH _ Hperm) as [picks Hpicks].
    exists (length l1 :: picks). simpl. rewrite Hpicks. unfold insertAt.
    by rewrite take_app_length, drop_app_length.
Qed.

Lemma goRange_entries (picks : list nat) (u : gmap N N) :
  NoDup (goRange picks (map_to_list u)).*1 /\
  forall k v, (k, v) ∈ goRange picks (map_to_list u) <-> u !! k = Some v.
Proof.
  split.
  - rewrite goRange_Permutation. apply NoDup_fst_map_to_list.
  - intros k v. rewrite goRange_Permutation. apply elem_of_map_to_list.
Qed.

(** ** The pipeline resolver *)

Lemma emittedBefore_app a b l l' :
  emittedBefore a b l -> emittedBefore a b (l ++ l').
Proof.
  intros (l1 & l2 & l3 & ->). exists l1, l2, (l3 ++ l').
  rewrite <- app_assoc. simpl. by rewrite <- app_assoc.
Qed.

Lemma emittedBefore_snoc a b l : a ∈ l -> emittedBefore a b (l ++ [b]).
Proof.
  intros (l1 & l2 & ->)%list_elem_of_split. exists l1, l2, [].
  by rewrite <- app_assoc.
Qed.

Lemma resolverInv_disjoint u0 st k :
  resolverInv u0 st -> k ∈ pipelines st -> unhandledPipelines st !! k = None.
Proof.
  intros Hinv Hk. pose proof (NoDup_fst_map_to_list u0) as Hnd.
  rewrite <- (inv_perm _ _ Hinv) in Hnd. apply NoDup_app in Hnd as (_ & Hdis & _).
  destruct (unhandledPipelines st !! k) as [v|] eqn:Hv; [|done].
  exfalso. apply (Hdis k Hk). apply list_elem_of_fmap. exists (k, v).
  split; [done|]. by apply elem_of_map_to_list.
Qed.

Lemma resolverInv_NoDup u0 st : resolverInv u0 st -> NoDup (pipelines st).
Proof.
  intros Hinv. pose proof (NoDup_fst_map_to_list u0) as Hnd.
  rewrite <- (inv_perm _ _ Hinv) in Hnd. by apply NoDup_app in Hnd as (? & _ & _).
Qed.

Lemma resolverInv_cases u0 st k :
  resolverInv u0 st -> is_Some (u0 !! k) ->
  k ∈ pipelines st \/ is_Some (unhandledPipelines st !! k).
Proof.
  intros Hinv [v Hv].
  assert (k ∈ (map_to_list u0).*1) as Hin.
  { apply list_elem_of_fmap. exists (k, v). split; [done|]. by apply elem_of_map_to_list. }
  rewrite <- (inv_perm _ _ Hinv) in Hin. apply elem_of_app in Hin as [?|Hin]; [by left|].
  right. apply list_elem_of_fmap in Hin as [[k' v'] [-> Hin]].
  apply elem_of_map_to_list in Hin. by exists v'.
Qed.

Lemma resolverInv_initial u0 : resolverInv u0 (mkResolver [] u0 ∅ 0).
Proof.
  split; simpl; try done.
  - intros k. rewrite lookup_empty. split; [by intros [? ?]|by intros ?%elem_of_nil].
  - intros k ?%elem_of_nil. done.
  - intros k v _ _ ?%elem_of_nil. done.
Qed.

(** What one visit does, by cases on whether the entry can be resolved. *)
Lemma visit_ready st (k v : N) :
  v = 0%N \/ is_Some (handledPipelines st !! v) ->
  visit st (k, v) =
  mkResolver (pipelines st ++ [k]) (delete k (unhandledPipelines st))
    (<[k := true]> (handledPipelines st)) (numHandled st + 1).
Proof.
  intros Hready. unfold visit. simpl.
  destruct (N.eqb_spec v 0) as [->|Hv]; [done|].
  destruct Hready as [?|Hh]; [done|].
  unfold Contains. by rewrite bool_decide_eq_true_2.
Qed.

Lemma visit_blocked st (k v : N) :
  v <> 0%N -> handledPipelines st !! v = None -> visit st (k, v) = st.
Proof.
  intros Hv Hh. unfold visit. simpl.
  destruct (N.eqb_spec v 0) as [|_]; [done|].
  unfold Contains. rewrite bool_decide_eq_false_2; [done|].
  rewrite Hh. by intros [? ?].
Qed.

Lemma visit_cases st (k v : N) :
  (v = 0%N \/ is_Some (handledPipelines st !! v)) \/
  (v <> 0%N /\ handledPipelines st !! v = None).
Proof.
  destruct (decide (v = 0%N)); [by left; left|].
  destruct (handledPipelines st !! v) eqn:?; [left; right; eauto|by right].
Qed.

Lemma visit_inv u0 st k v :
  resolverInv u0 st -> unhandledPipelines st !! k = Some v ->
  resolverInv u0 (visit st (k, v)).
Proof.
  intros Hinv Hk. destruct (visit_cases st k v) as [Hready|[Hv Hh]];
    [|by rewrite visit_blocked].
  rewrite visit_ready by done.
  assert (k ∉ pipelines st) as Hfresh.
  { intros Hin. by rewrite (resolverInv_disjoint _ _ _ Hinv Hin) in Hk. }
  split; simpl.
  - rewrite <- (inv_perm _ _ Hinv), <- (map_to_list_delete _ _ _ Hk).
    rewrite <- app_assoc. by apply Permutation_app_head.
  - intros k' v' Hk'. apply (inv_sub _ _ Hinv).
    apply lookup_delete_Some in Hk'. tauto.
  - intros k'. rewrite elem_of_app, list_elem_of_singleton.
    destruct (decide (k' = k)) as [->|Hne].
    + rewrite lookup_insert_eq. split; [by right|eauto].
    + rewrite lookup_insert_ne by done. rewrite (inv_handled _ _ Hinv). tauto.
  - rewrite length_app, (inv_count _ _ Hinv). simpl. lia.
  - intros k' [Hin| ->%list_elem_of_singleton]%elem_of_app.
    + by apply (inv_grounded _ _ Hinv).
    + apply (inv_sub _ _ Hinv) in Hk. destruct Hready as [->|Hh].
      * by apply grounded_root.
      * destruct (decide (v = 0%N)) as [->|Hv]; [by apply grounded_root|].
        eapply grounded_derived; [done..|].
        apply (inv_grounded _ _ Hinv). by apply (inv_handled _ _ Hinv).
  - intros k' v' Hk' Hv' [Hin| ->%list_elem_of_singleton]%elem_of_app.
    + apply emittedBefore_app. by apply (inv_order _ _ Hinv).
    + apply (inv_sub _ _ Hinv) in Hk. assert (v' = v) as -> by congruence.
      apply emittedBefore_snoc. destruct Hready as [?|Hh]; [done|].
      by apply (inv_handled _ _ Hinv).
Qed.

Lemma visit_monotone st kv k : k ∈ pipelines st -> k ∈ pipelines (visit st kv).
Proof.
  destruct kv as [k' v]. intros Hin.
  destruct (visit_cases st k' v) as [Hready|[Hv Hh]].
  - rewrite visit_ready by done. simpl. apply elem_of_app. by left.
  - by rewrite visit_blocked.
Qed.

Lemma visit_keeps_other st kv k v :
  unhandledPipelines st !! k = Some v -> k <> kv.1 ->
  unhandledPipelines (visit st kv) !! k = Some v.
Proof.
  destruct kv as [k' v']. simpl. intros Hk Hne.
  destruct (visit_cases st k' v') as [Hready|[Hv Hh]].
  - rewrite visit_ready by done. simpl. by rewrite lookup_delete_ne.
  - by rewrite visit_blocked.
Qed.

(** A run of visits over distinct pending entries. *)
Lemma visits_inv u0 entries st :
  resolverInv u0 st -> NoDup entries.*1 ->
  (forall k v, (k, v) ∈ entries -> unhandledPipelines st !! k = Some v) ->
  resolverInv u0 (fold_left visit entries st).
Proof.
  revert st. induction entries as [|[k v] rest IH]; intros st Hinv Hnd Hin; [done|].
  simpl. apply NoDup_cons in Hnd as [Hk Hnd]. apply IH; [|done|].
  - apply visit_inv; [done|]. apply Hin. left.
  - intros k' v' Hin'. apply visit_keeps_other; [apply Hin; by right|].
    simpl. intros ->. apply Hk. apply list_elem_of_fmap. by exists (k, v').
Qed.

Lemma visits_monotone entries st k :
  k ∈ pipelines st -> k ∈ pipelines (fold_left visit entries st).
Proof.
  revert st. induction entries as [|e rest IH]; intros st Hin; [done|].
  simpl. apply IH. by apply visit_monotone.
Qed.

(** A pending entry whose base is absent or already emitted is emitted by
    the run that visits it. *)
Lemma visits_ready u0 entries st k v :
  resolverInv u0 st -> NoDup entries.*1 ->
  (forall k v, (k, v) ∈ entries -> unhandledPipelines st !! k = Some v) ->
  (k, v) ∈ entries -> v = 0%N \/ v ∈ pipelines st ->
  k ∈ pipelines (fold_left visit entries st).
Proof.
  revert st. induction entries as [|[k' v'] rest IH]; intros st Hinv Hnd Hpend Hin Hready.
  { by apply elem_of_nil in Hin. }
  simpl. apply NoDup_cons in Hnd as [Hk Hnd].
  apply elem_of_cons in Hin as [Heq|Hin].
  - injection Heq as <- <-. apply visits_monotone. rewrite visit_ready.
    + simpl. apply elem_of_app. right. by left.
    + destruct Hready as [?|Hp]; [by left|right]. by apply (inv_handled _ _ Hinv).
  - apply IH; [|done| |done|].
    + apply visit_inv; [done|]. apply Hpend. by left.
    + intros k2 v2 Hin2. apply visit_keeps_other; [apply Hpend; by right|].
      simpl. intros ->. apply Hk. apply list_elem_of_fmap. by exists (k', v2).
    + destruct Hready as [?|Hp]; [by left|right]. by apply visit_monotone.
Qed.

Lemma pass_inv u0 picks st : resolverInv u0 st -> resolverInv u0 (pass picks st).
Proof.
  intros Hinv. destruct (goRange_entries picks (unhandledPipelines st)) as [Hnd Hin].
  apply visits_inv; [done..|]. intros k v. apply Hin.
Qed.

Lemma pass_monotone picks st k : k ∈ pipelines st -> k ∈ pipelines (pass picks st).
Proof. apply visits_monotone. Qed.

Lemma pass_ready u0 picks st k v :
  resolverInv u0 st -> unhandledPipelines st !! k = Some v ->
  v = 0%N \/ v ∈ pipelines st -> k ∈ pipelines (pass picks st).
Proof.
  intros Hinv Hk Hready.
  destruct (goRange_entries picks (unhandledPipelines st)) as [Hnd Hin].
  eapply visits_ready; [done..| | |done].
  - intros k' v'. apply Hin.
  - by apply Hin.
Qed.

(** The result of a run that returns: the pipelines of the table, each
    once, every emitted pipeline after its base unless nothing was resolved. *)
Lemma resolveLoop_result u0 fuel sched st l :
  resolverInv u0 st -> resolveLoop fuel sched st = Some l ->
  l ≡ₚ (map_to_list u0).*1.
Proof.
  revert sched st. induction fuel as [|fuel IH]; intros sched st Hinv Hrun; [done|].
  simpl in Hrun. case_bool_decide as Hsize.
  - injection Hrun as <-. rewrite <- (inv_perm _ _ Hinv).
    apply map_size_empty_iff in Hsize. rewrite Hsize, map_to_list_empty. simpl.
    by rewrite app_nil_r.
  - pose proof (pass_inv u0 (hd [] sched) st Hinv) as Hinv1.
    destruct (Z.eqb_spec (numHandled (pass (hd [] sched) st)) 0) as [Hzero|Hpos].
    + injection Hrun as <-. rewrite <- (inv_perm _ _ Hinv1).
      apply Permutation_app_head. apply fmap_Permutation, goRange_Permutation.
    + by eapply IH.
Qed.

(** A table in which every pipeline is grounded drains: each pass with
    pending pipelines emits at least one of them. *)
Lemma grounded_has_ready u0 st k :
  resolverInv u0 st -> grounded u0 k -> is_Some (unhandledPipelines st !! k) ->
  exists k' v', unhandledPipelines st !! k' = Some v' /\
                (v' = 0%N \/ v' ∈ pipelines st).
Proof.
  intros Hinv Hg. induction Hg as [k Hk|k v Hk Hv Hg IH]; intros [w Hw].
  - exists k, w. split; [done|left]. apply (inv_sub _ _ Hinv) in Hw. congruence.
  - pose proof (inv_sub _ _ Hinv _ _ Hw) as Hw0. assert (w = v) as -> by congruence.
    assert (is_Some (u0 !! v)) as Hsome by (inversion Hg; eauto).
    destruct (resolverInv_cases _ _ _ Hinv Hsome) as [Hin|Hpend].
    + exists k, v. split; [done|by right].
    + by apply IH.
Qed.

Lemma pass_progress u0 picks st :
  resolverInv u0 st -> (forall k, is_Some (u0 !! k) -> grounded u0 k) ->
  size (unhandledPipelines st) <> 0%nat ->
  (size (unhandledPipelines (pass picks st)) < size (unhandledPipelines st))%nat /\
  numHandled (pass picks st) <> 0%Z.
Proof.
  intros Hinv Hall Hsize.
  destruct (map_to_list (unhandledPipelines st)) as [|[k v] rest] eqn:Hlist.
  { apply map_to_list_empty_iff in Hlist. rewrite Hlist in Hsize.
    by rewrite map_size_empty in Hsize. }
  assert (unhandledPipelines st !! k = Some v) as Hk.
  { apply elem_of_map_to_list. rewrite Hlist. left. }
  destruct (grounded_has_ready u0 st k Hinv) as (k' & v' & Hk' & Hready); [|eauto|].
  { apply Hall. exists v. by apply (inv_sub _ _ Hinv). }
  pose proof (pass_ready u0 picks st k' v' Hinv Hk' Hready) as Hin.
  pose proof (pass_inv u0 picks st Hinv) as Hinv1.
  pose proof (inv_perm _ _ Hinv) as Hp. pose proof (inv_perm _ _ Hinv1) as Hp1.
  apply Permutation_length in Hp, Hp1.
  rewrite length_app, length_fmap, length_map_to_list in Hp, Hp1.
  assert (length (pipelines st) < length (pipelines (pass picks st)))%nat as Hlen.
  { assert (k' ∉ pipelines st) as Hnot.
    { intros Hc. by rewrite (resolverInv_disjoint _ _ _ Hinv Hc) in Hk'. }
    apply Nat.lt_nge. intros Hle.
    assert (pipelines st ⊆+ pipelines (pass picks st)) as Hsub.
    { apply NoDup_submseteq; [by eapply resolverInv_NoDup|].
      intros x. apply pass_monotone. }
    assert (pipelines (pass picks st) ≡ₚ pipelines st) as Heq.
    { symmetry. apply submseteq_length_Permutation; [done|lia]. }
    apply Hnot. by rewrite <- Heq. }
  split; [lia|]. rewrite (inv_count _ _ Hinv1). lia.
Qed.

Lemma resolveLoop_grounded u0 fuel sched st :
  resolverInv u0 st -> (forall k, is_Some (u0 !! k) -> grounded u0 k) ->
  (size (unhandledPipelines st) < fuel)%nat ->
  exists l, resolveLoop fuel sched st = Some l /\
            forall k v, u0 !! k = Some v -> v <> 0%N -> emittedBefore v k l.
Proof.
  revert sched st. induction fuel as [|fuel IH]; intros sched st Hinv Hall Hfuel; [lia|].
  simpl. case_bool_decide as Hsize.
  - exists (pipelines st). split; [done|]. intros k v Hk Hv.
    apply (inv_order _ _ Hinv _ _ Hk Hv).
    destruct (resolverInv_cases u0 st k Hinv) as [?|[w Hw]]; [eauto|done|].
    apply map_size_empty_iff in Hsize. by rewrite Hsize, lookup_empty in Hw.
  - destruct (pass_progress u0 (hd [] sched) st Hinv Hall Hsize) as [Hless Hpos].
    destruct (Z.eqb_spec (numHandled (pass (hd [] sched) st)) 0) as [?|_]; [done|].
    apply IH; [by apply pass_inv|done|lia].
Qed.

(** A table with a pipeline that resolves and one that never can keeps the
    outer loop running: [numHandled] is never reset, so the stalled passes
    that follow the first one are not recognised. *)
Lemma resolveLoop_stalls u0 fuel sched st r k :
  resolverInv u0 st -> u0 !! r = Some 0%N ->
  is_Some (u0 !! k) -> ~ grounded u0 k ->
  resolveLoop fuel sched st = None.
Proof.
  intros Hinv Hr Hk Hng. revert sched st Hinv.
  induction fuel as [|fuel IH]; intros sched st Hinv; [done|].
  assert (forall st', resolverInv u0 st' -> size (unhandledPipelines st') <> 0%nat) as Hpending.
  { intros st' Hinv' Hsize. apply map_size_empty_iff in Hsize.
    destruct (resolverInv_cases u0 st' k Hinv' Hk) as [Hin|[w Hw]].
    - apply Hng. by apply (inv_grounded _ _ Hinv').
    - by rewrite Hsize, lookup_empty in Hw. }
  simpl. rewrite bool_decide_eq_false_2 by by apply Hpending.
  pose proof (pass_inv u0 (hd [] sched) st Hinv) as Hinv1.
  assert (r ∈ pipelines (pass (hd [] sched) st)) as Hin.
  { destruct (resolverInv_cases u0 st r Hinv) as [Hin|[w Hw]]; [eauto| |].
    - by apply pass_monotone.
    - eapply pass_ready; [done..|left].
      apply (inv_sub _ _ Hinv) in Hw. congruence. }
  destruct (Z.eqb_spec (numHandled (pass (hd [] sched) st)) 0) as [Hzero|_].
  { rewrite (inv_count _ _ Hinv1) in Hzero.
    destruct (pipelines (pass (hd [] sched) st)); [by apply elem_of_nil in Hin|done]. }
  by apply IH.
Qed.

Section Resolver.
Context `{Ext : Externals}.

(** C5. For every pipeline table whose base references are acyclic and
    contained in the table (every pipeline is grounded), the resolver
    returns once its loop may run for more iterations than there are
    pipelines, whatever the map iteration orders, and every pipeline with a
    non-zero base comes after that base in the returned order. *)
Theorem GetPipelinesInOrder_base_first (s : State) (compute : bool)
    (sched : list (list nat)) (fuel : nat) :
  (forall k, is_Some (baseTable s compute !! k) -> grounded (baseTable s compute) k) ->
  (size (baseTable s compute) < fuel)%nat ->
  exists l, GetPipelinesInOrder sched fuel s compute = Some l /\
            forall k v, baseTable s compute !! k = Some v -> v <> 0%N ->
                        emittedBefore v k l.
Proof.
  intros Hall Hfuel. unfold GetPipelinesInOrder.
  apply resolveLoop_grounded; [apply resolverInv_initial|done|done].
Qed.

(** C2. A table that holds a pipeline without base together with a
    pipeline that can never be resolved (on a cycle of base references, or
    with a chain of bases leaving the table) never lets the resolver return:
    no number of iterations of its outer loop suffices, whatever the map
    iteration orders. *)
Theorem GetPipelinesInOrder_mixed_table_diverges (s : State) (compute : bool)
    (sched : list (list nat)) (fuel : nat) (r k : N) :
  baseTable s compute !! r = Some 0%N ->
  is_Some (baseTable s compute !! k) -> ~ grounded (baseTable s compute) k ->
  GetPipelinesInOrder sched fuel s compute = None.
Proof.
  intros Hr Hk Hng. unfold GetPipelinesInOrder.
  eapply resolveLoop_stalls; [apply resolverInv_initial|done..].
Qed.

(** C9, as amended. Two runs of the resolver over the same snapshot that
    both return give the same pipelines, each exactly once: their results
    are permutations of each other (and of the pipelines of the table),
    whatever the map iteration orders of the two runs. *)
Theorem GetPipelinesInOrder_runs_agree_up_to_order (s : State) (compute : bool)
    (sched1 sched2 : list (list nat)) (fuel1 fuel2 : nat) (l1 l2 : list N) :
  GetPipelinesInOrder sched1 fuel1 s compute = Some l1 ->
  GetPipelinesInOrder sched2 fuel2 s compute = Some l2 ->
  l1 ≡ₚ l2 /\ NoDup l1 /\ NoDup l2 /\
  forall k, k ∈ l1 <-> is_Some (baseTable s compute !! k).
Proof.
  unfold GetPipelinesInOrder. intros H1 H2.
  apply resolveLoop_result with (u0 := baseTable s compute) in H1, H2;
    try apply resolverInv_initial.
  split; [by rewrite H1, H2|]. split; [|split].
  - rewrite H1. apply NoDup_fst_map_to_list.
  - rewrite H2. apply NoDup_fst_map_to_list.
  - intros k. rewrite H1, list_elem_of_fmap. split.
    + intros [[k' v] [-> Hin]]. apply elem_of_map_to_list in Hin. by exists v.
    + intros [v Hv]. exists (k, v). split; [done|]. by apply elem_of_map_to_list.
Qed.

End Resolver.

(** The chain A(base=0), B(base=A), C(base=B), with handles 1, 2, 3. *)
Lemma chain_grounded k :
  is_Some (baseTable (computeOnly [(1, 0); (2, 1); (3, 2)]%N) true !! k) ->
  grounded (baseTable (computeOnly [(1, 0); (2, 1); (3, 2)]%N) true) k.
Proof.
  assert (baseTable (computeOnly [(1, 0); (2, 1); (3, 2)]%N) true
          = {[ 1%N := 0%N; 2%N := 1%N; 3%N := 2%N ]}) as -> by (vm_compute; reflexivity).
  assert (grounded ({[ 1%N := 0%N; 2%N := 1%N; 3%N := 2%N ]} : gmap N N) 1) as G1.
  { by apply grounded_root. }
  assert (grounded ({[ 1%N := 0%N; 2%N := 1%N; 3%N := 2%N ]} : gmap N N) 2) as G2.
  { by apply (grounded_derived _ 2%N 1%N). }
  intros [v Hv].
  destruct (decide (k = 1%N)) as [->|]; [done|].
  destruct (decide (k = 2%N)) as [->|]; [done|].
  destruct (decide (k = 3%N)) as [->|]; [by apply (grounded_derived _ 3%N 2%N)|].
  simplify_map_eq.
Qed.

Lemma GetPipelinesInOrder_base_first_witness :
  exists l, GetPipelinesInOrder [[2; 1; 0]%nat] 4 (computeOnly [(1, 0); (2, 1); (3, 2)]%N) true
            = Some l /\
            emittedBefore 1 2 l /\ emittedBefore 2 3 l.
Proof.
  destruct (GetPipelinesInOrder_base_first (computeOnly [(1, 0); (2, 1); (3, 2)]%N) true
              [[2; 1; 0]%nat] 4 chain_grounded) as [l [Hl Horder]].
  - vm_compute. lia.
  - exists l. split; [exact Hl|]. split.
    + apply (Horder 2%N 1%N); [vm_compute; reflexivity|discriminate].
    + apply (Horder 3%N 2%N); [vm_compute; reflexivity|discriminate].
Defined.

(** Whatever the iteration orders, the chain is emitted as A, B, C. *)
Lemma GetPipelinesInOrder_chain (sched : list (list nat)) :
  exists l, GetPipelinesInOrder sched 4 (computeOnly [(1, 0); (2, 1); (3, 2)]%N) true
            = Some l /\
            emittedBefore 1 2 l /\ emittedBefore 2 3 l.
Proof.
  destruct (resolveLoop_grounded
              (baseTable (computeOnly [(1, 0); (2, 1); (3, 2)]%N) true) 4 sched
              (mkResolver [] (baseTable (computeOnly [(1, 0); (2, 1); (3, 2)]%N) true) ∅ 0))
    as [l [Hl Horder]].
  - apply resolverInv_initial.
  - apply chain_grounded.
  - vm_compute. lia.
  - exists l. split; [exact Hl|]. split.
    + apply (Horder 2%N 1%N); [vm_compute; reflexivity|discriminate].
    + apply (Horder 3%N 2%N); [vm_compute; reflexivity|discriminate].
Qed.

(** A resolvable pipeline 1 next to the cycle 2 -> 3 -> 2. *)
Lemma cycle_not_grounded :
  ~ grounded (baseTable (computeOnly [(1, 0); (2, 3); (3, 2)]%N) true) 2.
Proof.
  assert (baseTable (computeOnly [(1, 0); (2, 3); (3, 2)]%N) true
          = {[ 1%N := 0%N; 2%N := 3%N; 3%N := 2%N ]}) as -> by (vm_compute; reflexivity).
  assert (forall k, grounded ({[ 1%N := 0%N; 2%N := 3%N; 3%N := 2%N ]} : gmap N N) k ->
                    k <> 2%N /\ k <> 3%N) as Hg.
  { intros k Hk. induction Hk as [k Hk|k v Hk Hv _ [IH2 IH3]].
    - split; intros ->; simplify_map_eq.
    - split; intros ->; simplify_map_eq. }
  intros Hc. by destruct (Hg _ Hc).
Qed.

Lemma GetPipelinesInOrder_mixed_table_diverges_witness :
  GetPipelinesInOrder [] 1000 (computeOnly [(1, 0); (2, 3); (3, 2)]%N) true = None.
Proof.
  apply (GetPipelinesInOrder_mixed_table_diverges
           (computeOnly [(1, 0); (2, 3); (3, 2)]%N) true [] 1000 1%N 2%N).
  - vm_compute. reflexivity.
  - exists 3%N. vm_compute. reflexivity.
  - exact cycle_not_grounded.
Defined.

(** The cycle X(base=Y), Y(base=X) alone: the first pass resolves nothing,
    and both are emitted once, no base honoured. *)
Lemma GetPipelinesInOrder_pure_cycle :
  GetPipelinesInOrder [] 2 (computeOnly [(7, 8); (8, 7)]%N) true = Some [8; 7]%N /\
  GetPipelinesInOrder [[]; [1%nat]] 2 (computeOnly [(7, 8); (8, 7)]%N) true = Some [7; 8]%N.
Proof. split; vm_compute; reflexivity. Qed.

Lemma GetPipelinesInOrder_runs_agree_up_to_order_witness :
  [1; 2]%N ≡ₚ [2; 1]%N /\ NoDup [1; 2]%N /\ NoDup [2; 1]%N /\
  forall k, k ∈ [1; 2]%N <-> is_Some (baseTable (computeOnly [(1, 0); (2, 0)]%N) true !! k).
Proof.
  apply (GetPipelinesInOrder_runs_agree_up_to_order (computeOnly [(1, 0); (2, 0)]%N) true
           [[1%nat]] [] 2 2); vm_compute; reflexivity.
Defined.

(** ** The builder *)

Lemma timesFreed_app i n l1 l2 :
  timesFreed i (mkAllocator n (l1 ++ l2)) =
  (timesFreed i (mkAllocator n l1) + timesFreed i (mkAllocator n l2))%nat.
Proof. unfold timesFreed. simpl. by rewrite filter_app, length_app. Qed.

Lemma count_absent (i : nat) (l : list nat) :
  i ∉ l -> length (filter (fun j => j = i) l) = 0%nat.
Proof.
  induction l as [|x l IH]; intros Hnot; [done|].
  rewrite filter_cons. apply not_elem_of_cons in Hnot as [Hne Hnot].
  destruct (decide (x = i)); [congruence|]. by apply IH.
Qed.

Lemma count_once (i : nat) (l : list nat) :
  NoDup l -> i ∈ l -> length (filter (fun j => j = i) l) = 1%nat.
Proof.
  induction l as [|x l IH]; intros Hnd Hin; [by apply elem_of_nil in Hin|].
  apply NoDup_cons in Hnd as [Hx Hnd]. rewrite filter_cons.
  destruct (decide (x = i)) as [->|Hne].
  - simpl. by rewrite count_absent.
  - apply elem_of_cons in Hin as [?|Hin]; [congruence|]. by apply IH.
Qed.

Section BuilderProperties.
Context `{Ext : Externals}.

Lemma frees_spec (l : list AllocResult) (g : GlobalState) :
  fold_left (fun g r => Free r g) l g =
  mkGlobal (api g)
    (mkAllocator (allocated (allocator g)) (freed (allocator g) ++ map allocId l)).
Proof.
  revert g. induction l as [|r l IH]; intros g; simpl.
  - rewrite app_nil_r. by destruct g as [? []].
  - rewrite IH. simpl. by rewrite <- app_assoc.
Qed.

(** The state [write] leaves, spelled out. *)
Lemma write_spec (cmd : Cmd) (sb : stateBuilder) :
  write cmd sb =
  mkBuilder (s sb) (oldState sb)
    (mkGlobal (Mutate (observed cmd sb) (api (newState sb))).1
       (mkAllocator (allocatedCount sb) (freed (allocator (newState sb)) ++ pending sb)))
    (cmds sb ++ [observed cmd sb]) [] [] (memoryIntervals sb)
    (logs sb ++
     [match (Mutate (observed cmd sb) (api (newState sb))).2 with
      | Some err => LogW (length (cmds sb)) (observed cmd sb) err
      | None => LogD (length (cmds sb)) (observed cmd sb)
      end]).
Proof.
  unfold write. rewrite !frees_spec. simpl. unfold pending, allocatedCount.
  by rewrite List.map_app, app_assoc.
Qed.

Lemma observed_call (cmd : Cmd) (sb : stateBuilder) :
  cmdName (observed cmd sb) = cmdName cmd /\ cmdArgs (observed cmd sb) = cmdArgs cmd.
Proof.
  unfold observed.
  assert (forall l c, cmdName (fold_left (fun c r => AddRead c (Data r)) l c) = cmdName c /\
                      cmdArgs (fold_left (fun c r => AddRead c (Data r)) l c) = cmdArgs c) as Hr.
  { induction l as [|r l IH]; intros c; [done|]. simpl. by destruct (IH (AddRead c (Data r))). }
  assert (forall l c, cmdName (fold_left (fun c w => AddWrite c (Data w)) l c) = cmdName c /\
                      cmdArgs (fold_left (fun c w => AddWrite c (Data w)) l c) = cmdArgs c) as Hw.
  { induction l as [|r l IH]; intros c; [done|]. simpl. by destruct (IH (AddWrite c (Data r))). }
  destruct (Hw (writeMemories sb) (fold_left (fun c r => AddRead c (Data r)) (readMemories sb) cmd))
    as [-> ->].
  apply Hr.
Qed.

(** C8. When the mutate step of a command fails, [write] still appends
    the command (the call and its arguments unchanged, the pending
    observations attached) to the output sequence; the failure only adds a
    warning to the log, and the builder goes on from the state the mutate
    step left. *)
Theorem write_appends_command_when_mutate_fails (cmd : Cmd) (sb : stateBuilder)
    (err : string) :
  (Mutate (observed cmd sb) (api (newState sb))).2 = Some err ->
  cmds (write cmd sb) = cmds sb ++ [observed cmd sb] /\
  cmdName (observed cmd sb) = cmdName cmd /\
  cmdArgs (observed cmd sb) = cmdArgs cmd /\
  logs (write cmd sb) = logs sb ++ [LogW (length (cmds sb)) (observed cmd sb) err] /\
  api (newState (write cmd sb)) = (Mutate (observed cmd sb) (api (newState sb))).1 /\
  memoryIntervals (write cmd sb) = memoryIntervals sb.
Proof.
  intros Herr. rewrite write_spec. simpl. rewrite Herr.
  destruct (observed_call cmd sb) as [Hn Ha]. done.
Qed.

Lemma runOp_registered (op : builderOp) (sb : stateBuilder) :
  registers op = true ->
  allocatedCount (runOp op sb) = S (allocatedCount sb) /\
  freed (allocator (newState (runOp op sb))) = freed (allocator (newState sb)) /\
  pending (runOp op sb) ≡ₚ allocatedCount sb :: pending sb.
Proof.
  unfold pending, allocatedCount.
  destruct op; intros Hreg; try done; simpl; (split; [done|split; [done|]]).
  - rewrite <- app_assoc, !List.map_app. simpl. by rewrite <- Permutation_middle.
  - rewrite app_assoc, List.map_app. simpl. by rewrite <- Permutation_cons_append.
  - rewrite <- app_assoc, !List.map_app. simpl. by rewrite <- Permutation_middle.
  - rewrite app_assoc, List.map_app. simpl. by rewrite <- Permutation_cons_append.
Qed.

Lemma runOps_registered (ops : list builderOp) (sb : stateBuilder) :
  Forall (fun op => registers op = true) ops ->
  (allocatedCount sb <= allocatedCount (runOps ops sb))%nat /\
  freed (allocator (newState (runOps ops sb))) = freed (allocator (newState sb)) /\
  pending (runOps ops sb) ≡ₚ
    seq (allocatedCount sb) (allocatedCount (runOps ops sb) - allocatedCount sb)
    ++ pending sb.
Proof.
  revert sb. induction ops as [|op ops IH]; intros sb Hall.
  - unfold runOps. simpl. rewrite Nat.sub_diag. done.
  - apply Forall_cons in Hall as [Hop Hall].
    change (runOps (op :: ops) sb) with (runOps ops (runOp op sb)).
    destruct (runOp_registered op sb Hop) as (Hn & Hf & Hp).
    destruct (IH (runOp op sb) Hall) as (Hn' & Hf' & Hp').
    set (a' := allocatedCount (runOps ops (runOp op sb))) in *.
    rewrite Hn in Hn', Hp'. split; [lia|]. split; [congruence|].
    rewrite Hp', Hp.
    replace (a' - allocatedCount sb)%nat with (S (a' - S (allocatedCount sb)))%nat by lia.
    simpl. by rewrite <- Permutation_middle.
Qed.

Lemma runOp_ledger (op : builderOp) (sb : stateBuilder) :
  allocatedCount (runOp op sb) = S (allocatedCount sb) /\
  freed (allocator (newState (runOp op sb))) = freed (allocator (newState sb)) /\
  pending (runOp op sb) ≡ₚ (if registers op then [allocatedCount sb] else []) ++ pending sb.
Proof.
  destruct (registers op) eqn:Hreg; [by apply runOp_registered|].
  by destruct op.
Qed.

(** Builder calls of any kind, registering or direct: each makes one
    allocation, none frees, and the pending lists gain the registered ones. *)
Lemma runOps_ledger (ops : list builderOp) (sb : stateBuilder) :
  allocatedCount (runOps ops sb) = (allocatedCount sb + length ops)%nat /\
  freed (allocator (newState (runOps ops sb))) = freed (allocator (newState sb)) /\
  pending (runOps ops sb) ≡ₚ registeredIds (allocatedCount sb) ops ++ pending sb.
Proof.
  revert sb. induction ops as [|op ops IH]; intros sb.
  - unfold runOps. simpl. split; [lia|done].
  - change (runOps (op :: ops) sb) with (runOps ops (runOp op sb)).
    destruct (runOp_ledger op sb) as (Hn & Hf & Hp).
    destruct (IH (runOp op sb)) as (Hn' & Hf' & Hp').
    split; [simpl; lia|]. split; [congruence|].
    rewrite Hp', Hp, Hn. cbn [registeredIds].
    rewrite <- !app_assoc. apply Permutation_app_swap_app.
Qed.

Lemma registeredIds_range (n : nat) (ops : list builderOp) (i : nat) :
  i ∈ registeredIds n ops -> (n <= i < n + length ops)%nat.
Proof.
  revert n. induction ops as [|op ops IH]; intros n Hi.
  - by apply elem_of_nil in Hi.
  - cbn [registeredIds] in Hi. apply elem_of_app in Hi as [Hi|Hi].
    + destruct (registers op); [|by apply elem_of_nil in Hi].
      apply list_elem_of_singleton in Hi. simpl. lia.
    + specialize (IH (S n) Hi). simpl. lia.
Qed.

Lemma registeredIds_from (n : nat) (ops : list builderOp) (i : nat) :
  (i < n)%nat -> length (filter (fun j => j = i) (registeredIds n ops)) = 0%nat.
Proof.
  revert n. induction ops as [|op ops IH]; intros n Hi; [done|].
  cbn [registeredIds]. rewrite filter_app, length_app, IH by lia.
  destruct (registers op); [|done]. rewrite filter_cons.
  destruct (decide (n = i)); [lia|done].
Qed.

Lemma registeredIds_count (n : nat) (ops : list builderOp) (j : nat) (op : builderOp) :
  ops !! j = Some op ->
  length (filter (fun i => i = (n + j)%nat) (registeredIds n ops))
  = if registers op then 1%nat else 0%nat.
Proof.
  revert n j. induction ops as [|op' ops IH]; intros n j Hj; [done|].
  cbn [registeredIds]. rewrite filter_app, length_app. destruct j as [|j].
  - injection Hj as ->. rewrite Nat.add_0_r, registeredIds_from by lia.
    destruct (registers op); [|done]. rewrite filter_cons.
    destruct (decide (n = n)); [done|lia].
  - simpl in Hj. replace (n + S j)%nat with (S n + j)%nat by lia.
    rewrite (IH (S n) j Hj).
    destruct (registers op'); [|done]. rewrite filter_cons.
    destruct (decide (n = (S n + j)%nat)); [lia|done].
Qed.

(** C7, as amended. After every call to [write], whatever the builder it
    is called on, both pending lists are empty and [write] has freed the
    allocations that were in them, each once for each time it was there, and
    no other. Counted from the state the previous emission left (whose
    pending lists are empty), through any allocations made since, by the
    registering helpers or directly: [write] frees every allocation
    registered since exactly once, frees no allocation made directly, and
    leaves the earlier allocations untouched. *)
Theorem write_releases_registered_allocations (sb0 : stateBuilder)
    (ops : list builderOp) (cmd : Cmd) :
  readMemories (write cmd (runOps ops sb0)) = [] /\
  writeMemories (write cmd (runOps ops sb0)) = [] /\
  (forall i,
     freedTimes i (write cmd (runOps ops sb0))
     = (freedTimes i (runOps ops sb0)
        + length (filter (fun j => j = i) (pending (runOps ops sb0))))%nat) /\
  (readMemories sb0 = [] -> writeMemories sb0 = [] ->
   (forall j op, ops !! j = Some op ->
                 freedTimes (allocatedCount sb0 + j) (write cmd (runOps ops sb0))
                 = (freedTimes (allocatedCount sb0 + j) sb0
                    + if registers op then 1 else 0)%nat) /\
   (forall i, (i < allocatedCount sb0)%nat ->
              freedTimes i (write cmd (runOps ops sb0)) = freedTimes i sb0) /\
   (allocatorOk sb0 ->
    allocatorOk (write cmd (runOps ops sb0)) /\
    forall j op, ops !! j = Some op ->
                 freedTimes (allocatedCount sb0 + j) (write cmd (runOps ops sb0))
                 = if registers op then 1%nat else 0%nat)).
Proof.
  destruct (runOps_ledger ops sb0) as (Hn & Hf & Hp).
  assert (forall i,
            freedTimes i (write cmd (runOps ops sb0))
            = (freedTimes i (runOps ops sb0)
               + length (filter (fun j => j = i) (pending (runOps ops sb0))))%nat) as Hfreed.
  { intros i. rewrite write_spec. unfold freedTimes. cbn [newState allocator].
    rewrite timesFreed_app. unfold timesFreed. done. }
  split; [by rewrite write_spec|]. split; [by rewrite write_spec|].
  split; [exact Hfreed|]. intros Hr Hw.
  assert (pending sb0 = []) as Hp0 by (unfold pending; by rewrite Hr, Hw).
  rewrite Hp0, app_nil_r in Hp.
  assert (forall i, freedTimes i (runOps ops sb0) = freedTimes i sb0) as Hsame.
  { intros i. unfold freedTimes, timesFreed. by rewrite Hf. }
  assert (forall j op, ops !! j = Some op ->
                       freedTimes (allocatedCount sb0 + j) (write cmd (runOps ops sb0))
                       = (freedTimes (allocatedCount sb0 + j) sb0
                          + if registers op then 1 else 0)%nat) as Hsince.
  { intros j op Hj. rewrite Hfreed, Hsame, Hp. by rewrite (registeredIds_count _ _ _ op). }
  split; [exact Hsince|]. split.
  - intros i Hi. rewrite Hfreed, Hsame, Hp. rewrite registeredIds_from by done. lia.
  - intros Hok.
    pose proof (registeredIds_range (allocatedCount sb0) ops) as Hids.
    split.
    + intros i. rewrite write_spec. unfold allocatedCount. cbn [newState allocator freed allocated].
      fold (allocatedCount (runOps ops sb0)). rewrite Hn, Hf.
      intros [Hin|Hin]%elem_of_app.
      * apply Hok in Hin. lia.
      * rewrite Hp in Hin. apply Hids in Hin. lia.
    + intros j op Hj. rewrite (Hsince j op Hj).
      assert (freedTimes (allocatedCount sb0 + j) sb0 = 0%nat) as ->; [|done].
      apply count_absent. intros Hin. apply Hok in Hin. lia.
Qed.

(** An allocation made directly, outside the pending lists, is not
    released by the [write] that follows it. *)
Lemma write_keeps_direct_allocation (sb0 : stateBuilder) (v : Value) (cmd : Cmd) :
  allocatorOk sb0 -> readMemories sb0 = [] -> writeMemories sb0 = [] ->
  freedTimes (allocatedCount sb0) (write cmd (runOps [OpAllocDirect v] sb0)) = 0%nat.
Proof.
  intros Hok Hr Hw. rewrite write_spec. unfold freedTimes, timesFreed. simpl.
  unfold pending. simpl. rewrite Hr, Hw. simpl. rewrite app_nil_r.
  apply count_absent. intros Hin. apply Hok in Hin. lia.
Qed.

(** The effect of the builder's calls on the fields the proofs follow. *)
Lemma MustAllocReadData_spec (v : Value) (sb : stateBuilder) :
  cmds (MustAllocReadData v sb).2 = cmds sb /\
  readMemories (MustAllocReadData v sb).2 = readMemories sb ++ [(MustAllocReadData v sb).1] /\
  writeMemories (MustAllocReadData v sb).2 = writeMemories sb /\
  allocData (MustAllocReadData v sb).1 = v.
Proof. done. Qed.

Lemma MustAllocWriteData_spec (v : Value) (sb : stateBuilder) :
  cmds (MustAllocWriteData v sb).2 = cmds sb /\
  readMemories (MustAllocWriteData v sb).2 = readMemories sb /\
  writeMemories (MustAllocWriteData v sb).2 = writeMemories sb ++ [(MustAllocWriteData v sb).1] /\
  allocData (MustAllocWriteData v sb).1 = v.
Proof. done. Qed.

Lemma MustUnpackReadMap_spec (m : gmap N Value) (sb : stateBuilder) :
  cmds (MustUnpackReadMap m sb).2 = cmds sb /\
  readMemories (MustUnpackReadMap m sb).2 = readMemories sb ++ [(MustUnpackReadMap m sb).1] /\
  writeMemories (MustUnpackReadMap m sb).2 = writeMemories sb.
Proof. done. Qed.

Lemma write_fields (cmd : Cmd) (sb : stateBuilder) :
  cmds (write cmd sb) = cmds sb ++ [observed cmd sb] /\
  readMemories (write cmd sb) = [] /\
  writeMemories (write cmd sb) = [].
Proof. by rewrite write_spec. Qed.

Lemma observed_reads (cmd : Cmd) (sb : stateBuilder) :
  cmdReads (observed cmd sb) = cmdReads cmd ++ map Data (readMemories sb).
Proof.
  unfold observed.
  assert (forall l c, cmdReads (fold_left (fun c w => AddWrite c (Data w)) l c) = cmdReads c)
    as Hw.
  { induction l as [|w l IH]; intros c; [done|]. simpl. by rewrite IH. }
  rewrite Hw. generalize (readMemories sb) as l. intros l. revert cmd.
  induction l as [|r l IH]; intros cmd; simpl; [by rewrite app_nil_r|].
  rewrite IH. simpl. by rewrite <- app_assoc.
Qed.

End BuilderProperties.

(** One step through a routine of the builder: the next helper call on a
    named builder is replaced by its result, of which the facts above are
    kept. *)
Ltac builder_step :=
  match goal with
  | |- context [MustAllocReadData ?v ?b] =>
      is_var b; let H := fresh "Hstep" in
      pose proof (MustAllocReadData_spec v b) as H;
      destruct (MustAllocReadData v b) as [? ?]; cbn [fst snd] in H
  | |- context [MustAllocWriteData ?v ?b] =>
      is_var b; let H := fresh "Hstep" in
      pose proof (MustAllocWriteData_spec v b) as H;
      destruct (MustAllocWriteData v b) as [? ?]; cbn [fst snd] in H
  | |- context [MustUnpackReadMap ?v ?b] =>
      is_var b; let H := fresh "Hstep" in
      pose proof (MustUnpackReadMap_spec v b) as H;
      destruct (MustUnpackReadMap v b) as [? ?]; cbn [fst snd] in H
  | |- context [write ?c ?b] =>
      is_var b; let H := fresh "Hstep" in
      pose proof (write_fields c b) as H;
      generalize dependent (write c b); intros ? H
  end; cbv beta iota.

(** The command sequence of the last builder, from the facts kept. *)
Ltac builder_cmds :=
  repeat match goal with
         | H : _ /\ _ |- _ => destruct H
         end;
  repeat match goal with
         | H : cmds ?x = _ |- context [cmds ?x] => rewrite H
         end;
  rewrite <- ?app_assoc.

(** ** The scratch buffer allocator *)

Lemma scratchAllocSize_formula (n : N) :
  scratchAllocSize n = N.land (U64.wrap (2 * n + 255)) (U64.lnot 255).
Proof.
  unfold scratchAllocSize, U64.add, U64.mul, U64.wrap. f_equal.
  rewrite N.Div0.add_mod_idemp_l. f_equal. lia.
Qed.

(** Masking with [^255] rounds a 64-bit number down to a multiple of 256. *)
Lemma land_lnot_255 (x : N) :
  (x < 2 ^ 64)%N -> N.land x (U64.lnot 255) = (256 * (x / 256))%N.
Proof.
  intros Hx.
  replace (U64.lnot 255) with (N.shiftl (N.ones 56) 8) by (vm_compute; reflexivity).
  replace (256 * (x / 256))%N with (N.shiftl (N.shiftr x 8) 8).
  2:{ rewrite N.shiftl_mul_pow2, N.shiftr_div_pow2. change (2 ^ 8)%N with 256%N. lia. }
  apply N.bits_inj. intros i. rewrite N.land_spec.
  destruct (N.ltb_spec i 8) as [Hi|Hi].
  - rewrite !N.shiftl_spec_low by done. apply andb_false_r.
  - rewrite !N.shiftl_spec_high' by done. rewrite N.shiftr_spec'.
    replace (i - 8 + 8)%N with i by lia.
    destruct (N.ltb_spec (i - 8) 56) as [Hlow|Hhigh].
    + rewrite N.ones_spec_low by done. apply andb_true_r.
    + rewrite N.ones_spec_high by done. rewrite andb_false_r.
      destruct (N.eq_dec x 0%N) as [->|Hne]; [by rewrite N.bits_0|].
      symmetry. apply N.bits_above_log2.
      assert (N.log2 x < 64)%N by (apply N.log2_lt_pow2; lia). lia.
Qed.

Section Scratch.
Context `{Ext : Externals}.

Lemma GetScratchBufferMemoryIndex_builder (device : DeviceObject.t) (sb : stateBuilder) :
  cmds (GetScratchBufferMemoryIndex device sb).2 = cmds sb /\
  readMemories (GetScratchBufferMemoryIndex device sb).2 = readMemories sb /\
  writeMemories (GetScratchBufferMemoryIndex device sb).2 = writeMemories sb /\
  newState (GetScratchBufferMemoryIndex device sb).2 = newState sb.
Proof.
  unfold GetScratchBufferMemoryIndex.
  destruct (0 <=? memoryTypeIndexFor _ _ _)%Z; done.
Qed.

Lemma scratchCreateAndBind_cmds (device : DeviceObject.t) (data usages : list N)
    (sb : stateBuilder) :
  exists c1 c2 c3 o idx,
    cmds (scratchCreateAndBind device data usages sb).2 = cmds sb ++ [c1; c2; c3] /\
    cmdName c2 = "vkAllocateMemory" /\
    o ∈ cmdReads c2 /\
    obsData o =
      VkMemoryAllocateInfo Nullptr
        (scratchAllocSize (U64.wrap (N.of_nat (length data)))) idx /\
    cmdArgs c2 !! 1%nat = Some (VPtr (obsBase o)).
Proof.
  unfold scratchCreateAndBind. cbv zeta.
  do 3 builder_step.
  match goal with
  | |- context [GetScratchBufferMemoryIndex device ?b] =>
      pose proof (GetScratchBufferMemoryIndex_builder device b) as (Hc & Hr & Hw & _);
      destruct (GetScratchBufferMemoryIndex device b) as [idx sb2]; cbn [fst snd] in *
  end.
  cbv beta iota.
  do 4 builder_step.
  cbn [fst snd]. builder_cmds. simpl.
  match goal with
  | H : allocData ?x = VkMemoryAllocateInfo _ _ _ |- _ =>
      eexists _, _, _, (Data x), idx
  end.
  split; [reflexivity|].
  split; [by rewrite (proj1 (observed_call _ _))|]. split; [|split].
  - rewrite observed_reads. simpl.
    repeat match goal with
           | H : readMemories ?x = _ |- context [readMemories ?x] => rewrite H
           end.
    simpl. apply list_elem_of_singleton. reflexivity.
  - done.
  - by rewrite (proj2 (observed_call _ _)).
Qed.

Lemma scratchMap_cmds (device : DeviceObject.t) (deviceMemory size : N) (data : list N)
    (sb : stateBuilder) :
  exists c, cmds (scratchMap device deviceMemory size data sb).2 = cmds sb ++ [c].
Proof.
  unfold scratchMap. cbn [AllocDataOrPanic fst snd]. cbv zeta beta iota.
  cbn [fst snd]. rewrite (proj1 (write_fields _ _)). by eexists.
Qed.

Lemma scratchFlushAndUnmap_cmds (device : DeviceObject.t) (deviceMemory size : N)
    (dat atdata : AllocResult) (sb : stateBuilder) :
  exists c1 c2,
    cmds (scratchFlushAndUnmap device deviceMemory size dat atdata sb) = cmds sb ++ [c1; c2].
Proof.
  unfold scratchFlushAndUnmap. cbv zeta. do 3 builder_step.
  cbn [withNewState cmds]. builder_cmds. by eexists _, _.
Qed.

(** C4, as amended. For a device whose physical device is in the
    snapshot, [allocAndFillScratchBuffer] emits, as its second command, a
    [VkAllocateMemory] reading a [VkMemoryAllocateInfo] whose allocation
    size is [(2*N + 255) & ^255] in 64-bit arithmetic, [N] being the payload
    size: twice the payload rounded up to a multiple of 256 when that does
    not overflow, and 256 for a payload of 100 bytes. *)
Theorem allocAndFillScratchBuffer_allocation_size (device : DeviceObject.t)
    (data usages : list N) (sb : stateBuilder) (physicalDevice : PhysicalDeviceObject.t) :
  PhysicalDevices (s sb) !! DeviceObject.PhysicalDevice device = Some physicalDevice ->
  (exists c1 c2 rest o idx,
     cmds (allocAndFillScratchBuffer device data usages sb).2 = cmds sb ++ c1 :: c2 :: rest /\
     cmdName c2 = "vkAllocateMemory" /\
     o ∈ cmdReads c2 /\
     obsData o =
       VkMemoryAllocateInfo Nullptr
         (N.land (U64.wrap (2 * U64.wrap (N.of_nat (length data)) + 255)) (U64.lnot 255))
         idx /\
     cmdArgs c2 !! 1%nat = Some (VPtr (obsBase o))) /\
  ((2 * U64.wrap (N.of_nat (length data)) + 255 < 2 ^ 64)%N ->
   N.land (U64.wrap (2 * U64.wrap (N.of_nat (length data)) + 255)) (U64.lnot 255)
   = (256 * ((2 * U64.wrap (N.of_nat (length data)) + 255) / 256))%N) /\
  (length data = 100%nat ->
   N.land (U64.wrap (2 * U64.wrap (N.of_nat (length data)) + 255)) (U64.lnot 255)
   = 256%N).
Proof.
  intros _. split; [|split].
  - unfold allocAndFillScratchBuffer.
    destruct (scratchCreateAndBind_cmds device data usages sb)
      as (c1 & c2 & c3 & o & idx & Hc & Hname & Hin & Hdata & Hargs).
    destruct (scratchCreateAndBind device data usages sb) as [[[buffer deviceMemory] size] sb1].
    destruct (scratchMap_cmds device deviceMemory size data sb1) as [c4 Hc4].
    destruct (scratchMap device deviceMemory size data sb1) as [[dat atdata] sb2].
    destruct (scratchFlushAndUnmap_cmds device deviceMemory size dat atdata sb2)
      as (c5 & c6 & Hc56).
    cbn [fst snd] in *. exists c1, c2, [c3; c4; c5; c6], o, idx.
    rewrite Hc56, Hc4, Hc, <- !app_assoc. rewrite <- scratchAllocSize_formula. done.
  - intros Hsmall. rewrite (wrap_small (2 * _ + 255)) by done.
    by apply land_lnot_255.
  - intros ->. vm_compute. reflexivity.
Qed.

(** ** Images *)

Section Creation.
Context `{Cr : Creators}.

(** C10. For an image whose [IsSwapchainImage] flag is set, [createImage]
    returns at once: the builder is left as it was, so no command is
    emitted, nothing is primed, and the command sequence and the memory
    interval set are unchanged. *)
Theorem createImage_skips_swapchain_images (img : ImageObject.t)
    (imgPrimer : imagePrimer) (sb : stateBuilder) :
  ImageObject.IsSwapchainImage img = true ->
  createImage img imgPrimer sb = sb /\
  cmds (createImage img imgPrimer sb) = cmds sb /\
  memoryIntervals (createImage img imgPrimer sb) = memoryIntervals sb /\
  newState (createImage img imgPrimer sb) = newState sb.
Proof.
  intros Hflag. unfold createImage. by rewrite Hflag.
Qed.

End Creation.
End Scratch.

(** ** The driver *)

Lemma StronglySorted_filter_le (P : N -> Prop) `{forall x, Decision (P x)} (l : list N) :
  StronglySorted N.le l -> StronglySorted N.le (filter P l).
Proof.
  induction 1 as [|x l Hl IH Hx]; [constructor|].
  rewrite filter_cons. destruct (decide (P x)); [|done].
  constructor; [done|]. apply Forall_forall. intros y [_ Hy]%list_elem_of_filter.
  by eapply Forall_forall in Hx.
Qed.

#[local] Instance from_option_Decision {V} (Q : V -> Prop) `{forall v, Decision (Q v)}
    (o : option V) : Decision (from_option Q False o).
Proof. destruct o; simpl; apply _. Defined.

(** The keys of a filtered table are the filtered keys of the table. *)
Lemma Keys_filter {V} (Q : V -> Prop) `{forall v, Decision (Q v)} (m : gmap N V) :
  Keys (filter (fun kv => Q kv.2) m) =
  filter (fun k => from_option Q False (m !! k)) (Keys m).
Proof.
  apply (Sorted_unique N.le).
  - apply Sorted_Keys.
  - apply StronglySorted_Sorted, StronglySorted_filter_le.
    apply Sorted_StronglySorted; [apply _|apply Sorted_Keys].
  - apply NoDup_Permutation; [apply NoDup_Keys|apply NoDup_filter, NoDup_Keys|].
    intros k. rewrite list_elem_of_filter, !elem_of_Keys. split.
    + intros [v [Hv HQ]%map_lookup_filter_Some]. rewrite Hv. simpl in *. eauto.
    + intros [HQ [v Hv]]. rewrite Hv in HQ. exists v.
      by apply map_lookup_filter_Some.
Qed.

Section Driver.
Context `{Cr : Creators}.

Lemma fold_calls {V} (keys : list N) (m : gmap N V)
    (f : N -> V -> stateBuilder -> stateBuilder) (sb : stateBuilder) :
  fold_left (fun sb k => match m !! k with Some o => f k o sb | None => sb end) keys sb =
  runCalls (omap (fun k => f k <$> m !! k) keys) sb.
Proof.
  revert sb. induction keys as [|k keys IH]; intros sb; [done|].
  simpl. destruct (m !! k) as [o|]; simpl; apply IH.
Qed.

Lemma forEach_runCalls {V} (keys : list N) (m : gmap N V)
    (f : V -> stateBuilder -> stateBuilder) (sb : stateBuilder) :
  forEach keys m f sb = runCalls (callsOf keys m f) sb.
Proof. unfold forEach, callsOf. apply (fold_calls keys m (fun _ => f)). Qed.

Lemma forKeys_runCalls {V} (m : gmap N V) (f : V -> stateBuilder -> stateBuilder)
    (sb : stateBuilder) :
  forKeys m f sb = runCalls (callsOf (Keys m) m f) sb.
Proof. apply forEach_runCalls. Qed.

(** A loop over all the keys whose body returns at once unless [Q] holds
    of the object makes the calls of the objects satisfying [Q]. *)
Lemma forKeys_guard {V} (Q : V -> Prop) `{forall v, Decision (Q v)} (m : gmap N V)
    (f f' : V -> stateBuilder -> stateBuilder) (sb : stateBuilder) :
  (forall o sb, f o sb = if decide (Q o) then f' o sb else sb) ->
  forKeys m f sb = runCalls (callsOf (Keys (filter (fun kv => Q kv.2) m)) m f') sb.
Proof.
  intros Hf. unfold forKeys. rewrite Keys_filter. generalize (Keys m) as keys.
  intros keys. revert sb. induction keys as [|k keys IH]; intros sb; [done|].
  unfold forEach, callsOf in *. simpl. rewrite filter_cons.
  destruct (m !! k) as [o|] eqn:Hk; simpl.
  - rewrite Hf. destruct (decide (Q o)); simpl.
    + rewrite Hk. simpl. apply IH.
    + apply IH.
  - apply IH.
Qed.

Lemma createDeviceMemory_guard (mem : DeviceMemoryObject.t) (sb : stateBuilder) :
  createDeviceMemory mem false sb =
  if decide (DeviceMemoryObject.DedicatedAllocationNV mem = None)
  then createDeviceMemory mem true sb else sb.
Proof.
  unfold createDeviceMemory.
  destruct (DeviceMemoryObject.DedicatedAllocationNV mem) as [d|]; reflexivity.
Qed.

Lemma createImage_guard (imgPrimer : imagePrimer) (img : ImageObject.t)
    (sb : stateBuilder) :
  createImage img imgPrimer sb =
  if decide (ImageObject.IsSwapchainImage img = false)
  then createImageRest img imgPrimer sb else sb.
Proof.
  unfold createImage. destruct (ImageObject.IsSwapchainImage img); by case_decide.
Qed.

Lemma createCommandBuffer_guard (level : N) (cb : CommandBufferObject.t)
    (sb : stateBuilder) :
  createCommandBuffer cb level sb =
  if decide (CommandBufferObject.Level cb = level)
  then createCommandBufferRest cb level sb else sb.
Proof.
  unfold createCommandBuffer.
  destruct (N.eqb_spec (CommandBufferObject.Level cb) level); by case_decide.
Qed.


Lemma appendsOnly_compose (f g : stateBuilder -> stateBuilder) :
  appendsOnly f -> appendsOnly g -> appendsOnly (fun sb => g (f sb)).
Proof. intros Hf Hg sb. by etrans; [apply Hf|apply Hg]. Qed.









(** [RebuildState], transcribed loop by loop, is the two calls of the
    resolver followed by the draining of the stages in the fixed order, the
    pipelines in the orders the resolver returned. *)
Lemma RebuildState_drains (schedC schedG : list (list nat)) (fuel : nat)
    (s : State) (oldState : OldState) :
  RebuildState schedC schedG fuel s oldState =
  match GetPipelinesInOrder schedC fuel s true with
  | None => None
  | Some orderC =>
      match GetPipelinesInOrder schedG fuel s false with
      | None => None
      | Some orderG =>
          Some (cmds (drainInOrder orderC orderG s fixedStageOrder (newBuilder s oldState)),
                memoryIntervals
                  (drainInOrder orderC orderG s fixedStageOrder (newBuilder s oldState)))
      end
  end.
Proof.
  unfold RebuildState, fixedStageOrder.
  rewrite (forKeys_guard (fun mem => DeviceMemoryObject.DedicatedAllocationNV mem = None)
             (DeviceMemories s) _ (fun mem => createDeviceMemory mem true))
    by apply createDeviceMemory_guard.
  rewrite !forKeys_runCalls, fold_calls.
  destruct (GetPipelinesInOrder schedC fuel s true) as [orderC|]; [|done].
  destruct (GetPipelinesInOrder schedG fuel s false) as [orderG|]; [|done].
  cbn [drainInOrder drainStage].
  destruct (newImagePrimer _) as [imgPrimer sbi].
  rewrite (forKeys_guard (fun img => ImageObject.IsSwapchainImage img = false)
             (Images s) _ (fun img => createImageRest img imgPrimer))
    by apply createImage_guard.
  rewrite !forEach_runCalls.
  rewrite (forKeys_guard
             (fun cb => CommandBufferObject.Level cb = VK_COMMAND_BUFFER_LEVEL_PRIMARY)
             (CommandBuffers s) _
             (fun cb => createCommandBufferRest cb VK_COMMAND_BUFFER_LEVEL_PRIMARY))
    by apply createCommandBuffer_guard.
  rewrite (forKeys_guard
             (fun cb => CommandBufferObject.Level cb = VK_COMMAND_BUFFER_LEVEL_SECONDARY)
             (CommandBuffers s) _
             (fun cb => createCommandBufferRest cb VK_COMMAND_BUFFER_LEVEL_SECONDARY))
    by apply createCommandBuffer_guard.
  by rewrite !forKeys_runCalls.
Qed.

(** C6. The claim holds of no snapshot in which a pipeline table has a
    pipeline without base next to a pipeline that can never be resolved (its
    chain of bases leaves the table, or runs into a cycle): the call of the
    resolver for that table never returns, so [RebuildState] produces no
    command sequence, whatever the bound on the resolver loops and whatever
    the map iteration orders. *)
Theorem RebuildState_stalls_on_unresolvable_pipeline (schedC schedG : list (list nat))
    (fuel : nat) (s : State) (oldState : OldState) (compute : bool) (r k : N) :
  baseTable s compute !! r = Some 0%N ->
  is_Some (baseTable s compute !! k) -> ~ grounded (baseTable s compute) k ->
  RebuildState schedC schedG fuel s oldState = None.
Proof.
  intros Hr Hk Hng. rewrite RebuildState_drains.
  assert (forall sched, GetPipelinesInOrder sched fuel s compute = None) as Hstall.
  { intros sched. unfold GetPipelinesInOrder.
    eapply resolveLoop_stalls; [apply resolverInv_initial|done..]. }
  destruct compute.
  - by rewrite Hstall.
  - rewrite Hstall. by destruct (GetPipelinesInOrder schedC fuel s true).
Qed.

End Driver.

(** ** The model at work *)

(** The calls of a rebuild of [mixedSnapshot], stage after stage: the
    dedicated allocation 31 and the swapchain image 70 are left out, the
    shader module of the compute pipelines is created and destroyed around
    each of them, and the secondary command buffer 91 precedes the primary
    command buffer 90. *)
Example RebuildState_mixedSnapshot :
  (fun r : list Cmd * list (N * N) => cmdName <$> r.1) <$>
    RebuildState (Cr := exampleCreators) [] [] 3 mixedSnapshot tt =
  Some ["vkCreateInstance"; "vkEnumeratePhysicalDevices"; "vkCreateDevice";
        "vkAllocateMemory"; "vkCreateBuffer"; "vkCreateImage";
        "vkCreateSampler"; "vkCreateSampler";
        "vkCreateShaderModule"; "vkCreateComputePipelines"; "vkDestroyShaderModule";
        "vkCreateShaderModule"; "vkCreateComputePipelines"; "vkDestroyShaderModule";
        "vkCreateGraphicsPipelines"; "vkCreateQueryPool";
        "vkAllocateCommandBuffers"; "vkAllocateCommandBuffers"].
Proof. vm_compute. reflexivity. Qed.

Lemma allocAndFillScratchBuffer_allocation_size_witness :
  (exists c1 c2 rest o idx,
     cmds (allocAndFillScratchBuffer (Ext := exampleExternals) exampleDevice
             (repeat 0%N 100) [] (newBuilder deviceOnly tt)).2
     = cmds (newBuilder deviceOnly tt) ++ c1 :: c2 :: rest /\
     cmdName c2 = "vkAllocateMemory" /\
     o ∈ cmdReads c2 /\
     obsData o =
       VkMemoryAllocateInfo Nullptr
         (N.land (U64.wrap (2 * U64.wrap (N.of_nat (length (repeat 0%N 100))) + 255))
            (U64.lnot 255))
         idx /\
     cmdArgs c2 !! 1%nat = Some (VPtr (obsBase o))) /\
  N.land (U64.wrap (2 * U64.wrap (N.of_nat (length (repeat 0%N 100))) + 255)) (U64.lnot 255)
  = (256 * ((2 * U64.wrap (N.of_nat (length (repeat 0%N 100))) + 255) / 256))%N /\
  N.land (U64.wrap (2 * U64.wrap (N.of_nat (length (repeat 0%N 100))) + 255)) (U64.lnot 255)
  = 256%N.
Proof.
  assert (PhysicalDevices (s (newBuilder deviceOnly tt))
          !! DeviceObject.PhysicalDevice exampleDevice
          = Some (PhysicalDeviceObject.mk 3 1
                    (mkMemoryProperties 2 [mkMemoryType 1 0; mkMemoryType 6 0]))) as Hpd
    by (vm_compute; reflexivity).
  destruct (allocAndFillScratchBuffer_allocation_size (Ext := exampleExternals)
              exampleDevice (repeat 0%N 100) [] (newBuilder deviceOnly tt) _ Hpd)
    as (Hcmds & Hround & Hhundred).
  split; [exact Hcmds|]. split.
  - apply Hround. vm_compute. reflexivity.
  - apply Hhundred. reflexivity.
Defined.

(** C4 as stated fails on its example: for a payload of 100 bytes the
    second command is the [VkAllocateMemory], and the size it allocates is
    256, not 512. *)
Lemma scratch_buffer_of_100_bytes_allocates_256 :
  (fun c => (cmdName c, allocationSizes c)) <$>
    cmds (allocAndFillScratchBuffer (Ext := exampleExternals) exampleDevice
            (repeat 0%N 100) [] (newBuilder deviceOnly tt)).2 !! 1%nat
  = Some ("vkAllocateMemory", [256%N]) /\
  scratchAllocSize 100 <> 512%N.
Proof. split; [vm_compute; reflexivity|vm_compute; discriminate]. Qed.

Lemma write_appends_command_when_mutate_fails_witness :
  cmds (write (Ext := exampleExternals)
          (call "vkDestroyShaderModule" [VNum 9; VNum 50; Nullptr])
          (newBuilder deviceOnly tt))
  = [call "vkDestroyShaderModule" [VNum 9; VNum 50; Nullptr]] /\
  logs (write (Ext := exampleExternals)
          (call "vkDestroyShaderModule" [VNum 9; VNum 50; Nullptr])
          (newBuilder deviceOnly tt))
  = [LogW 0 (call "vkDestroyShaderModule" [VNum 9; VNum 50; Nullptr])
       "invalid handle: VkShaderModule"].
Proof.
  destruct (write_appends_command_when_mutate_fails (Ext := exampleExternals)
              (call "vkDestroyShaderModule" [VNum 9; VNum 50; Nullptr])
              (newBuilder deviceOnly tt) "invalid handle: VkShaderModule")
    as (Hcmds & _ & _ & Hlogs & _).
  - vm_compute. reflexivity.
  - split; [exact Hcmds|exact Hlogs].
Defined.

Lemma newBuilder_allocatorOk `{Ext : Externals} (s : State) (oldState : OldState) :
  allocatorOk (newBuilder s oldState).
Proof. intros i Hi. by apply elem_of_nil in Hi. Qed.

(** A read allocation, a direct one and a write allocation before an
    emission: the first and the third are freed once, the second is not. *)
Lemma write_releases_registered_allocations_witness :
  freedTimes 0 (write (Ext := exampleExternals) (call "vkCreateFence" [])
                  (runOps [OpAllocRead (VNum 1); OpAllocDirect (VBytes [7%N]);
                           OpAllocWrite (VNum 2)]
                     (newBuilder deviceOnly tt))) = 1%nat /\
  freedTimes 1 (write (Ext := exampleExternals) (call "vkCreateFence" [])
                  (runOps [OpAllocRead (VNum 1); OpAllocDirect (VBytes [7%N]);
                           OpAllocWrite (VNum 2)]
                     (newBuilder deviceOnly tt))) = 0%nat /\
  freedTimes 2 (write (Ext := exampleExternals) (call "vkCreateFence" [])
                  (runOps [OpAllocRead (VNum 1); OpAllocDirect (VBytes [7%N]);
                           OpAllocWrite (VNum 2)]
                     (newBuilder deviceOnly tt))) = 1%nat.
Proof.
  destruct (write_releases_registered_allocations (Ext := exampleExternals)
              (newBuilder deviceOnly tt)
              [OpAllocRead (VNum 1); OpAllocDirect (VBytes [7%N]); OpAllocWrite (VNum 2)]
              (call "vkCreateFence" []))
    as (_ & _ & _ & Hsince).
  destruct (Hsince eq_refl eq_refl) as (_ & _ & Hok).
  destruct (Hok (newBuilder_allocatorOk deviceOnly tt)) as (_ & Hfreed).
  split; [exact (Hfreed 0%nat _ eq_refl)|].
  split; [exact (Hfreed 1%nat _ eq_refl)|exact (Hfreed 2%nat _ eq_refl)].
Defined.

(** C7 as stated fails inside [allocAndFillScratchBuffer]: right after the
    [write] that emits [vkMapMemory], with both pending lists empty, the
    payload allocated since the previous emission ([vkBindBufferMemory]) has
    not been freed; it is freed two emissions later. *)
Lemma write_leaves_scratch_payload_allocated :
  let sb1 := (scratchCreateAndBind (Ext := exampleExternals) exampleDevice
                [1; 2; 3]%N [] (newBuilder deviceOnly tt)).2 in
  let mapped := scratchMap (Ext := exampleExternals) exampleDevice 1 3 [1; 2; 3]%N sb1 in
  let dat := mapped.1.1 in
  let atdata := mapped.1.2 in
  cmdName <$> last (cmds sb1) = Some "vkBindBufferMemory" /\
  cmdName <$> last (cmds mapped.2) = Some "vkMapMemory" /\
  readMemories mapped.2 = [] /\ writeMemories mapped.2 = [] /\
  (allocatedCount sb1 <= allocId dat < allocatedCount mapped.2)%nat /\
  freedTimes (allocId dat) mapped.2 = 0%nat /\
  freedTimes (allocId dat)
    (scratchFlushAndUnmap (Ext := exampleExternals) exampleDevice 1 3 dat atdata mapped.2)
  = 1%nat.
Proof. vm_compute. repeat split; lia. Qed.

Lemma createImage_skips_swapchain_images_witness :
  createImage (Cr := exampleCreators) (ImageObject.mk 70 9 true) tt
    (newBuilder mixedSnapshot tt) = newBuilder mixedSnapshot tt /\
  cmdName <$> cmds (createImage (Cr := exampleCreators) (ImageObject.mk 71 9 false) tt
                      (newBuilder mixedSnapshot tt)) = ["vkCreateImage"].
Proof.
  split.
  - apply (createImage_skips_swapchain_images (Cr := exampleCreators)
             (ImageObject.mk 70 9 true) tt (newBuilder mixedSnapshot tt)).
    reflexivity.
  - vm_compute. reflexivity.
Defined.

(** C9 as stated fails: two rebuilds of one snapshot holding two
    independent compute pipelines create them in different orders when the
    map iteration of the resolver differs, so the command sequences differ. *)
Lemma RebuildState_order_depends_on_map_iteration :
  match RebuildState (Cr := exampleCreators) [[1%nat]] [] 2 (computeOnly [(1, 0); (2, 0)]%N) tt,
        RebuildState (Cr := exampleCreators) [] [] 2 (computeOnly [(1, 0); (2, 0)]%N) tt with
  | Some (cmds1, _), Some (cmds2, _) =>
      cmds1 <> cmds2 /\
      createdComputePipelines cmds1 = [1; 2]%N /\
      createdComputePipelines cmds2 = [2; 1]%N
  | _, _ => False
  end.
Proof.
  vm_compute. split; [|split; reflexivity].
  intros Heq. apply (f_equal createdComputePipelines) in Heq.
  vm_compute in Heq. discriminate Heq.
Qed.


(** A pipeline without base next to one whose base, 99, is not in the
    snapshot. *)
Lemma dangling_not_grounded :
  ~ grounded (baseTable (computeOnly [(1, 0); (5, 99)]%N) true) 5.
Proof.
  assert (baseTable (computeOnly [(1, 0); (5, 99)]%N) true
          = {[ 1%N := 0%N; 5%N := 99%N ]}) as -> by (vm_compute; reflexivity).
  intros Hg. inversion Hg as [k Hk|k v Hk Hv Hgv]; simplify_map_eq.
  inversion Hgv; simplify_map_eq.
Qed.

Lemma RebuildState_stalls_on_unresolvable_pipeline_witness :
  RebuildState (Cr := exampleCreators) [] [] 1000 (computeOnly [(1, 0); (5, 99)]%N) tt = None.
Proof.
  apply (RebuildState_stalls_on_unresolvable_pipeline (Cr := exampleCreators) [] [] 1000
           (computeOnly [(1, 0); (5, 99)]%N) tt true 1%N 5%N).
  - vm_compute. reflexivity.
  - exists 99%N. vm_compute. reflexivity.
  - exact dangling_not_grounded.
Defined.

(** * Further properties *)

(** ** Level sizes *)

(** Masking with [^(2^n - 1)] rounds a 64-bit number down to a multiple
    of [2^n]. *)
Lemma land_low_mask (n x : N) :
  (n <= 64)%N -> (x < 2 ^ 64)%N ->
  N.land x (N.shiftl (N.ones (64 - n)) n) = (2 ^ n * (x / 2 ^ n))%N.
Proof.
  intros Hn Hx.
  replace (2 ^ n * (x / 2 ^ n))%N with (N.shiftl (N.shiftr x n) n).
  2:{ rewrite N.shiftl_mul_pow2, N.shiftr_div_pow2. lia. }
  apply N.bits_inj. intros i. rewrite N.land_spec.
  destruct (N.ltb_spec i n) as [Hi|Hi].
  - rewrite !N.shiftl_spec_low by done. apply andb_false_r.
  - rewrite !N.shiftl_spec_high' by done. rewrite N.shiftr_spec'.
    replace (i - n + n)%N with i by lia.
    destruct (N.ltb_spec (i - n) (64 - n)) as [Hlow|Hhigh].
    + rewrite N.ones_spec_low by done. apply andb_true_r.
    + rewrite N.ones_spec_high by done. rewrite andb_false_r.
      destruct (N.eq_dec x 0%N) as [->|Hne]; [by rewrite N.bits_0|].
      symmetry. apply N.bits_above_log2.
      assert (N.log2 x < 64)%N by (apply N.log2_lt_pow2; lia). lia.
Qed.

Lemma nextMultipleOf8_div (v : N) :
  nextMultipleOf8 v = (8 * (U64.wrap (v + 7) / 8))%N.
Proof.
  unfold nextMultipleOf8, U64.add.
  replace (U64.lnot 7) with (N.shiftl (N.ones (64 - 3)) 3) by (vm_compute; reflexivity).
  rewrite land_low_mask; [done|lia|]. unfold U64.wrap, U64.modulus.
  apply N.mod_lt. lia.
Qed.

Lemma nextMultipleOf8_bounds (v : N) :
  (v < 2 ^ 64)%N ->
  (nextMultipleOf8 v mod 8 = 0)%N /\ (nextMultipleOf8 v < 2 ^ 64)%N /\
  ((v + 7 < 2 ^ 64)%N ->
   (v <= nextMultipleOf8 v < v + 8)%N /\
   forall m, (m mod 8 = 0)%N -> (v <= m)%N -> (nextMultipleOf8 v <= m)%N) /\
  ((2 ^ 64 <= v + 7)%N -> nextMultipleOf8 v = 0%N).
Proof.
  intros Hv. rewrite nextMultipleOf8_div.
  assert (U64.wrap (v + 7) < 2 ^ 64)%N as Hw.
  { unfold U64.wrap, U64.modulus. apply N.mod_lt. lia. }
  split; [|split; [|split]].
  - rewrite N.mul_comm. by apply N.Div0.mod_mul.
  - pose proof (N.Div0.mul_div_le (U64.wrap (v + 7)) 8) as Hle.
    set (q := (U64.wrap (v + 7) / 8)%N) in *. clearbody q. lia.
  - intros Hfit. rewrite (wrap_small (v + 7)) by done.
    pose proof (N.div_mod' (v + 7) 8) as Hq.
    assert ((v + 7) mod 8 < 8)%N as Hr by (apply N.mod_lt; lia).
    set (q := ((v + 7) / 8)%N) in *. set (r := ((v + 7) mod 8)%N) in *.
    clearbody q r. split; [lia|]. intros m Hm Hle.
    pose proof (N.div_mod' m 8) as Hqm. rewrite Hm in Hqm.
    set (qm := (m / 8)%N) in *. clearbody qm. lia.
  - intros Hover. unfold U64.wrap, U64.modulus.
    assert ((v + 7) mod 2 ^ 64 = v + 7 - 2 ^ 64)%N as ->.
    { symmetry. apply (N.mod_unique _ _ 1%N); lia. }
    rewrite N.div_small by lia. done.
Qed.

(** X1. [nextMultipleOf8] always returns a multiple of 8 below [2^64]. As
    long as [v + 7] fits 64 bits it is the least multiple of 8 that is at
    least [v]; for the seven values of [v] above [2^64 - 8] the sum wraps and
    the result is 0. *)
Theorem nextMultipleOf8_rounds_up (v : N) :
  (v < 2 ^ 64)%N ->
  (nextMultipleOf8 v mod 8 = 0)%N /\ (nextMultipleOf8 v < 2 ^ 64)%N /\
  ((v + 7 < 2 ^ 64)%N ->
   (v <= nextMultipleOf8 v < v + 8)%N /\
   forall m, (m mod 8 = 0)%N -> (v <= m)%N -> (nextMultipleOf8 v <= m)%N) /\
  ((2 ^ 64 <= v + 7)%N -> nextMultipleOf8 v = 0%N).
Proof. apply nextMultipleOf8_bounds. Qed.

Lemma nextMultipleOf8_rounds_up_witness :
  (nextMultipleOf8 402 mod 8 = 0)%N /\ (nextMultipleOf8 402 < 2 ^ 64)%N /\
  ((402 + 7 < 2 ^ 64)%N ->
   (402 <= nextMultipleOf8 402 < 402 + 8)%N /\
   forall m, (m mod 8 = 0)%N -> (402 <= m)%N -> (nextMultipleOf8 402 <= m)%N) /\
  ((2 ^ 64 <= 402 + 7)%N -> nextMultipleOf8 402 = 0%N).
Proof. apply (nextMultipleOf8_rounds_up 402). reflexivity. Defined.

Section LevelSizeProperties.
Context `{Fmt : FormatSubs}.

(** X2. The sizes [levelSize] gives a mip level: outside the depth aspect
    the sizes in a buffer are the sizes in the image; for an aspect that is
    none of colour, depth and stencil every size is 0; and each of the two
    aligned sizes, in the image and in a buffer, is a multiple of 8 that is
    at least its unaligned size and exceeds it by less than 8, unless that
    unaligned size is within 7 of [2^64]. *)
Theorem levelSize_sizes (extent : VkExtent3D) (format mipLevel aspect : N) :
  (aspect <> VK_IMAGE_ASPECT_DEPTH_BIT ->
   levelSizeInBuf (levelSize extent format mipLevel aspect)
   = levelSize_ (levelSize extent format mipLevel aspect) /\
   alignedLevelSizeInBuf (levelSize extent format mipLevel aspect)
   = alignedLevelSize (levelSize extent format mipLevel aspect)) /\
  (aspect <> VK_IMAGE_ASPECT_COLOR_BIT -> aspect <> VK_IMAGE_ASPECT_DEPTH_BIT ->
   aspect <> VK_IMAGE_ASPECT_STENCIL_BIT ->
   levelSize_ (levelSize extent format mipLevel aspect) = 0%N /\
   alignedLevelSize (levelSize extent format mipLevel aspect) = 0%N /\
   levelSizeInBuf (levelSize extent format mipLevel aspect) = 0%N /\
   alignedLevelSizeInBuf (levelSize extent format mipLevel aspect) = 0%N) /\
  (alignedLevelSize (levelSize extent format mipLevel aspect) mod 8 = 0)%N /\
  (alignedLevelSizeInBuf (levelSize extent format mipLevel aspect) mod 8 = 0)%N /\
  ((levelSize_ (levelSize extent format mipLevel aspect) + 7 < 2 ^ 64)%N ->
   (levelSize_ (levelSize extent format mipLevel aspect)
    <= alignedLevelSize (levelSize extent format mipLevel aspect)
    < levelSize_ (levelSize extent format mipLevel aspect) + 8)%N) /\
  ((levelSizeInBuf (levelSize extent format mipLevel aspect) + 7 < 2 ^ 64)%N ->
   (levelSizeInBuf (levelSize extent format mipLevel aspect)
    <= alignedLevelSizeInBuf (levelSize extent format mipLevel aspect)
    < levelSizeInBuf (levelSize extent format mipLevel aspect) + 8)%N).
Proof.
  assert (forall a b, U64.mul a b < 2 ^ 64)%N as Hmul.
  { intros a b. unfold U64.mul, U64.wrap, U64.modulus. apply N.mod_lt. lia. }
  unfold levelSize. cbn [levelSize_ alignedLevelSize levelSizeInBuf alignedLevelSizeInBuf].
  split; [|split; [|split; [|split; [|split]]]].
  - intros Hd. destruct (N.eqb_spec aspect VK_IMAGE_ASPECT_DEPTH_BIT); done.
  - intros Hc Hd Hs.
    destruct (N.eqb_spec aspect VK_IMAGE_ASPECT_COLOR_BIT); [done|].
    destruct (N.eqb_spec aspect VK_IMAGE_ASPECT_DEPTH_BIT); [done|].
    destruct (N.eqb_spec aspect VK_IMAGE_ASPECT_STENCIL_BIT); [done|].
    assert (forall a, U64.mul a 0 = 0%N) as H0.
    { intros a. unfold U64.mul. by rewrite N.mul_0_r. }
    rewrite !H0. by vm_compute.
  - apply nextMultipleOf8_bounds, Hmul.
  - apply nextMultipleOf8_bounds, Hmul.
  - intros Hfit. by apply nextMultipleOf8_bounds; [apply Hmul|].
  - intros Hfit. by apply nextMultipleOf8_bounds; [apply Hmul|].
Qed.

End LevelSizeProperties.

(** A depth level of 5 by 5 texels, four bytes a texel in the image and
    three in a buffer: 100 bytes aligned to 104 in the image, 75 aligned to
    80 in a buffer. *)
Lemma levelSize_sizes_witness :
  levelSize_ (levelSize (Fmt := exampleFormats) (mkExtent3D 5 5 1) 37 0
                VK_IMAGE_ASPECT_DEPTH_BIT) = 100%N /\
  levelSizeInBuf (levelSize (Fmt := exampleFormats) (mkExtent3D 5 5 1) 37 0
                    VK_IMAGE_ASPECT_DEPTH_BIT) = 75%N /\
  (100 <= alignedLevelSize (levelSize (Fmt := exampleFormats) (mkExtent3D 5 5 1) 37 0
                              VK_IMAGE_ASPECT_DEPTH_BIT) < 108)%N /\
  (75 <= alignedLevelSizeInBuf (levelSize (Fmt := exampleFormats) (mkExtent3D 5 5 1) 37 0
                                  VK_IMAGE_ASPECT_DEPTH_BIT) < 83)%N /\
  (alignedLevelSizeInBuf (levelSize (Fmt := exampleFormats) (mkExtent3D 5 5 1) 37 0
                            VK_IMAGE_ASPECT_DEPTH_BIT) mod 8 = 0)%N.
Proof.
  pose proof (levelSize_sizes (Fmt := exampleFormats) (mkExtent3D 5 5 1) 37 0
                VK_IMAGE_ASPECT_DEPTH_BIT) as (_ & _ & _ & Hmod & Hal & Halbuf).
  assert (levelSize_ (levelSize (Fmt := exampleFormats) (mkExtent3D 5 5 1) 37 0
                        VK_IMAGE_ASPECT_DEPTH_BIT) = 100%N) as Hsize
    by (vm_compute; reflexivity).
  assert (levelSizeInBuf (levelSize (Fmt := exampleFormats) (mkExtent3D 5 5 1) 37 0
                            VK_IMAGE_ASPECT_DEPTH_BIT) = 75%N) as Hbuf
    by (vm_compute; reflexivity).
  rewrite Hsize in Hal. rewrite Hbuf in Halbuf.
  split; [exact Hsize|]. split; [exact Hbuf|].
  split; [apply Hal; reflexivity|]. split; [apply Halbuf; reflexivity|exact Hmod].
Defined.

(** ** Memory types *)

Lemma memoryTypeIndexFrom_spec (n : nat) (i memTypeBits : N)
    (props : VkPhysicalDeviceMemoryProperties) (flags : N) :
  (memoryTypeIndexFrom n i memTypeBits props flags = (-1)%Z /\
   forall j, (i <= j < i + N.of_nat n)%N -> ~ qualifies memTypeBits props flags j) \/
  (exists k, memoryTypeIndexFrom n i memTypeBits props flags = Z.of_N k /\
             (i <= k < i + N.of_nat n)%N /\ qualifies memTypeBits props flags k /\
             forall j, (i <= j < k)%N -> ~ qualifies memTypeBits props flags j).
Proof.
  revert i. induction n as [|n IH]; intros i.
  { left. split; [done|]. intros j Hj. lia. }
  cbn [memoryTypeIndexFrom].
  assert (forall j, (i <= j < i + 1)%N -> j = i) as Hone by (intros; lia).
  destruct (N.eqb_spec (N.land memTypeBits (U32.shl1 i)) 0) as [Hbit|Hbit].
  - destruct (IH (i + 1)%N) as [[Hr Hnone]|(k & Hr & Hk & Hq & Hleast)].
    + left. split; [done|]. intros j Hj. destruct (decide (j = i)) as [->|].
      * by intros [? _].
      * apply Hnone. lia.
    + right. exists k. split; [done|]. split; [lia|]. split; [done|].
      intros j Hj. destruct (decide (j = i)) as [->|].
      * by intros [? _].
      * apply Hleast. lia.
  - destruct (N.eqb_spec flags
                (N.land (PropertyFlags (nth (N.to_nat i) (MemoryTypes props) (mkMemoryType 0 0)))
                   flags)) as [Hflags|Hflags].
    + right. exists i. split; [done|]. split; [lia|]. split; [done|]. intros j Hj. lia.
    + destruct (IH (i + 1)%N) as [[Hr Hnone]|(k & Hr & Hk & Hq & Hleast)].
      * left. split; [done|]. intros j Hj. destruct (decide (j = i)) as [->|].
        -- by intros [_ ?].
        -- apply Hnone. lia.
      * right. exists k. split; [done|]. split; [lia|]. split; [done|].
        intros j Hj. destruct (decide (j = i)) as [->|].
        -- by intros [_ ?].
        -- apply Hleast. lia.
Qed.

Lemma qualifies_below_32 memTypeBits props flags (j : N) :
  qualifies memTypeBits props flags j -> (j < 32)%N.
Proof.
  intros [Hbit _]. unfold U32.shl1 in Hbit.
  destruct (N.ltb_spec j 32); [done|]. by rewrite N.land_0_r in Hbit.
Qed.

Lemma memoryTypeIndexFor_least_or_none (memTypeBits : N)
    (props : VkPhysicalDeviceMemoryProperties) (flags : N) :
  (memoryTypeIndexFor memTypeBits props flags = (-1)%Z /\
   forall j, (j < MemoryTypeCount props)%N -> ~ qualifies memTypeBits props flags j) \/
  (exists k, memoryTypeIndexFor memTypeBits props flags = Z.of_N k /\
             (k < MemoryTypeCount props)%N /\ (k < 32)%N /\
             qualifies memTypeBits props flags k /\
             forall j, (j < k)%N -> ~ qualifies memTypeBits props flags j).
Proof.
  unfold memoryTypeIndexFor.
  destruct (memoryTypeIndexFrom_spec (N.to_nat (MemoryTypeCount props)) 0 memTypeBits
              props flags) as [[Hr Hnone]|(k & Hr & Hk & Hq & Hleast)].
  - left. split; [done|]. intros j Hj. apply Hnone. lia.
  - right. exists k. split; [done|]. split; [lia|].
    split; [by eapply qualifies_below_32|]. split; [done|].
    intros j Hj. apply Hleast. lia.
Qed.

(** X3. [memoryTypeIndexFor] returns the least index below
    [MemoryTypeCount] whose bit is set in the type bits and whose property
    flags include all the requested ones, and -1 exactly when there is none.
    An index it returns is below 32, so the array of memory types is never
    read out of its bounds. *)
Theorem memoryTypeIndexFor_least (memTypeBits : N)
    (props : VkPhysicalDeviceMemoryProperties) (flags : N) :
  (memoryTypeIndexFor memTypeBits props flags = (-1)%Z /\
   forall j, (j < MemoryTypeCount props)%N -> ~ qualifies memTypeBits props flags j) \/
  (exists k, memoryTypeIndexFor memTypeBits props flags = Z.of_N k /\
             (k < MemoryTypeCount props)%N /\ (k < 32)%N /\
             qualifies memTypeBits props flags k /\
             forall j, (j < k)%N -> ~ qualifies memTypeBits props flags j).
Proof. apply memoryTypeIndexFor_least_or_none. Qed.

(** The type bits [GetScratchBufferMemoryIndex] starts from,
    [uint32((uint64(1) << count) - 1)], have every bit below 32 and below
    the count set. *)
Lemma default_type_bits (count j : N) :
  (j < count)%N -> (j < 32)%N ->
  N.land (U32.wrap (U64.sub (U64.shl1 count) 1)) (U32.shl1 j) <> 0%N.
Proof.
  intros Hj H32.
  assert (U64.sub (U64.shl1 count) 1 = N.ones (N.min count 64)) as ->.
  { unfold U64.sub, U64.shl1, U64.wrap, U64.modulus.
    destruct (N.ltb_spec count 64) as [Hc|Hc].
    - rewrite N.min_l by lia. rewrite N.ones_equiv.
      assert (2 ^ count < 2 ^ 64)%N by (apply N.pow_lt_mono_r; lia).
      assert (0 < 2 ^ count)%N by (apply N.neq_0_lt_0, N.pow_nonzero; lia).
      rewrite (N.mod_small (2 ^ count)) by done.
      change (1 mod 2 ^ 64)%N with 1%N.
      symmetry. apply (N.mod_unique _ _ 1%N); lia.
    - rewrite N.min_r by lia. vm_compute. reflexivity. }
  unfold U32.wrap, U32.modulus, U32.shl1.
  destruct (N.ltb_spec j 32) as [_|?]; [|lia].
  intros Hzero. apply (f_equal (fun x => N.testbit x j)) in Hzero.
  rewrite N.land_spec, N.pow2_bits_true, N.bits_0, andb_true_r in Hzero.
  rewrite N.mod_pow2_bits_low in Hzero by done.
  rewrite N.ones_spec_low in Hzero by lia. done.
Qed.

Section ScratchIndex.
Context `{Ext : Externals}.

(** X4. For a device whose physical device is in the snapshot,
    [GetScratchBufferMemoryIndex] changes nothing of the builder but its
    log. Among the memory types the transfer requirements recorded for the
    device allow (all of them when none are recorded), it returns the least
    one that is host visible, logging nothing; when there is none it returns
    index 0 and logs one error. *)
Theorem GetScratchBufferMemoryIndex_host_visible (device : DeviceObject.t)
    (sb : stateBuilder) (physicalDevice : PhysicalDeviceObject.t)
    (allowed : N -> Prop) :
  PhysicalDevices (s sb) !! DeviceObject.PhysicalDevice device = Some physicalDevice ->
  (forall j,
     allowed j <->
     (j < MemoryTypeCount (PhysicalDeviceObject.MemoryProperties physicalDevice))%N /\
     VK_MEMORY_PROPERTY_HOST_VISIBLE_BIT
     = N.land (PropertyFlags
                 (nth (N.to_nat j)
                    (MemoryTypes (PhysicalDeviceObject.MemoryProperties physicalDevice))
                    (mkMemoryType 0 0)))
         VK_MEMORY_PROPERTY_HOST_VISIBLE_BIT /\
     match TransferBufferMemoryRequirements (s sb) !! DeviceObject.VulkanHandle device with
     | Some req => N.land (MemoryTypeBits req) (U32.shl1 j) <> 0%N
     | None => (j < 32)%N
     end) ->
  (exists k, GetScratchBufferMemoryIndex device sb = (k, sb) /\ allowed k /\
             forall j, (j < k)%N -> ~ allowed j) \/
  (GetScratchBufferMemoryIndex device sb
   = (0%N,
      logTo (LogE "cannnot get the memory type index for host visible memory to create scratch buffer, fallback to use index 0") sb) /\
   forall j, ~ allowed j).
Proof.
  intros Hpd Hallowed. unfold GetScratchBufferMemoryIndex. cbv zeta. rewrite Hpd.
  cbn [default from_option id].
  set (props := PhysicalDeviceObject.MemoryProperties physicalDevice) in *.
  set (bits := match TransferBufferMemoryRequirements (s sb) !! _ with
               | Some req => MemoryTypeBits req
               | None => _
               end).
  assert (forall j, (j < MemoryTypeCount props)%N ->
                    qualifies bits props VK_MEMORY_PROPERTY_HOST_VISIBLE_BIT j <-> allowed j)
    as Hq.
  { intros j Hj. rewrite Hallowed. unfold qualifies, bits.
    destruct (TransferBufferMemoryRequirements (s sb) !! _) as [req|].
    - tauto.
    - split.
      + intros [Hbit Hflags]. split; [done|]. split; [done|].
        unfold U32.shl1 in Hbit. destruct (N.ltb_spec j 32); [done|].
        by rewrite N.land_0_r in Hbit.
      + intros (_ & Hflags & H32). split; [|done]. by apply default_type_bits. }
  destruct (memoryTypeIndexFor_least_or_none bits props VK_MEMORY_PROPERTY_HOST_VISIBLE_BIT)
    as [[Hr Hnone]|(k & Hr & Hk & H32 & Hqk & Hleast)].
  - right. rewrite Hr. split; [done|]. intros j Hj.
    pose proof (proj1 (Hallowed j) Hj) as (Hc & _). apply (Hnone j Hc). by apply Hq.
  - left. exists k. rewrite Hr.
    destruct (Z.leb_spec 0 (Z.of_N k)) as [_|?]; [|lia].
    rewrite N2Z.id. unfold U32.wrap, U32.modulus. rewrite N.mod_small by lia.
    split; [done|]. split; [by apply Hq|].
    intros j Hj Ha. apply (Hleast j Hj). apply Hq; [lia|done].
Qed.

End ScratchIndex.

(** The physical device of [deviceOnly] offers memory types 0 (device
    local) and 1 (host visible and coherent): the scratch index is 1. *)
Lemma GetScratchBufferMemoryIndex_host_visible_witness :
  (exists k, GetScratchBufferMemoryIndex exampleDevice (newBuilder deviceOnly tt)
             = (k, newBuilder deviceOnly tt) /\ k = 1%N /\
             forall j, (j < k)%N -> ~ j = 1%N) \/
  (GetScratchBufferMemoryIndex exampleDevice (newBuilder deviceOnly tt)
   = (0%N,
      logTo (LogE "cannnot get the memory type index for host visible memory to create scratch buffer, fallback to use index 0")
        (newBuilder deviceOnly tt)) /\
   forall j : N, ~ j = 1%N).
Proof.
  apply (GetScratchBufferMemoryIndex_host_visible (Ext := exampleExternals) exampleDevice
           (newBuilder deviceOnly tt)
           (PhysicalDeviceObject.mk 3 1
              (mkMemoryProperties 2 [mkMemoryType 1 0; mkMemoryType 6 0]))
           (fun j => j = 1%N)).
  - vm_compute. reflexivity.
  - intros j. cbn [s newBuilder deviceOnly TransferBufferMemoryRequirements
                   PhysicalDeviceObject.MemoryProperties MemoryTypeCount MemoryTypes].
    rewrite lookup_empty. split.
    + intros ->. split; [reflexivity|]. split; reflexivity.
    + intros (Hj & Hflags & _).
      assert (j = 0%N \/ j = 1%N) as Hcases by lia.
      destruct Hcases as [-> | ->]; [|reflexivity].
      vm_compute in Hflags. discriminate.
Defined.

(** ** Queues *)

Lemma familyListed_spec (queueFamilyIndices : gmap N N) (family : N) :
  familyListed queueFamilyIndices family = true <->
  exists i, queueFamilyIndices !! i = Some family.
Proof.
  unfold familyListed. rewrite existsb_exists. split.
  - intros [[i f] [Hin Hf]]. apply N.eqb_eq in Hf. simpl in Hf. subst f.
    exists i. apply elem_of_map_to_list. by apply list_elem_of_In.
  - intros [i Hi]. exists (i, family). split; [|apply N.eqb_refl].
    apply list_elem_of_In. by apply elem_of_map_to_list.
Qed.

(** The values a [range] over a table visits are the values of the table. *)
Lemma goRange_values {V} (picks : list nat) (m : gmap N V) (v : V) :
  In v (goRange picks (map_to_list m)).*2 <-> exists k, m !! k = Some v.
Proof.
  rewrite <- list_elem_of_In, list_elem_of_fmap. split.
  - intros [[k v'] [-> Hin]]. rewrite goRange_Permutation in Hin.
    exists k. by apply elem_of_map_to_list.
  - intros [k Hk]. exists (k, v). split; [done|].
    rewrite goRange_Permutation. by apply elem_of_map_to_list.
Qed.

(** X5. [getQueueFor] returns the last bound queue when there is one.
    Without one, whatever the iteration orders of the map: it returns nil
    exactly when the table has no queue of the device; a queue it returns is
    a queue of the table on that device; and when family indices are given
    and some queue of the device is of a listed family, the queue returned
    is of a listed family. *)
Theorem getQueueFor_choice (queues : gmap N QueueObject.t) (picks1 picks2 : list nat)
    (device : N) (queueFamilyIndices : option (gmap N N)) :
  (forall q, getQueueFor queues picks1 picks2 (Some q) device queueFamilyIndices = Some q) /\
  (getQueueFor queues picks1 picks2 None device queueFamilyIndices = None <->
   forall k v, queues !! k = Some v -> QueueObject.Device v <> device) /\
  (forall v, getQueueFor queues picks1 picks2 None device queueFamilyIndices = Some v ->
             (exists k, queues !! k = Some v) /\ QueueObject.Device v = device) /\
  (forall indices k v i,
     queueFamilyIndices = Some indices ->
     queues !! k = Some v -> QueueObject.Device v = device ->
     indices !! i = Some (QueueObject.Family v) ->
     exists w j, getQueueFor queues picks1 picks2 None device queueFamilyIndices = Some w /\
                 indices !! j = Some (QueueObject.Family w)).
Proof.
  unfold getQueueFor. split; [done|].
  set (first := match queueFamilyIndices with Some _ => _ | None => _ end).
  assert (forall v, first = Some v ->
                    (exists k, queues !! k = Some v) /\ QueueObject.Device v = device /\
                    exists indices j, queueFamilyIndices = Some indices /\
                                      indices !! j = Some (QueueObject.Family v)) as Hfirst.
  { intros v Hv. unfold first in Hv. destruct queueFamilyIndices as [indices|]; [|done].
    apply find_some in Hv as [Hin Hp]. apply andb_true_iff in Hp as [Hd Hl].
    apply N.eqb_eq in Hd. apply familyListed_spec in Hl as [j Hj].
    apply goRange_values in Hin. eauto 10. }
  split; [|split].
  - destruct first as [v|] eqn:Hf.
    + split; [done|]. intros Hnone. destruct (Hfirst v eq_refl) as ([k Hk] & Hd & _).
      by destruct (Hnone k v Hk).
    + split.
      * intros Hfind k v Hk Hd.
        assert (In v (goRange picks2 (map_to_list queues)).*2) as Hin
          by (apply goRange_values; eauto).
        pose proof (find_none _ _ Hfind v Hin) as Hc. simpl in Hc.
        apply N.eqb_neq in Hc. done.
      * intros Hnone.
        destruct (find _ (goRange picks2 (map_to_list queues)).*2) as [v|] eqn:Hfind;
          [|done].
        apply find_some in Hfind as [[k Hk]%goRange_values Hd%N.eqb_eq].
        by destruct (Hnone k v Hk).
  - intros v Hv. destruct first as [w|] eqn:Hf.
    + injection Hv as ->. destruct (Hfirst v eq_refl) as (? & ? & _). done.
    + apply find_some in Hv as [Hin%goRange_values Hd%N.eqb_eq]. done.
  - intros indices k v i -> Hk Hd Hi.
    destruct first as [w|] eqn:Hf.
    + destruct (Hfirst w eq_refl) as (_ & _ & ind & j & Hind & Hj).
      injection Hind as <-. eauto.
    + exfalso. unfold first in Hf.
      assert (In v (goRange picks1 (map_to_list queues)).*2) as Hin
        by (apply goRange_values; eauto).
      pose proof (find_none _ _ Hf v Hin) as Hv. simpl in Hv.
      rewrite (proj2 (N.eqb_eq _ _) Hd) in Hv.
      rewrite (proj2 (familyListed_spec indices _)) in Hv by eauto.
      discriminate Hv.
Qed.

(** Two queues of device 9, of families 0 and 1, and one of another
    device: with family 1 listed, the queue of family 1 is chosen. *)
Lemma getQueueFor_choice_witness :
  exists w j,
    getQueueFor {[ 15%N := exampleQueue; 16%N := QueueObject.mk 16 9 1 0;
                   17%N := QueueObject.mk 17 8 1 0 ]} [1%nat; 0%nat] [] None 9
      (Some {[ 0%N := 1%N ]}) = Some w /\
    ({[ 0%N := 1%N ]} : gmap N N) !! j = Some (QueueObject.Family w).
Proof.
  apply (proj2 (proj2 (proj2
           (getQueueFor_choice
              {[ 15%N := exampleQueue; 16%N := QueueObject.mk 16 9 1 0;
                 17%N := QueueObject.mk 17 8 1 0 ]} [1%nat; 0%nat] [] 9
              (Some {[ 0%N := 1%N ]}))))
           {[ 0%N := 1%N ]} 16%N (QueueObject.mk 16 9 1 0) 0%N);
    reflexivity.
Defined.

Section QueueProperties.
Context `{Ext : Externals}.

(** X6. [getSparseQueueFor] keeps a last bound queue whose family can bind
    sparse memory. Otherwise it returns either the last bound queue or a
    queue of the table that is on the device, of a family that can bind
    sparse memory and is among the given family indices. It dereferences a
    nil object exactly when there is a last bound queue whose device, or the
    physical device of that device, is not in the snapshot. *)
Theorem getSparseQueueFor_choice (s : State) (queues : gmap N QueueObject.t)
    (queueFlags : N -> N -> N) (picks : list nat)
    (lastBoundQueue : option QueueObject.t) (device : N)
    (queueFamilyIndices : option (gmap N N)) :
  (forall q qdev pd,
     lastBoundQueue = Some q -> Devices s !! QueueObject.Device q = Some qdev ->
     PhysicalDevices s !! DeviceObject.PhysicalDevice qdev = Some pd ->
     N.land (U32.wrap (queueFlags (DeviceObject.PhysicalDevice qdev) (QueueObject.Family q)))
       VK_QUEUE_SPARSE_BINDING_BIT <> 0%N ->
     getSparseQueueFor s queues queueFlags picks lastBoundQueue device queueFamilyIndices
     = Some (Some q)) /\
  (forall r,
     getSparseQueueFor s queues queueFlags picks lastBoundQueue device queueFamilyIndices
     = Some r ->
     r = lastBoundQueue \/
     exists v k dev indices i,
       r = Some v /\ queues !! k = Some v /\ QueueObject.Device v = device /\
       Devices s !! device = Some dev /\
       N.land (U32.wrap (queueFlags (DeviceObject.PhysicalDevice dev) (QueueObject.Family v)))
         VK_QUEUE_SPARSE_BINDING_BIT <> 0%N /\
       queueFamilyIndices = Some indices /\ indices !! i = Some (QueueObject.Family v)) /\
  (getSparseQueueFor s queues queueFlags picks lastBoundQueue device queueFamilyIndices = None
   <-> exists q, lastBoundQueue = Some q /\
                 (Devices s !! QueueObject.Device q = None \/
                  exists qdev, Devices s !! QueueObject.Device q = Some qdev /\
                               PhysicalDevices s !! DeviceObject.PhysicalDevice qdev = None)).
Proof.
  unfold getSparseQueueFor.
  set (rest := match Devices s !! device with Some _ => _ | None => _ end).
  assert (rest = lastBoundQueue \/
          exists v k dev indices i,
            rest = Some v /\ queues !! k = Some v /\ QueueObject.Device v = device /\
            Devices s !! device = Some dev /\
            N.land (U32.wrap (queueFlags (DeviceObject.PhysicalDevice dev)
                                (QueueObject.Family v)))
              VK_QUEUE_SPARSE_BINDING_BIT <> 0%N /\
            queueFamilyIndices = Some indices /\ indices !! i = Some (QueueObject.Family v))
    as Hrest.
  { unfold rest. destruct (Devices s !! device) as [dev|]; [|by left].
    destruct (PhysicalDevices s !! DeviceObject.PhysicalDevice dev); [|by left].
    destruct queueFamilyIndices as [indices|]; [|by left].
    destruct (find _ _) as [v|] eqn:Hfind; [|by left]. right.
    apply find_some in Hfind as [[k Hk]%goRange_values Hp].
    apply andb_true_iff in Hp as [Hp Hl]. apply andb_true_iff in Hp as [Hd Hs].
    apply N.eqb_eq in Hd. apply familyListed_spec in Hl as [i Hi].
    apply negb_true_iff, N.eqb_neq in Hs. eauto 15. }
  clearbody rest. split; [|split].
  - intros q qdev pd -> Hq Hpd Hsparse. rewrite Hq, Hpd.
    by rewrite (proj2 (N.eqb_neq _ _) Hsparse).
  - intros r Hr. destruct lastBoundQueue as [q|].
    + destruct (Devices s !! QueueObject.Device q) as [qdev|]; [|done].
      destruct (PhysicalDevices s !! DeviceObject.PhysicalDevice qdev); [|done].
      destruct (negb _); injection Hr as <-; [by left|done].
    + by injection Hr as <-.
  - split.
    + intros Hnone. destruct lastBoundQueue as [q|]; [|done]. exists q. split; [done|].
      destruct (Devices s !! QueueObject.Device q) as [qdev|]; [|by left].
      right. exists qdev. split; [done|].
      destruct (PhysicalDevices s !! DeviceObject.PhysicalDevice qdev); [|done].
      by destruct (negb _).
    + intros (q & -> & [Hq|(qdev & Hq & Hpd)]); rewrite Hq; [done|]. by rewrite Hpd.
Qed.

End QueueProperties.

(** On the device of [deviceOnly], with queue family 1 able to bind
    sparse memory: the last bound queue, of family 0, is replaced by the
    queue of family 1 when that family is listed. *)
Lemma getSparseQueueFor_choice_witness :
  getSparseQueueFor deviceOnly
    {[ 15%N := exampleQueue; 16%N := QueueObject.mk 16 9 1 0 ]}
    (fun _ family => if (family =? 1)%N then 8%N else 1%N) [] (Some (QueueObject.mk 16 9 1 0))
    9 None
  = Some (Some (QueueObject.mk 16 9 1 0)).
Proof.
  apply (proj1 (getSparseQueueFor_choice (Ext := exampleExternals) deviceOnly
                  {[ 15%N := exampleQueue; 16%N := QueueObject.mk 16 9 1 0 ]}
                  (fun _ family => if (family =? 1)%N then 8%N else 1%N) []
                  (Some (QueueObject.mk 16 9 1 0)) 9 None)
           (QueueObject.mk 16 9 1 0) exampleDevice
           (PhysicalDeviceObject.mk 3 1
              (mkMemoryProperties 2 [mkMemoryType 1 0; mkMemoryType 6 0])));
    [reflexivity|vm_compute; reflexivity|vm_compute; reflexivity|vm_compute; discriminate].
Defined.

(** ** The pipeline resolver, continued *)

(** While nothing is handled, a run of visits over entries that all have a
    base changes nothing. *)
Lemma visits_blocked (entries : list (N * N)) (st : resolver) :
  handledPipelines st = ∅ -> (forall k v, (k, v) ∈ entries -> v <> 0%N) ->
  fold_left visit entries st = st.
Proof.
  intros Hh. induction entries as [|[k v] rest IH]; intros Hv; [done|].
  simpl. rewrite visit_blocked.
  - apply IH. intros k' v' Hin. apply (Hv k' v'). by right.
  - apply (Hv k v). by left.
  - by rewrite Hh, lookup_empty.
Qed.

Lemma resolveLoop_rootless (u : gmap N N) (fuel : nat) (sched : list (list nat)) :
  (forall k, u !! k <> Some 0%N) ->
  resolveLoop (S fuel) sched (mkResolver [] u ∅ 0)
  = Some (goRange (hd [] (tl sched)) (map_to_list u)).*1.
Proof.
  intros Hroot. cbn [resolveLoop unhandledPipelines pipelines].
  case_bool_decide as Hsize.
  - apply map_size_empty_iff in Hsize. subst u. by rewrite map_to_list_empty.
  - unfold pass. rewrite visits_blocked; [done..|].
    intros k v Hin Hv. cbn [unhandledPipelines] in Hin.
    rewrite goRange_Permutation in Hin. apply elem_of_map_to_list in Hin.
    subst v. by apply (Hroot k).
Qed.

(** A run that returns on a table with a pipeline without base has
    resolved every pipeline. *)
Lemma resolveLoop_rooted u0 fuel sched st r l :
  resolverInv u0 st -> u0 !! r = Some 0%N ->
  resolveLoop fuel sched st = Some l ->
  (forall k, is_Some (u0 !! k) -> grounded u0 k) /\
  (forall k v, u0 !! k = Some v -> v <> 0%N -> emittedBefore v k l).
Proof.
  intros Hinv Hr. revert sched st Hinv.
  induction fuel as [|fuel IH]; intros sched st Hinv Hrun; [done|].
  simpl in Hrun. case_bool_decide as Hsize.
  - injection Hrun as <-. apply map_size_empty_iff in Hsize.
    assert (forall k, is_Some (u0 !! k) -> k ∈ pipelines st) as Hall.
    { intros k Hk. destruct (resolverInv_cases u0 st k Hinv Hk) as [?|[w Hw]]; [done|].
      by rewrite Hsize, lookup_empty in Hw. }
    split.
    + intros k Hk. apply (inv_grounded _ _ Hinv). by apply Hall.
    + intros k v Hk Hv. apply (inv_order _ _ Hinv _ _ Hk Hv). apply Hall. eauto.
  - pose proof (pass_inv u0 (hd [] sched) st Hinv) as Hinv1.
    assert (r ∈ pipelines (pass (hd [] sched) st)) as Hin.
    { destruct (resolverInv_cases u0 st r Hinv) as [Hin|[w Hw]]; [eauto| |].
      - by apply pass_monotone.
      - eapply pass_ready; [done..|left].
        apply (inv_sub _ _ Hinv) in Hw. congruence. }
    destruct (Z.eqb_spec (numHandled (pass (hd [] sched) st)) 0) as [Hzero|_].
    { rewrite (inv_count _ _ Hinv1) in Hzero.
      destruct (pipelines (pass (hd [] sched) st)); [by apply elem_of_nil in Hin|done]. }
    by eapply IH.
Qed.

(** When a run from the initial state returns. *)
Lemma resolveLoop_returns_iff (u : gmap N N) (sched : list (list nat)) :
  (exists fuel, is_Some (resolveLoop fuel sched (mkResolver [] u ∅ 0))) <->
  (forall k, is_Some (u !! k) -> grounded u k) \/ (forall k, u !! k <> Some 0%N).
Proof.
  split.
  - intros [fuel [l Hrun]].
    destruct (decide (Exists (fun kv => kv.2 = 0%N) (map_to_list u))) as [Hex|Hnone].
    + left. apply Exists_exists in Hex as [[r v] [Hin Hv]]. simpl in Hv. subst v.
      apply elem_of_map_to_list in Hin.
      by destruct (resolveLoop_rooted u fuel sched _ r l (resolverInv_initial u) Hin Hrun).
    + right. intros k Hk. apply Hnone. apply Exists_exists. exists (k, 0%N).
      split; [|done]. by apply elem_of_map_to_list.
  - intros [Hall|Hroot].
    + destruct (resolveLoop_grounded u (S (size u)) sched (mkResolver [] u ∅ 0))
        as [l [Hl _]]; [apply resolverInv_initial|done|simpl; lia|].
      exists (S (size u)). rewrite Hl. eauto.
    + exists 1%nat. rewrite resolveLoop_rootless by done. eauto.
Qed.

Section ResolverProperties.
Context `{Ext : Externals}.

(** X7. When no pipeline of the table is without base, the resolver
    returns in the first iteration of its outer loop: the first pass
    resolves nothing, and the result is the table's pipelines in the order
    of the map iteration that follows, no base being honoured. *)
Theorem GetPipelinesInOrder_without_root (s : State) (compute : bool)
    (sched : list (list nat)) (fuel : nat) :
  (forall k, baseTable s compute !! k <> Some 0%N) ->
  GetPipelinesInOrder sched (S fuel) s compute
  = Some (goRange (hd [] (tl sched)) (map_to_list (baseTable s compute))).*1.
Proof. intros Hroot. unfold GetPipelinesInOrder. by apply resolveLoop_rootless. Qed.

(** X8. When the table has a pipeline without base and the resolver
    returns, every pipeline of the table is grounded (its chain of bases
    ends, inside the table, at a pipeline without base) and every pipeline
    with a base comes after that base in the returned order. *)
Theorem GetPipelinesInOrder_returned_order (s : State) (compute : bool)
    (sched : list (list nat)) (fuel : nat) (r : N) (l : list N) :
  baseTable s compute !! r = Some 0%N ->
  GetPipelinesInOrder sched fuel s compute = Some l ->
  (forall k, is_Some (baseTable s compute !! k) -> grounded (baseTable s compute) k) /\
  (forall k v, baseTable s compute !! k = Some v -> v <> 0%N -> emittedBefore v k l).
Proof.
  intros Hr Hrun. unfold GetPipelinesInOrder in Hrun.
  eapply resolveLoop_rooted; [apply resolverInv_initial|done..].
Qed.

(** X9. The resolver returns, for some bound on the iterations of its
    outer loop, exactly when every pipeline of the table is grounded or no
    pipeline of the table is without base; this does not depend on the map
    iteration orders. *)
Theorem GetPipelinesInOrder_returns_iff (s : State) (compute : bool)
    (sched : list (list nat)) :
  (exists fuel, is_Some (GetPipelinesInOrder sched fuel s compute)) <->
  (forall k, is_Some (baseTable s compute !! k) -> grounded (baseTable s compute) k) \/
  (forall k, baseTable s compute !! k <> Some 0%N).
Proof. unfold GetPipelinesInOrder. apply resolveLoop_returns_iff. Qed.

End ResolverProperties.

Lemma cycle_without_root k :
  baseTable (computeOnly [(7, 8); (8, 7)]%N) true !! k <> Some 0%N.
Proof.
  assert (baseTable (computeOnly [(7, 8); (8, 7)]%N) true
          = {[ 7%N := 8%N; 8%N := 7%N ]}) as -> by (vm_compute; reflexivity).
  destruct (decide (k = 7%N)) as [->|]; [done|].
  destruct (decide (k = 8%N)) as [->|]; [done|].
  by simplify_map_eq.
Qed.

Lemma GetPipelinesInOrder_without_root_witness :
  GetPipelinesInOrder [[]; [1%nat]] 1 (computeOnly [(7, 8); (8, 7)]%N) true
  = Some (goRange [1%nat]
            (map_to_list (baseTable (computeOnly [(7, 8); (8, 7)]%N) true))).*1.
Proof.
  apply (GetPipelinesInOrder_without_root (computeOnly [(7, 8); (8, 7)]%N) true
           [[]; [1%nat]] 0 cycle_without_root).
Defined.

Lemma GetPipelinesInOrder_returns_iff_witness :
  exists fuel, is_Some (GetPipelinesInOrder [] fuel (computeOnly [(7, 8); (8, 7)]%N) true).
Proof.
  apply (proj2 (GetPipelinesInOrder_returns_iff (computeOnly [(7, 8); (8, 7)]%N) true [])).
  right. exact cycle_without_root.
Defined.

Lemma GetPipelinesInOrder_returned_order_witness :
  (forall k, is_Some (baseTable (computeOnly [(1, 0); (2, 1); (3, 2)]%N) true !! k) ->
             grounded (baseTable (computeOnly [(1, 0); (2, 1); (3, 2)]%N) true) k) /\
  (forall k v, baseTable (computeOnly [(1, 0); (2, 1); (3, 2)]%N) true !! k = Some v ->
               v <> 0%N -> emittedBefore v k [1; 2; 3]%N).
Proof.
  apply (GetPipelinesInOrder_returned_order (computeOnly [(1, 0); (2, 1); (3, 2)]%N) true
           [] 4 1%N [1; 2; 3]%N); vm_compute; reflexivity.
Defined.

(** ** [IsFullyBound], continued *)

Lemma firstBeyond_index (keys : list N) (i0 : Z) (bound : N) :
  (exists k, k ∈ keys /\ (bound < k)%N) ->
  exists j, firstBeyond keys i0 bound = (i0 + Z.of_nat j)%Z /\ (j < length keys)%nat /\
            (bound < nth j keys 0)%N /\
            forall idx, (idx < j)%nat -> (nth idx keys 0 <= bound)%N.
Proof.
  revert i0. induction keys as [|k rest IH]; intros i0 [k' [Hin Hk']].
  { by apply elem_of_nil in Hin. }
  simpl. destruct (N.ltb_spec bound k) as [Hlt|Hge].
  - exists 0%nat. split; [lia|]. split; [simpl; lia|]. split; [done|]. intros idx Hidx. lia.
  - apply elem_of_cons in Hin as [->|Hin]; [lia|].
    destruct (IH (i0 + 1)%Z) as (j & Hj & Hlen & Hbeyond & Hbefore); [eauto|].
    exists (S j). split; [lia|]. split; [simpl; lia|]. split; [done|].
    intros [|idx] Hidx; [done|]. apply Hbefore. lia.
Qed.

Lemma StronglySorted_nth_lt (l : list N) (i j : nat) :
  StronglySorted N.le l -> NoDup l -> (i < j < length l)%nat ->
  (nth i l 0 < nth j l 0)%N.
Proof.
  intros Hs. revert i j. induction Hs as [|x l Hs IH Hall]; intros i j Hnd Hij.
  { simpl in Hij. lia. }
  apply NoDup_cons in Hnd as [Hx Hnd]. destruct j as [|j]; [lia|].
  destruct i as [|i].
  - simpl. assert (nth j l 0%N ∈ l) as Hin.
    { apply list_elem_of_In, nth_In. simpl in Hij. lia. }
    rewrite List.Forall_forall in Hall. pose proof (Hall _ (proj1 (list_elem_of_In _ _) Hin)).
    assert (x <> nth j l 0%N) by (intros ->; done). lia.
  - simpl. apply IH; [done|]. simpl in Hij. lia.
Qed.

Lemma Keys_nth_lt {V} (m : gmap N V) (i j : nat) :
  (i < j < length (Keys m))%nat -> (nth i (Keys m) 0 < nth j (Keys m) 0)%N.
Proof.
  apply StronglySorted_nth_lt; [|apply NoDup_Keys].
  apply Sorted_StronglySorted; [|apply Sorted_Keys].
  intros x y z. apply N.le_trans.
Qed.

Section Coverage.
Variables (bindings : gmap N VkSparseMemoryBind) (offset size : N).

Hypothesis fits : (offset + size < 2 ^ 64)%N.
Hypothesis spans_fit :
  forall k bind, bindings !! k = Some bind -> (k + Size bind < 2 ^ 64)%N.
Hypothesis disjoint :
  forall k k' bind, bindings !! k = Some bind -> is_Some (bindings !! k') ->
                    (k < k')%N -> (k + Size bind <= k')%N.
Hypothesis all_covered :
  forall b, (offset <= b < offset + size)%N -> covered bindings b.

(** The binding at an index of the key list, and the index of a binding. *)
Lemma key_at (i : nat) :
  (i < length (Keys bindings))%nat ->
  exists bind, bindings !! nth i (Keys bindings) 0%N = Some bind /\
               U64.add (nth i (Keys bindings) 0%N)
                 (Size (SparseMap.Get bindings (nth i (Keys bindings) 0%N)))
               = (nth i (Keys bindings) 0 + Size bind)%N.
Proof.
  intros Hi.
  destruct (nth_key_bound (Keys bindings) bindings i) as [bind [Hb Hget]]; [|done|].
  { intros k. apply elem_of_Keys. }
  exists bind. split; [done|]. rewrite Hget. unfold U64.add.
  apply wrap_small. by apply spans_fit.
Qed.

Lemma index_of (k : N) :
  is_Some (bindings !! k) ->
  exists idx, (idx < length (Keys bindings))%nat /\ nth idx (Keys bindings) 0%N = k.
Proof.
  intros Hk. apply elem_of_Keys, list_elem_of_In in Hk. by apply In_nth.
Qed.

(** Below a bound that no later binding starts before, a covered byte is
    covered by the binding at the index, or by an earlier one. *)
Lemma covered_at (i : nat) (b end_ : N) :
  (i < length (Keys bindings))%nat -> (offset <= b < offset + size)%N -> (b < end_)%N ->
  (forall idx, (i < idx < length (Keys bindings))%nat ->
               (end_ <= nth idx (Keys bindings) 0)%N) ->
  (nth i (Keys bindings) 0 <= b)%N ->
  exists bind, bindings !! nth i (Keys bindings) 0%N = Some bind /\
               (b < nth i (Keys bindings) 0 + Size bind)%N.
Proof.
  intros Hi Hb Hend Hlater Hstart.
  destruct (all_covered b Hb) as (k & bind & Hk & Hin).
  destruct (index_of k) as (idx & Hidx & Hnth); [eauto|].
  destruct (lt_eq_lt_dec idx i) as [[Hlt | ->] | Hgt].
  - exfalso. pose proof (Keys_nth_lt bindings idx i) as Hord. rewrite Hnth in Hord.
    destruct (key_at i Hi) as (bind' & Hb' & _).
    pose proof (disjoint k (nth i (Keys bindings) 0%N) bind Hk) as Hdis.
    assert (k + Size bind <= nth i (Keys bindings) 0)%N by (apply Hdis; [eauto|lia]).
    lia.
  - rewrite Hnth. exists bind. split; [done|lia].
  - exfalso. pose proof (Hlater idx) as Hl. rewrite Hnth in Hl. lia.
Qed.

(** The backward walk never meets a gap. *)
Lemma walkBack_complete (i : nat) (end_ : N) :
  (i < length (Keys bindings))%nat -> (end_ <= offset + size)%N ->
  (forall idx, (i < idx < length (Keys bindings))%nat ->
               (end_ <= nth idx (Keys bindings) 0)%N) ->
  (nth i (Keys bindings) 0 <= end_)%N ->
  exists i' end',
    walkBack (Keys bindings) bindings offset i end_ = Some (i', end') /\
    ((end' <= offset)%N \/
     (i' = 0%nat /\ (offset < end' <= offset + size)%N /\
      (forall idx, (0 < idx < length (Keys bindings))%nat ->
                   (end' <= nth idx (Keys bindings) 0)%N) /\
      (nth 0 (Keys bindings) 0 <= end')%N)).
Proof.
  revert end_. induction i as [|i IH]; intros end_ Hi Hend Hlater Hstart.
  - exists 0%nat, end_. split; [done|].
    destruct (N.le_gt_cases end_ offset); [by left|right]. repeat split; try done; lia.
  - cbn [walkBack]. destruct (N.ltb_spec offset end_) as [Hlt|Hge].
    2:{ exists (S i), end_. split; [done|by left]. }
    set (r := nth (S i) (Keys bindings) 0%N) in *.
    destruct (key_at (S i) Hi) as (bind & Hbind & Hadd). fold r in Hbind, Hadd.
    rewrite Hadd.
    assert (end_ <= r + Size bind)%N as Hspan.
    { destruct (N.eq_dec r end_) as [<-|Hne]; [lia|].
      destruct (covered_at (S i) (end_ - 1) end_) as (bind' & Hb' & Hcov);
        [done|lia|lia|done|fold r; lia|].
      fold r in Hb', Hcov. assert (bind' = bind) as -> by congruence. lia. }
    destruct (N.leb_spec end_ (r + Size bind)) as [_|?]; [|lia].
    apply IH; [lia|lia| |].
    + intros idx Hidx. destruct (decide (idx = S i)) as [->|]; [done|].
      pose proof (Keys_nth_lt bindings (S i) idx). fold r in H. lia.
    + pose proof (Keys_nth_lt bindings i (S i)). fold r in H. lia.
Qed.

(** X10. [IsFullyBound] answers true for a range of at least one byte
    whose end fits 64 bits, when every byte of the range lies in the span of
    a binding, the spans neither overlap nor run past [2^64], and some
    binding starts strictly beyond the end of the range. *)
Theorem IsFullyBound_complete :
  (0 < size)%N ->
  (exists k, is_Some (bindings !! k) /\ (offset + size < k)%N) ->
  IsFullyBound offset size bindings = true.
Proof.
  intros Hsize [kb [Hkb Hbeyond]]. unfold IsFullyBound.
  assert (U64.add offset size = offset + size)%N as -> by (by apply wrap_small).
  destruct (firstBeyond_index (Keys bindings) 0 (offset + size))
    as (j & -> & Hj & Hjbeyond & Hjbefore).
  { exists kb. split; [by apply elem_of_Keys|done]. }
  destruct (all_covered offset) as (k0 & bind0 & Hk0 & Hin0); [lia|].
  destruct (index_of k0) as (idx0 & Hidx0 & Hnth0); [eauto|].
  assert (j <> 0%nat) as Hj0.
  { intros ->. destruct idx0 as [|idx0]; [lia|].
    pose proof (Keys_nth_lt bindings 0 (S idx0)). lia. }
  destruct (Z.eqb_spec (0 + Z.of_nat j) (-1)) as [?|_]; [lia|].
  destruct (Z.eqb_spec (0 + Z.of_nat j) 0) as [?|_]; [lia|]. cbn [orb].
  replace (Z.to_nat (0 + Z.of_nat j - 1)) with (j - 1)%nat by lia.
  destruct (walkBack_complete (j - 1) (offset + size))
    as (i' & end' & -> & Hend); [lia|lia| |apply Hjbefore; lia|].
  { intros idx Hidx. destruct (decide (idx = j)) as [->|]; [lia|].
    pose proof (Keys_nth_lt bindings j idx). lia. }
  destruct Hend as [Hdone | (-> & Hrange & Hlater & Hstart)].
  { destruct (N.leb_spec end' offset); [done|lia]. }
  destruct (N.leb_spec end' offset) as [|_]; [done|]. cbn [Nat.eqb].
  assert (0 < length (Keys bindings))%nat as Hlen by lia.
  destruct (key_at 0 Hlen) as (bind & Hbind & ->).
  assert (idx0 = 0%nat) as ->.
  { destruct idx0 as [|idx0]; [done|]. pose proof (Hlater (S idx0)). lia. }
  destruct (covered_at 0 (end' - 1) end') as (bind' & Hb' & Hcov); [done|lia|lia|done| |].
  { rewrite Hnth0. lia. }
  assert (bind' = bind) as -> by congruence.
  apply andb_true_iff. split; apply N.leb_le; [rewrite Hnth0; lia|lia].
Qed.

End Coverage.

(** Bindings [0,10), [10,20) and one at 30: the range [0,20) is bound. *)
Lemma IsFullyBound_complete_witness :
  IsFullyBound 0 20 (spans [(0, 10); (10, 10); (30, 1)]%N) = true.
Proof.
  assert (spans [(0, 10); (10, 10); (30, 1)]%N
          = {[ 0%N := mkBind 0 10 0 0 0; 10%N := mkBind 10 10 0 0 0;
               30%N := mkBind 30 1 0 0 0 ]}) as Hmap by (vm_compute; reflexivity).
  assert (forall k bind,
            spans [(0, 10); (10, 10); (30, 1)]%N !! k = Some bind ->
            (k = 0 /\ Size bind = 10 \/ k = 10 /\ Size bind = 10 \/
             k = 30 /\ Size bind = 1)%N) as Hcases.
  { rewrite Hmap. intros k bind Hk.
    destruct (decide (k = 0%N)) as [->|]; [left; by simplify_map_eq|].
    destruct (decide (k = 10%N)) as [->|]; [right; left; by simplify_map_eq|].
    destruct (decide (k = 30%N)) as [->|]; [right; right; by simplify_map_eq|].
    by simplify_map_eq. }
  apply (IsFullyBound_complete (spans [(0, 10); (10, 10); (30, 1)]%N) 0 20).
  - reflexivity.
  - intros k bind Hk. destruct (Hcases k bind Hk) as [[-> ->] | [[-> ->] | [-> ->]]]; reflexivity.
  - intros k k' bind Hk [bind' Hk'] Hlt.
    destruct (Hcases k bind Hk) as [[-> ->] | [[-> ->] | [-> ->]]];
      destruct (Hcases k' bind' Hk') as [[-> _] | [[-> _] | [-> _]]]; lia.
  - intros b Hb. destruct (N.lt_ge_cases b 10).
    + exists 0%N, (mkBind 0 10 0 0 0). split; [by rewrite Hmap|simpl; lia].
    + exists 10%N, (mkBind 10 10 0 0 0). split; [by rewrite Hmap|simpl; lia].
  - reflexivity.
  - exists 30%N. split; [rewrite Hmap; eauto|reflexivity].
Defined.

(** ** The ledger of allocations *)

Section Ledger.
Context `{Ext : Externals}.

Lemma ledgerOk_register (held : list nat) (sb sb' : stateBuilder) :
  freed (allocator (newState sb')) = freed (allocator (newState sb)) ->
  allocatedCount sb' = S (allocatedCount sb) ->
  pending sb' ≡ₚ allocatedCount sb :: pending sb ->
  ledgerOk held sb -> ledgerOk held sb'.
Proof.
  unfold ledgerOk. intros -> -> -> Hok. rewrite seq_S. simpl.
  rewrite <- Hok. rewrite <- Permutation_middle.
  by rewrite Permutation_cons_append.
Qed.

Lemma ledger_alloc_read (v : Value) (sb : stateBuilder) (held : list nat) :
  ledgerOk held sb -> ledgerOk held (MustAllocReadData v sb).2.
Proof. apply ledgerOk_register; try done. apply (runOp_registered (OpAllocRead v) sb eq_refl). Qed.

Lemma ledger_alloc_write (v : Value) (sb : stateBuilder) (held : list nat) :
  ledgerOk held sb -> ledgerOk held (MustAllocWriteData v sb).2.
Proof. apply ledgerOk_register; try done. apply (runOp_registered (OpAllocWrite v) sb eq_refl). Qed.

Lemma ledger_unpack_read (m : gmap N Value) (sb : stateBuilder) (held : list nat) :
  ledgerOk held sb -> ledgerOk held (MustUnpackReadMap m sb).2.
Proof. apply ledgerOk_register; try done. apply (runOp_registered (OpUnpackRead m) sb eq_refl). Qed.

Lemma ledger_write (cmd : Cmd) (sb : stateBuilder) (held : list nat) :
  ledgerOk held sb ->
  ledgerOk held (write cmd sb) /\ readMemories (write cmd sb) = [] /\
  writeMemories (write cmd sb) = [].
Proof.
  intros Hok. rewrite write_spec. split; [|done]. unfold ledgerOk, pending, allocatedCount.
  simpl. rewrite <- Hok. unfold pending. by rewrite <- app_assoc.
Qed.

(** A direct allocation is held by the routine that made it. *)
Lemma ledger_direct (v : Value) (sb : stateBuilder) (held : list nat) :
  ledgerOk held sb ->
  ledgerOk (held ++ [allocId (AllocDataOrPanic (newState sb) v).1])
    (withNewState (AllocDataOrPanic (newState sb) v).2 sb) /\
  readMemories (withNewState (AllocDataOrPanic (newState sb) v).2 sb) = readMemories sb /\
  writeMemories (withNewState (AllocDataOrPanic (newState sb) v).2 sb) = writeMemories sb.
Proof.
  intros Hok. split; [|done]. unfold ledgerOk, pending, allocatedCount in *.
  cbn [withNewState newState allocator allocated freed AllocDataOrPanic fst snd
       readMemories writeMemories allocId].
  rewrite seq_S, Nat.add_0_l, <- Hok. by rewrite !app_assoc.
Qed.

Lemma ledger_free (r : AllocResult) (sb : stateBuilder) (held : list nat) :
  ledgerOk (allocId r :: held) sb ->
  ledgerOk held (withNewState (Free r (newState sb)) sb) /\
  readMemories (withNewState (Free r (newState sb)) sb) = readMemories sb /\
  writeMemories (withNewState (Free r (newState sb)) sb) = writeMemories sb.
Proof.
  intros Hok. split; [|done]. unfold ledgerOk, pending, allocatedCount in *. simpl.
  rewrite <- Hok. rewrite <- app_assoc. apply Permutation_app_head.
  simpl. apply Permutation_middle.
Qed.

Lemma ledger_scratch_index (device : DeviceObject.t) (sb : stateBuilder) (held : list nat) :
  ledgerOk held sb -> ledgerOk held (GetScratchBufferMemoryIndex device sb).2.
Proof.
  unfold GetScratchBufferMemoryIndex. by destruct (0 <=? memoryTypeIndexFor _ _ _)%Z.
Qed.

Lemma settled_ledger (sb : stateBuilder) : settled sb -> ledgerOk [] sb.
Proof.
  intros (Hr & Hw & Hf). unfold ledgerOk, pending. rewrite Hr, Hw. simpl.
  by rewrite app_nil_r.
Qed.

Lemma ledger_settled (sb : stateBuilder) :
  ledgerOk [] sb -> readMemories sb = [] -> writeMemories sb = [] -> settled sb.
Proof.
  intros Hok Hr Hw. split; [done|]. split; [done|].
  unfold ledgerOk, pending in Hok. rewrite Hr, Hw in Hok. simpl in Hok.
  by rewrite app_nil_r in Hok.
Qed.

(** What a settled ledger says of each allocation. *)
Lemma settled_freed_once (sb : stateBuilder) (i : nat) :
  settled sb ->
  freedTimes i sb = if bool_decide (i < allocatedCount sb)%nat then 1%nat else 0%nat.
Proof.
  intros (_ & _ & Hf). unfold freedTimes, timesFreed.
  assert (NoDup (freed (allocator (newState sb)))) as Hnd by (rewrite Hf; apply NoDup_seq).
  case_bool_decide as Hi.
  - apply count_once; [done|]. rewrite Hf. apply elem_of_seq. lia.
  - apply count_absent. rewrite Hf. intros Hin%elem_of_seq. lia.
Qed.

End Ledger.

(** One step through a routine of the builder, the ledger carried along. *)
Ltac ledger_step :=
  match goal with
  | H : ledgerOk ?h ?b |- context [MustAllocReadData ?v ?b] =>
      apply (ledger_alloc_read v b h) in H;
      destruct (MustAllocReadData v b) as [? ?]; cbn [fst snd] in H
  | H : ledgerOk ?h ?b |- context [MustAllocWriteData ?v ?b] =>
      apply (ledger_alloc_write v b h) in H;
      destruct (MustAllocWriteData v b) as [? ?]; cbn [fst snd] in H
  | H : ledgerOk ?h ?b |- context [MustUnpackReadMap ?v ?b] =>
      apply (ledger_unpack_read v b h) in H;
      destruct (MustUnpackReadMap v b) as [? ?]; cbn [fst snd] in H
  | H : ledgerOk ?h ?b |- context [GetScratchBufferMemoryIndex ?d ?b] =>
      apply (ledger_scratch_index d b h) in H;
      destruct (GetScratchBufferMemoryIndex d b) as [? ?]; cbn [fst snd] in H
  | H : ledgerOk ?h ?b |- context [write ?c ?b] =>
      let Hr := fresh "Hreads" in
      let Hw := fresh "Hwrites" in
      apply (ledger_write c b h) in H; destruct H as (H & Hr & Hw);
      generalize dependent (write c b); intros
  end; cbv beta iota.

Section LedgerOfRoutines.
Context `{Ext : Externals}.

Lemma scratchCreateAndBind_ledger (device : DeviceObject.t) (data usages : list N)
    (sb : stateBuilder) :
  ledgerOk [] sb ->
  ledgerOk [] (scratchCreateAndBind device data usages sb).2 /\
  readMemories (scratchCreateAndBind device data usages sb).2 = [] /\
  writeMemories (scratchCreateAndBind device data usages sb).2 = [].
Proof.
  intros Hok. unfold scratchCreateAndBind. cbv zeta.
  do 8 ledger_step. done.
Qed.

Lemma scratchMap_ledger (device : DeviceObject.t) (deviceMemory size : N) (data : list N)
    (sb : stateBuilder) :
  ledgerOk [] sb -> readMemories sb = [] -> writeMemories sb = [] ->
  ledgerOk [allocId (scratchMap device deviceMemory size data sb).1.1;
            allocId (scratchMap device deviceMemory size data sb).1.2]
    (scratchMap device deviceMemory size data sb).2 /\
  readMemories (scratchMap device deviceMemory size data sb).2 = [] /\
  writeMemories (scratchMap device deviceMemory size data sb).2 = [].
Proof.
  intros Hok Hr Hw. unfold scratchMap.
  destruct (ledger_direct (VBytes data) sb [] Hok) as (Hok1 & _).
  destruct (AllocDataOrPanic (newState sb) (VBytes data)) as [dat g] eqn:Hdat.
  cbn [fst snd] in Hok1. set (sb1 := withNewState g sb) in *.
  destruct (ledger_direct (Ptr dat) sb1 _ Hok1) as (Hok2 & _).
  change (newState sb1) with g in Hok2.
  destruct (AllocDataOrPanic g (Ptr dat)) as [atdata g'] eqn:Hat.
  cbn [fst snd app] in Hok2.
  change (withNewState g' sb1) with (withNewState g' sb) in Hok2.
  set (sb2 := withNewState g' sb) in *. clearbody sb2. cbv zeta.
  ledger_step. done.
Qed.

Lemma scratchFlushAndUnmap_ledger (device : DeviceObject.t) (deviceMemory size : N)
    (dat atdata : AllocResult) (sb : stateBuilder) :
  ledgerOk [allocId dat; allocId atdata] sb ->
  settled (scratchFlushAndUnmap device deviceMemory size dat atdata sb).
Proof.
  intros Hok. unfold scratchFlushAndUnmap. cbv zeta. do 3 ledger_step.
  match goal with
  | H : ledgerOk _ ?b |- _ =>
      destruct (ledger_free dat b _ H) as (Hok1 & Hr1 & Hw1)
  end.
  match goal with
  | H : ledgerOk [allocId atdata] ?b |- _ =>
      destruct (ledger_free atdata b _ H) as (Hok2 & Hr2 & Hw2)
  end.
  apply ledger_settled; [exact Hok2|..]; cbn [withNewState readMemories writeMemories];
    done.
Qed.

Lemma allocAndFillScratchBuffer_settled (device : DeviceObject.t) (data usages : list N)
    (sb : stateBuilder) :
  settled sb -> settled (allocAndFillScratchBuffer device data usages sb).2.
Proof.
  intros Hs%settled_ledger. unfold allocAndFillScratchBuffer.
  destruct (scratchCreateAndBind_ledger device data usages sb Hs) as (Hok1 & Hr1 & Hw1).
  destruct (scratchCreateAndBind device data usages sb) as [[[buffer deviceMemory] size] sb1].
  cbn [fst snd] in *.
  destruct (scratchMap_ledger device deviceMemory size data sb1 Hok1 Hr1 Hw1)
    as (Hok2 & _).
  destruct (scratchMap device deviceMemory size data sb1) as [[dat atdata] sb2].
  cbn [fst snd] in *. by apply scratchFlushAndUnmap_ledger.
Qed.

Lemma createShaderModule_settled (sm : ShaderModuleObject.t) (sb : stateBuilder) :
  settled sb -> settled (createShaderModule sm sb).
Proof.
  intros Hs%settled_ledger. unfold createShaderModule. cbv zeta.
  do 4 ledger_step. by apply ledger_settled.
Qed.

Lemma createDeviceMemory_settled (mem : DeviceMemoryObject.t) (allow : bool)
    (sb : stateBuilder) :
  settled sb -> settled (createDeviceMemory mem allow sb).
Proof.
  intros Hs. unfold createDeviceMemory.
  destruct (negb allow && _); [done|]. apply settled_ledger in Hs.
  destruct (DeviceMemoryObject.DedicatedAllocationNV mem) as [d|].
  - do 4 ledger_step. destruct (negb _).
    + do 2 ledger_step. by apply ledger_settled.
    + by apply ledger_settled.
  - do 3 ledger_step. destruct (negb _).
    + do 2 ledger_step. by apply ledger_settled.
    + by apply ledger_settled.
Qed.

Lemma createComputePipeline_settled (cp : ComputePipelineObject.t) (sb : stateBuilder) :
  settled sb -> settled (createComputePipeline cp sb).
Proof.
  intros Hs. unfold createComputePipeline. cbv zeta.
  generalize (if negb (ComputePipelineObject.BasePipeline cp =? 0)%N
                 && hasComputePipeline (api (newState sb))
                      (ComputePipelineObject.BasePipeline cp)
              then ComputePipelineObject.BasePipeline cp else 0%N).
  intros basePipeline.
  destruct (negb (hasShaderModule _ _)).
  - pose proof (createShaderModule_settled (Module_ (ComputePipelineObject.Stage cp)) sb Hs)
      as Hs1%settled_ledger.
    generalize dependent (createShaderModule (Module_ (ComputePipelineObject.Stage cp)) sb).
    intros sb1 Hs1.
    destruct (Specialization (ComputePipelineObject.Stage cp)) as [spec|].
    + do 8 ledger_step. by apply ledger_settled.
    + do 5 ledger_step. by apply ledger_settled.
  - apply settled_ledger in Hs.
    destruct (Specialization (ComputePipelineObject.Stage cp)) as [spec|].
    + do 7 ledger_step. by apply ledger_settled.
    + do 4 ledger_step. by apply ledger_settled.
Qed.

Lemma createQueue_settled (q : QueueObject.t) (sb : stateBuilder) :
  settled sb -> settled (createQueue q sb).
Proof.
  intros Hs%settled_ledger. unfold createQueue. do 2 ledger_step. by apply ledger_settled.
Qed.

Lemma getCommandBuffer_settled (queue : QueueObject.t) (sb : stateBuilder) :
  settled sb -> settled (getCommandBuffer queue sb).2.
Proof.
  intros Hs%settled_ledger. unfold getCommandBuffer. cbv zeta.
  do 8 ledger_step. by apply ledger_settled.
Qed.

Lemma endSubmitAndDestroyCommandBuffer_settled (queue : QueueObject.t)
    (commandBuffer commandPool : N) (sb : stateBuilder) :
  settled sb -> settled (endSubmitAndDestroyCommandBuffer queue commandBuffer commandPool sb).
Proof.
  intros Hs%settled_ledger. unfold endSubmitAndDestroyCommandBuffer. cbv zeta.
  do 6 ledger_step. by apply ledger_settled.
Qed.

Lemma freeScratchBuffer_settled (device : DeviceObject.t) (buffer mem : N)
    (sb : stateBuilder) :
  settled sb -> settled (freeScratchBuffer device buffer mem sb).
Proof.
  intros Hs%settled_ledger. unfold freeScratchBuffer. cbv zeta.
  do 2 ledger_step. by apply ledger_settled.
Qed.

End LedgerOfRoutines.

(** ** The commands the routines emit *)

Section Emitted.
Context `{Ext : Externals}.

Lemma observed_writes (cmd : Cmd) (sb : stateBuilder) :
  cmdWrites (observed cmd sb) = cmdWrites cmd ++ map Data (writeMemories sb).
Proof.
  unfold observed.
  assert (forall l c, cmdWrites (fold_left (fun c r => AddRead c (Data r)) l c) = cmdWrites c)
    as Hr.
  { induction l as [|r l IH]; intros c; [done|]. simpl. by rewrite IH. }
  rewrite <- (Hr (readMemories sb) cmd).
  generalize (fold_left (fun c r => AddRead c (Data r)) (readMemories sb) cmd) as c.
  generalize (writeMemories sb) as l.
  induction l as [|w l IH]; intros c; simpl; [by rewrite app_nil_r|].
  rewrite IH. simpl. by rewrite <- app_assoc.
Qed.

(** The command [write] appends, field by field. *)
Lemma observed_fields (cmd : Cmd) (sb : stateBuilder) :
  observed cmd sb =
  mkCmd (cmdName cmd) (cmdArgs cmd) (cmdReads cmd ++ map Data (readMemories sb))
    (cmdWrites cmd ++ map Data (writeMemories sb)).
Proof.
  rewrite <- observed_reads, <- observed_writes.
  destruct (observed_call cmd sb) as [<- <-]. by destruct (observed cmd sb).
Qed.

(** X11. [write] appends exactly one command: the call it is given, with
    the data of the pending read allocations added to its read observations
    and the data of the pending write allocations added to its write
    observations, each in the order the allocations were made. *)
Theorem write_attaches_pending_observations (cmd : Cmd) (sb : stateBuilder) :
  cmds (write cmd sb) =
  cmds sb ++
  [mkCmd (cmdName cmd) (cmdArgs cmd) (cmdReads cmd ++ map Data (readMemories sb))
     (cmdWrites cmd ++ map Data (writeMemories sb))].
Proof. by rewrite (proj1 (write_fields cmd sb)), observed_fields. Qed.

End Emitted.

Ltac builder_facts :=
  repeat match goal with
         | H : _ /\ _ |- _ => destruct H
         end.

(** The commands of the last builder, each spelled out by its fields. *)
Ltac builder_emitted :=
  builder_cmds; rewrite ?observed_fields;
  repeat match goal with
         | H : readMemories ?x = _ |- context [readMemories ?x] => rewrite H
         | H : writeMemories ?x = _ |- context [writeMemories ?x] => rewrite H
         end;
  cbn [app map cmdName cmdArgs cmdReads cmdWrites call AddRead AddWrite].

Section LedgerTheorems.
Context `{Ext : Externals}.

(** X12. For a device whose physical device is in the snapshot: from a
    settled ledger, [allocAndFillScratchBuffer] returns with the ledger
    settled again: nothing is pending, and every allocation made so far, the
    payload and the pointer cell that it allocates outside the pending lists
    included, has been freed exactly once. Destroying the scratch buffer with
    [freeScratchBuffer] keeps it so. *)
Theorem allocAndFillScratchBuffer_frees_what_it_allocates (device : DeviceObject.t)
    (data usages : list N) (sb : stateBuilder) (physicalDevice : PhysicalDeviceObject.t) :
  PhysicalDevices (s sb) !! DeviceObject.PhysicalDevice device = Some physicalDevice ->
  settled sb ->
  settled (allocAndFillScratchBuffer device data usages sb).2 /\
  (forall i, (i < allocatedCount (allocAndFillScratchBuffer device data usages sb).2)%nat ->
             freedTimes i (allocAndFillScratchBuffer device data usages sb).2 = 1%nat) /\
  settled (freeScratchBuffer device
             (allocAndFillScratchBuffer device data usages sb).1.1
             (allocAndFillScratchBuffer device data usages sb).1.2
             (allocAndFillScratchBuffer device data usages sb).2).
Proof.
  intros _ Hs.
  pose proof (allocAndFillScratchBuffer_settled device data usages sb Hs) as Hs1.
  split; [done|]. split; [|by apply freeScratchBuffer_settled].
  intros i Hi. rewrite settled_freed_once by done. by rewrite bool_decide_eq_true_2.
Qed.

(** X13. The creation routines [createDeviceMemory], [createShaderModule],
    [createComputePipeline] and [createQueue], and the two halves of the
    one-shot command buffer helper, each return with the ledger settled when
    they are entered with it settled: whatever they allocate they free
    exactly once, on every path. *)
Theorem creation_routines_keep_ledger_settled (sb : stateBuilder) :
  settled sb ->
  (forall mem allowDedicatedNV, settled (createDeviceMemory mem allowDedicatedNV sb)) /\
  (forall sm, settled (createShaderModule sm sb)) /\
  (forall cp, settled (createComputePipeline cp sb)) /\
  (forall q, settled (createQueue q sb)) /\
  (forall queue, settled (getCommandBuffer queue sb).2) /\
  (forall queue commandBuffer commandPool,
     settled (endSubmitAndDestroyCommandBuffer queue commandBuffer commandPool sb)).
Proof.
  intros Hs. split; [|split; [|split; [|split; [|split]]]].
  - intros. by apply createDeviceMemory_settled.
  - intros. by apply createShaderModule_settled.
  - intros. by apply createComputePipeline_settled.
  - intros. by apply createQueue_settled.
  - intros. by apply getCommandBuffer_settled.
  - intros. by apply endSubmitAndDestroyCommandBuffer_settled.
Qed.

End LedgerTheorems.

Lemma newBuilder_settled `{Ext : Externals} (s : State) (oldState : OldState) :
  settled (newBuilder s oldState).
Proof. by repeat split. Qed.

(** A scratch buffer of three bytes on the device of [deviceOnly]: seven
    allocations are made, and each is freed once. *)
Lemma allocAndFillScratchBuffer_frees_what_it_allocates_witness :
  allocatedCount
    (allocAndFillScratchBuffer exampleDevice [1; 2; 3]%N [] (newBuilder deviceOnly tt)).2
  = 7%nat /\
  forall i, (i < 7)%nat ->
            freedTimes i
              (allocAndFillScratchBuffer exampleDevice [1; 2; 3]%N []
                 (newBuilder deviceOnly tt)).2 = 1%nat.
Proof.
  assert (allocatedCount
            (allocAndFillScratchBuffer exampleDevice [1; 2; 3]%N []
               (newBuilder deviceOnly tt)).2 = 7%nat) as Hcount
    by (vm_compute; reflexivity).
  split; [exact Hcount|].
  rewrite <- Hcount.
  assert (PhysicalDevices (s (newBuilder deviceOnly tt))
          !! DeviceObject.PhysicalDevice exampleDevice
          = Some (PhysicalDeviceObject.mk 3 1
                    (mkMemoryProperties 2 [mkMemoryType 1 0; mkMemoryType 6 0]))) as Hpd
    by (vm_compute; reflexivity).
  apply (allocAndFillScratchBuffer_frees_what_it_allocates (Ext := exampleExternals)
           exampleDevice [1; 2; 3]%N [] (newBuilder deviceOnly tt) _ Hpd
           (newBuilder_settled deviceOnly tt)).
Defined.

(** A pipeline whose shader module is not live: the module is created
    and destroyed around it, and the ledger stays settled. *)
Lemma creation_routines_keep_ledger_settled_witness :
  settled (createComputePipeline (examplePipeline (5, 0)%N) (newBuilder (computeOnly []) tt)).
Proof.
  exact (proj1 (proj2 (proj2
           (creation_routines_keep_ledger_settled (Ext := exampleExternals)
              (newBuilder (computeOnly []) tt) (newBuilder_settled (computeOnly []) tt))))
           (examplePipeline (5, 0)%N)).
Defined.

Section OneShot.
Context `{Ext : Externals}.

(** X14. The one-shot helper, from a builder with nothing pending.
    [getCommandBuffer] emits three commands: it creates a command pool for
    the family of the queue, allocates one primary command buffer from that
    pool, and begins it; it returns the handles the first two commands write.
    [endSubmitAndDestroyCommandBuffer] then emits four: it ends that command
    buffer, submits it to the queue, waits for the queue to be idle, and
    destroys the pool. *)
Theorem oneShot_commands (queue : QueueObject.t) (sb sb1 : stateBuilder)
    (commandBuffer commandPool : N) :
  readMemories sb = [] -> writeMemories sb = [] ->
  getCommandBuffer queue sb = ((commandBuffer, commandPool), sb1) ->
  exists create allocate begin submit,
    cmds sb1 = cmds sb ++ [create; allocate; begin] /\
    cmds (endSubmitAndDestroyCommandBuffer queue commandBuffer commandPool sb1)
    = cmds sb1 ++
      [call "vkEndCommandBuffer" [VNum commandBuffer; VK_SUCCESS];
       submit;
       call "vkQueueWaitIdle" [VNum (QueueObject.VulkanHandle queue); VK_SUCCESS];
       call "vkDestroyCommandPool"
         [VNum (QueueObject.Device queue); VNum commandPool; Nullptr]] /\
    cmdName create = "vkCreateCommandPool" /\
    cmdArgs create !! 0%nat = Some (VNum (QueueObject.Device queue)) /\
    map obsData (cmdReads create)
    = [VStruct "VkCommandPoolCreateInfo"
         [VStr "VK_STRUCTURE_TYPE_COMMAND_POOL_CREATE_INFO"; Nullptr; VNum 0;
          VNum (QueueObject.Family queue)]] /\
    map obsData (cmdWrites create) = [VNum commandPool] /\
    cmdName allocate = "vkAllocateCommandBuffers" /\
    map obsData (cmdReads allocate)
    = [VStruct "VkCommandBufferAllocateInfo"
         [VStr "VK_STRUCTURE_TYPE_COMMAND_BUFFER_ALLOCATE_INFO"; Nullptr;
          VNum commandPool; VNum VK_COMMAND_BUFFER_LEVEL_PRIMARY; VNum 1]] /\
    map obsData (cmdWrites allocate) = [VNum commandBuffer] /\
    cmdName begin = "vkBeginCommandBuffer" /\
    cmdArgs begin !! 0%nat = Some (VNum commandBuffer) /\
    cmdName submit = "vkQueueSubmit" /\
    cmdArgs submit !! 0%nat = Some (VNum (QueueObject.VulkanHandle queue)) /\
    VNum commandBuffer ∈ map obsData (cmdReads submit).
Proof.
  intros Hr Hw. unfold getCommandBuffer. cbv zeta.
  set (bufferId := newUnusedID true (fun x => Contains (CommandBuffers (s sb)) x)).
  set (poolId := newUnusedID true (fun x => Contains (table (s sb) CommandPools) x)).
  do 8 builder_step. intros [= <- <- <-].
  unfold endSubmitAndDestroyCommandBuffer. cbv zeta. do 6 builder_step.
  builder_facts. eexists _, _, _, _. split; [builder_emitted; reflexivity|].
  split; [builder_emitted; reflexivity|].
  cbn [cmdName cmdArgs cmdReads cmdWrites map Data obsData lookup list_lookup].
  repeat match goal with
         | H : allocData ?x = _ |- context [allocData ?x] => rewrite H
         end.
  repeat (split; [reflexivity|]). apply list_elem_of_here.
Qed.

End OneShot.

Lemma oneShot_commands_witness :
  exists create allocate begin submit,
    cmds (getCommandBuffer exampleQueue (newBuilder deviceOnly tt)).2
    = [create; allocate; begin] /\
    cmds (endSubmitAndDestroyCommandBuffer exampleQueue 1 1
            (getCommandBuffer exampleQueue (newBuilder deviceOnly tt)).2)
    = [create; allocate; begin;
       call "vkEndCommandBuffer" [VNum 1; VK_SUCCESS];
       submit;
       call "vkQueueWaitIdle" [VNum 15; VK_SUCCESS];
       call "vkDestroyCommandPool" [VNum 9; VNum 1; Nullptr]] /\
    map obsData (cmdWrites create) = [VNum 1] /\
    map obsData (cmdWrites allocate) = [VNum 1] /\
    VNum 1 ∈ map obsData (cmdReads submit).
Proof.
  destruct (oneShot_commands (Ext := exampleExternals) exampleQueue
              (newBuilder deviceOnly tt)
              (getCommandBuffer exampleQueue (newBuilder deviceOnly tt)).2 1 1
              eq_refl eq_refl)
    as (create & allocate & begin & submit & H1 & H2 & _ & _ & _ & Hpool & _ & _ & Hbuffer
        & _ & _ & _ & _ & Hsubmit).
  - assert ((getCommandBuffer exampleQueue (newBuilder deviceOnly tt)).1 = (1, 1)%N) as Hids
      by (vm_compute; reflexivity).
    destruct (getCommandBuffer exampleQueue (newBuilder deviceOnly tt)) as [ids sb1].
    cbn [fst snd] in *. by rewrite Hids.
  - exists create, allocate, begin, submit. rewrite H2, H1.
    split; [reflexivity|]. split; [reflexivity|]. split; [exact Hpool|].
    split; [exact Hbuffer|exact Hsubmit].
Defined.

Section ScratchCommands.
Context `{Ext : Externals}.

(** X15. For a device whose physical device is in the snapshot,
    [allocAndFillScratchBuffer], from a builder with nothing pending, emits
    six commands: it creates the buffer, allocates the memory,
    binds the one to the other, maps the memory, flushes it and unmaps it.
    The handles it returns are those the first two commands write; the
    payload is a read observation of the flush. [freeScratchBuffer], given
    these handles, destroys that buffer and frees that memory. *)
Theorem allocAndFillScratchBuffer_commands (device : DeviceObject.t)
    (data usages : list N) (sb sb1 : stateBuilder) (buffer deviceMemory : N)
    (physicalDevice : PhysicalDeviceObject.t) :
  PhysicalDevices (s sb) !! DeviceObject.PhysicalDevice device = Some physicalDevice ->
  readMemories sb = [] -> writeMemories sb = [] ->
  allocAndFillScratchBuffer device data usages sb = ((buffer, deviceMemory), sb1) ->
  exists create allocate map_ flush,
    cmds sb1
    = cmds sb ++
      [create; allocate;
       call "vkBindBufferMemory"
         [VNum (DeviceObject.VulkanHandle device); VNum buffer; VNum deviceMemory;
          VNum 0; VK_SUCCESS];
       map_; flush;
       call "vkUnmapMemory" [VNum (DeviceObject.VulkanHandle device); VNum deviceMemory]] /\
    cmds (freeScratchBuffer device buffer deviceMemory sb1)
    = cmds sb1 ++
      [call "vkDestroyBuffer"
         [VNum (DeviceObject.VulkanHandle device); VNum buffer; Nullptr];
       call "vkFreeMemory"
         [VNum (DeviceObject.VulkanHandle device); VNum deviceMemory; Nullptr]] /\
    cmdName create = "vkCreateBuffer" /\
    map obsData (cmdWrites create) = [VNum buffer] /\
    cmdName allocate = "vkAllocateMemory" /\
    map obsData (cmdWrites allocate) = [VNum deviceMemory] /\
    cmdName map_ = "vkMapMemory" /\
    cmdArgs map_ !! 1%nat = Some (VNum deviceMemory) /\
    cmdArgs map_ !! 3%nat = Some (VNum (U64.wrap (N.of_nat (length data)))) /\
    cmdName flush = "vkFlushMappedMemoryRanges" /\
    VBytes data ∈ map obsData (cmdReads flush).
Proof.
  intros _ Hr Hw. unfold allocAndFillScratchBuffer, scratchCreateAndBind. cbv zeta.
  set (bufferId := newUnusedID true (fun x => Contains (table (s sb) Buffers) x)).
  set (memoryId := newUnusedID true (fun x => Contains (DeviceMemories (s sb)) x)).
  do 3 builder_step.
  match goal with
  | |- context [GetScratchBufferMemoryIndex device ?b] =>
      pose proof (GetScratchBufferMemoryIndex_builder device b) as (Hc & Hrs & Hws & _);
      destruct (GetScratchBufferMemoryIndex device b) as [idx sbi]; cbn [fst snd] in *
  end.
  cbv beta iota. do 4 builder_step.
  unfold scratchMap. cbv zeta.
  match goal with
  | |- context [AllocDataOrPanic (newState ?b) ?v] =>
      assert (allocData (AllocDataOrPanic (newState b) v).1 = v) as Hpayload by done;
      destruct (AllocDataOrPanic (newState b) v) as [dat g]
  end.
  match goal with
  | |- context [AllocDataOrPanic g ?v] => destruct (AllocDataOrPanic g v) as [atdata g']
  end.
  cbv beta iota. cbn [fst] in Hpayload.
  match goal with
  | |- context [write ?c (withNewState g' ?b)] =>
      pose proof (write_fields c (withNewState g' b)) as Hmap;
      rewrite observed_fields in Hmap;
      cbn [withNewState cmds readMemories writeMemories] in Hmap;
      generalize dependent (write c (withNewState g' b)); intros sbm Hmap
  end.
  cbv beta iota. unfold scratchFlushAndUnmap. cbv zeta. do 3 builder_step.
  intros [= <- <- <-].
  unfold freeScratchBuffer. cbv zeta.
  match goal with
  | |- context [write ?c (withNewState ?g0 ?b)] =>
      pose proof (write_fields c (withNewState g0 b)) as Hdestroy;
      rewrite observed_fields in Hdestroy;
      cbn [withNewState cmds readMemories writeMemories] in Hdestroy;
      generalize dependent (write c (withNewState g0 b)); intros sbd Hdestroy
  end.
  builder_step. builder_facts.
  eexists _, _, _, _. split; [cbn [withNewState cmds]; builder_emitted; reflexivity|].
  split; [cbn [withNewState cmds]; builder_emitted; reflexivity|].
  cbn [cmdName cmdArgs cmdReads cmdWrites map Data obsData lookup list_lookup call
       AddRead AddWrite app].
  repeat match goal with
         | H : allocData ?x = _ |- context [allocData ?x] => rewrite H
         end.
  repeat (split; [reflexivity|]). apply list_elem_of_here.
Qed.

End ScratchCommands.

(** A field of an emitted command, from the facts kept. *)
Ltac builder_fields :=
  cbn [cmdName cmdArgs cmdReads cmdWrites call lookup list_lookup];
  rewrite ?observed_fields;
  repeat match goal with
         | H : readMemories ?x = _ |- context [readMemories ?x] => rewrite H
         | H : writeMemories ?x = _ |- context [writeMemories ?x] => rewrite H
         end;
  cbn [app map Data obsData cmdName cmdArgs cmdReads cmdWrites call lookup
       list_lookup last];
  repeat match goal with
         | H : allocData ?x = _ |- context [allocData ?x] => rewrite H
         end.

Section PipelineCommands.
Context `{Ext : Externals}.

(** X16. [createComputePipeline], from a builder with nothing pending.
    It emits one [vkCreateComputePipelines] that writes the handle of the
    pipeline and reads, last, a create info whose base pipeline is the base
    of the pipeline if that base is live in the new state and 0 otherwise.
    When the shader module of the stage is live in the new state this is the
    only command; when it is not, the module is created just before and
    destroyed just after. *)
Theorem createComputePipeline_commands (cp : ComputePipelineObject.t) (sb : stateBuilder) :
  readMemories sb = [] -> writeMemories sb = [] ->
  exists create stageInfo,
    cmdName create = "vkCreateComputePipelines" /\
    cmdArgs create !! 0%nat = Some (VNum (ComputePipelineObject.Device cp)) /\
    map obsData (cmdWrites create) = [VNum (ComputePipelineObject.VulkanHandle cp)] /\
    last (map obsData (cmdReads create))
    = Some (VStruct "VkComputePipelineCreateInfo"
              [VStr "VK_STRUCTURE_TYPE_COMPUTE_PIPELINE_CREATE_INFO"; Nullptr;
               VNum (ComputePipelineObject.Flags cp); stageInfo;
               VNum (ComputePipelineObject.PipelineLayout cp);
               VNum (if negb (ComputePipelineObject.BasePipeline cp =? 0)%N
                        && hasComputePipeline (api (newState sb))
                             (ComputePipelineObject.BasePipeline cp)
                     then ComputePipelineObject.BasePipeline cp else 0%N);
               VInt (-1)]) /\
    if hasShaderModule (api (newState sb))
         (ShaderModuleObject.VulkanHandle (Module_ (ComputePipelineObject.Stage cp)))
    then cmds (createComputePipeline cp sb) = cmds sb ++ [create]
    else
      exists createModule,
        cmds (createComputePipeline cp sb)
        = cmds sb ++
          [createModule; create;
           call "vkDestroyShaderModule"
             [VNum (ShaderModuleObject.Device (Module_ (ComputePipelineObject.Stage cp)));
              VNum (ShaderModuleObject.VulkanHandle
                      (Module_ (ComputePipelineObject.Stage cp)));
              Nullptr]] /\
        cmdName createModule = "vkCreateShaderModule" /\
        map obsData (cmdWrites createModule)
        = [VNum (ShaderModuleObject.VulkanHandle
                   (Module_ (ComputePipelineObject.Stage cp)))].
Proof.
  intros Hr Hw. unfold createComputePipeline. cbv zeta.
  generalize (if negb (ComputePipelineObject.BasePipeline cp =? 0)%N
                 && hasComputePipeline (api (newState sb))
                      (ComputePipelineObject.BasePipeline cp)
              then ComputePipelineObject.BasePipeline cp else 0%N).
  intros basePipeline.
  destruct (hasShaderModule _ _); cbn [negb].
  - destruct (Specialization (ComputePipelineObject.Stage cp)) as [spec|].
    + do 7 builder_step. builder_facts. eexists _, _.
      repeat apply conj; [..|builder_emitted; reflexivity];
        builder_fields; reflexivity.
    + do 4 builder_step. builder_facts. eexists _, _.
      repeat apply conj; [..|builder_emitted; reflexivity];
        builder_fields; reflexivity.
  - unfold createShaderModule. cbv zeta.
    destruct (Specialization (ComputePipelineObject.Stage cp)) as [spec|].
    + do 12 builder_step. builder_facts. eexists _, _.
      split; [|split; [|split; [|split; [|eexists; split; [|split]]]]];
        [..|builder_emitted; reflexivity|reflexivity|];
        builder_fields; reflexivity.
    + do 9 builder_step. builder_facts. eexists _, _.
      split; [|split; [|split; [|split; [|eexists; split; [|split]]]]];
        [..|builder_emitted; reflexivity|reflexivity|];
        builder_fields; reflexivity.
Qed.

End PipelineCommands.

Section MemoryCommands.
Context `{Ext : Externals}.

(** X17. [createDeviceMemory], from a builder with nothing pending. For
    a dedicated allocation that is not allowed it does nothing. Otherwise it
    emits one [vkAllocateMemory] that writes the handle of the memory and
    reads, last, an allocate info of the recorded size and memory type, whose
    extension pointer is null for a plain allocation and points to the
    dedicated-allocation structure, read by the same command, for a
    dedicated one. A [vkMapMemory] of the recorded range follows exactly
    when the memory was mapped. *)
Theorem createDeviceMemory_commands (mem : DeviceMemoryObject.t) (allowDedicatedNV : bool)
    (sb : stateBuilder) :
  readMemories sb = [] -> writeMemories sb = [] ->
  (allowDedicatedNV = false -> is_Some (DeviceMemoryObject.DedicatedAllocationNV mem) ->
   createDeviceMemory mem allowDedicatedNV sb = sb) /\
  (allowDedicatedNV = true \/ DeviceMemoryObject.DedicatedAllocationNV mem = None ->
   exists allocate pNext,
     (if (DeviceMemoryObject.MappedLocation mem =? 0)%N
      then cmds (createDeviceMemory mem allowDedicatedNV sb) = cmds sb ++ [allocate]
      else
        exists map_,
          cmds (createDeviceMemory mem allowDedicatedNV sb) = cmds sb ++ [allocate; map_] /\
          cmdName map_ = "vkMapMemory" /\
          cmdArgs map_ !! 1%nat = Some (VNum (DeviceMemoryObject.VulkanHandle mem)) /\
          cmdArgs map_ !! 2%nat = Some (VNum (DeviceMemoryObject.MappedOffset mem)) /\
          cmdArgs map_ !! 3%nat = Some (VNum (DeviceMemoryObject.MappedSize mem)) /\
          map obsData (cmdWrites map_) = [VPtr (DeviceMemoryObject.MappedLocation mem)]) /\
     cmdName allocate = "vkAllocateMemory" /\
     cmdArgs allocate !! 0%nat = Some (VNum (DeviceMemoryObject.Device mem)) /\
     map obsData (cmdWrites allocate) = [VNum (DeviceMemoryObject.VulkanHandle mem)] /\
     last (map obsData (cmdReads allocate))
     = Some (VkMemoryAllocateInfo pNext (DeviceMemoryObject.AllocationSize mem)
               (DeviceMemoryObject.MemoryTypeIndex mem)) /\
     match DeviceMemoryObject.DedicatedAllocationNV mem with
     | None => pNext = Nullptr
     | Some d =>
         exists o, head (cmdReads allocate) = Some o /\ pNext = VPtr (obsBase o) /\
                   obsData o =
                   VStruct "VkDedicatedAllocationMemoryAllocateInfoNV"
                     [VStr "VK_STRUCTURE_TYPE_DEDICATED_ALLOCATION_MEMORY_ALLOCATE_INFO_NV";
                      Nullptr; VNum (dedicatedImage d); VNum (dedicatedBuffer d)]
     end).
Proof.
  intros Hr Hw. split.
  - intros -> Hd. unfold createDeviceMemory. by rewrite bool_decide_eq_true_2.
  - intros Hallowed. unfold createDeviceMemory.
    assert (negb allowDedicatedNV
            && bool_decide (is_Some (DeviceMemoryObject.DedicatedAllocationNV mem)) = false)
      as ->.
    { destruct Hallowed as [-> | ->]; [done|]. rewrite bool_decide_eq_false_2.
      - apply andb_false_r.
      - by intros [? ?]. }
    destruct (DeviceMemoryObject.DedicatedAllocationNV mem) as [d|].
    + do 4 builder_step.
      destruct (DeviceMemoryObject.MappedLocation mem =? 0)%N; cbn [negb].
      * builder_facts. eexists _, _.
        split; [builder_emitted; reflexivity|].
        split; [|split; [|split; [|split]]]; [builder_fields; reflexivity..|].
        eexists. split; [builder_fields; reflexivity|].
        split; [builder_fields; reflexivity|]. builder_fields. reflexivity.
      * do 2 builder_step. builder_facts. eexists _, _.
        split; [eexists; split; [builder_emitted; reflexivity|]|].
        { split; [|split; [|split; [|split]]]; (builder_fields; reflexivity). }
        split; [|split; [|split; [|split]]]; [builder_fields; reflexivity..|].
        eexists. split; [builder_fields; reflexivity|].
        split; [builder_fields; reflexivity|]. builder_fields. reflexivity.
    + do 3 builder_step.
      destruct (DeviceMemoryObject.MappedLocation mem =? 0)%N; cbn [negb].
      * builder_facts. eexists _, _.
        split; [builder_emitted; reflexivity|].
        split; [|split; [|split; [|split]]]; (builder_fields; reflexivity).
      * do 2 builder_step. builder_facts. eexists _, _.
        split; [eexists; split; [builder_emitted; reflexivity|]|].
        { split; [|split; [|split; [|split]]]; (builder_fields; reflexivity). }
        split; [|split; [|split; [|split]]]; (builder_fields; reflexivity).
Qed.

End MemoryCommands.

(** ** The routines on the example environment *)

Lemma allocAndFillScratchBuffer_commands_witness :
  exists create allocate map_ flush,
    cmds (allocAndFillScratchBuffer exampleDevice [1; 2; 3]%N [] (newBuilder deviceOnly tt)).2
    = [create; allocate;
       call "vkBindBufferMemory" [VNum 9; VNum 1; VNum 1; VNum 0; VK_SUCCESS];
       map_; flush; call "vkUnmapMemory" [VNum 9; VNum 1]] /\
    map obsData (cmdWrites create) = [VNum 1] /\
    map obsData (cmdWrites allocate) = [VNum 1] /\
    VBytes [1; 2; 3]%N ∈ map obsData (cmdReads flush).
Proof.
  assert (PhysicalDevices (s (newBuilder deviceOnly tt))
          !! DeviceObject.PhysicalDevice exampleDevice
          = Some (PhysicalDeviceObject.mk 3 1
                    (mkMemoryProperties 2 [mkMemoryType 1 0; mkMemoryType 6 0]))) as Hpd
    by (vm_compute; reflexivity).
  destruct (allocAndFillScratchBuffer_commands (Ext := exampleExternals) exampleDevice
              [1; 2; 3]%N [] (newBuilder deviceOnly tt)
              (allocAndFillScratchBuffer exampleDevice [1; 2; 3]%N []
                 (newBuilder deviceOnly tt)).2 1 1 _ Hpd eq_refl eq_refl)
    as (create & allocate & map_ & flush & H1 & _ & _ & Hbuffer & _ & Hmemory & _ & _ & _
        & _ & Hflush).
  - assert ((allocAndFillScratchBuffer exampleDevice [1; 2; 3]%N []
               (newBuilder deviceOnly tt)).1 = (1, 1)%N) as Hids
      by (vm_compute; reflexivity).
    destruct (allocAndFillScratchBuffer exampleDevice [1; 2; 3]%N []
                (newBuilder deviceOnly tt)) as [ids sb1].
    cbn [fst snd] in *. by rewrite Hids.
  - exists create, allocate, map_, flush. rewrite H1.
    split; [reflexivity|]. split; [exact Hbuffer|]. split; [exact Hmemory|exact Hflush].
Defined.

Lemma createComputePipeline_commands_witness :
  exists createModule create,
    cmds (createComputePipeline (examplePipeline (5, 0)%N) (newBuilder (computeOnly []) tt))
    = [createModule; create;
       call "vkDestroyShaderModule" [VNum 9; VNum 50; Nullptr]] /\
    cmdName createModule = "vkCreateShaderModule" /\
    map obsData (cmdWrites createModule) = [VNum 50] /\
    cmdName create = "vkCreateComputePipelines" /\
    map obsData (cmdWrites create) = [VNum 5].
Proof.
  destruct (createComputePipeline_commands (Ext := exampleExternals)
              (examplePipeline (5, 0)%N) (newBuilder (computeOnly []) tt) eq_refl eq_refl)
    as (create & stageInfo & Hname & _ & Hwrites & _ & Hcmds).
  assert (hasShaderModule (Externals := exampleExternals)
            (api (newState (newBuilder (computeOnly []) tt)))
            (ShaderModuleObject.VulkanHandle
               (Module_ (ComputePipelineObject.Stage (examplePipeline (5, 0)%N)))) = false)
    as Hlive by (vm_compute; reflexivity).
  rewrite Hlive in Hcmds. destruct Hcmds as (createModule & Hcmds & Hmodule & Hhandle).
  exists createModule, create. rewrite Hcmds.
  split; [reflexivity|]. split; [exact Hmodule|]. split; [exact Hhandle|].
  split; [exact Hname|exact Hwrites].
Defined.

Lemma createDeviceMemory_commands_witness :
  exists allocate map_,
    cmds (createDeviceMemory
            (DeviceMemoryObject.mk 31 9 2048 1 (Some (mkDedicated 0 11)) 8192 0 2048) true
            (newBuilder deviceOnly tt))
    = [allocate; map_] /\
    cmdName allocate = "vkAllocateMemory" /\
    map obsData (cmdWrites allocate) = [VNum 31] /\
    cmdName map_ = "vkMapMemory" /\
    map obsData (cmdWrites map_) = [VPtr 8192].
Proof.
  destruct (proj2 (createDeviceMemory_commands (Ext := exampleExternals)
                     (DeviceMemoryObject.mk 31 9 2048 1 (Some (mkDedicated 0 11)) 8192 0 2048)
                     true (newBuilder deviceOnly tt) eq_refl eq_refl) (or_introl eq_refl))
    as (allocate & pNext & Hcmds & Hname & _ & Hwrites & _).
  cbn [DeviceMemoryObject.MappedLocation N.eqb Pos.eqb] in Hcmds.
  destruct Hcmds as (map_ & Hcmds & Hmap & _ & _ & _ & Hmapped).
  exists allocate, map_. rewrite Hcmds.
  split; [reflexivity|]. split; [exact Hname|]. split; [exact Hwrites|].
  split; [exact Hmap|exact Hmapped].
Defined.

(** ** The empty range *)

(** X18. For a range of no bytes, [IsFullyBound] does not answer true
    outright: it answers true exactly when some binding starts at or before
    the offset and some binding starts strictly beyond it, whether or not
    the bindings cover anything near the offset. *)
Theorem IsFullyBound_empty_range (offset : N) (bindings : gmap N VkSparseMemoryBind) :
  (offset < 2 ^ 64)%N ->
  IsFullyBound offset 0 bindings = true <->
  (exists k, is_Some (bindings !! k) /\ (k <= offset)%N) /\
  (exists k, is_Some (bindings !! k) /\ (offset < k)%N).
Proof.
  intros Hfit. unfold IsFullyBound.
  assert (U64.add offset 0 = offset) as ->.
  { unfold U64.add. rewrite N.add_0_r. by apply wrap_small. }
  destruct (decide (Exists (fun k => (offset < k)%N) (Keys bindings))) as [Hex|Hnone].
  - apply Exists_exists in Hex as [kb [Hkb Hbeyond]].
    destruct (firstBeyond_index (Keys bindings) 0 offset)
      as (j & Hfb & Hj & Hjbeyond & Hjbefore); [eauto|].
    rewrite Hfb.
    destruct (Z.eqb_spec (0 + Z.of_nat j) (-1)) as [?|_]; [lia|].
    destruct (Z.eqb_spec (0 + Z.of_nat j) 0) as [Hzero|Hpos]; cbn [orb].
    + assert (j = 0%nat) as -> by lia. split; [done|]. intros [(k & Hk & Hle) _].
      destruct (index_of bindings k Hk) as ([|idx] & Hidx & Hnth); [lia|].
      pose proof (Keys_nth_lt bindings 0 (S idx)). lia.
    + replace (Z.to_nat (0 + Z.of_nat j - 1)) with (j - 1)%nat by lia.
      assert (walkBack (Keys bindings) bindings offset (j - 1) offset
              = Some ((j - 1)%nat, offset)) as ->.
      { destruct (j - 1)%nat; [done|]. cbn [walkBack].
        destruct (N.ltb_spec offset offset); [lia|done]. }
      rewrite (proj2 (N.leb_le offset offset)) by lia. split; [|done]. intros _. split.
      * exists (nth 0 (Keys bindings) 0%N). split; [|apply Hjbefore; lia].
        apply elem_of_Keys, list_elem_of_In, nth_In. lia.
      * exists kb. split; [by apply elem_of_Keys|done].
  - rewrite firstBeyond_none.
    + cbn [Z.eqb orb]. split; [done|]. intros [_ (k & Hk & Hlt)]. exfalso.
      apply Hnone, Exists_exists. exists k. split; [by apply elem_of_Keys|done].
    + intros k Hk. destruct (N.le_gt_cases k offset) as [?|Hgt]; [done|]. exfalso.
      apply Hnone, Exists_exists. eauto.
Qed.

(** Bindings [0,1) and [100,101): the empty range at 50 is reported
    bound, the empty range at 200 is not. *)
Lemma IsFullyBound_empty_range_witness :
  IsFullyBound 50 0 (spans [(0, 1); (100, 1)]%N) = true /\
  IsFullyBound 200 0 (spans [(0, 1); (100, 1)]%N) = false.
Proof.
  split.
  - apply (IsFullyBound_empty_range 50 (spans [(0, 1); (100, 1)]%N)); [reflexivity|].
    split; [exists 0%N|exists 100%N]; (split; [vm_compute; eauto|vm_compute; congruence]).
  - vm_compute. reflexivity.
Defined.

(** ** The base-pipeline table and the whole rebuild *)

Lemma initialUnhandled_fold {O} (handle base : O -> N) (table : gmap N O) (keys : list N)
    (u : gmap N N) (k : N) :
  (forall k p, table !! k = Some p -> handle p = k) ->
  fold_left
    (fun u p => match table !! p with
                | Some pp => <[handle pp := base pp]> u
                | None => u
                end) keys u !! k
  = match table !! k with
    | Some p => if decide (k ∈ keys) then Some (base p) else u !! k
    | None => u !! k
    end.
Proof.
  intros Hhandle. revert u. induction keys as [|x keys IH]; intros u.
  { cbn [fold_left]. destruct (table !! k); [|done].
    destruct (decide (k ∈ [])) as [Hin|]; [by apply elem_of_nil in Hin|done]. }
  cbn [fold_left]. rewrite IH. destruct (table !! k) as [p|] eqn:Hk.
  - destruct (decide (k ∈ keys)) as [Hin|Hnot].
    + destruct (decide (k ∈ x :: keys)) as [|Hc]; [done|]. exfalso. apply Hc. by right.
    + destruct (decide (k = x)) as [->|Hne].
      * destruct (decide (x ∈ x :: keys)) as [|Hc]; [|exfalso; apply Hc; by left].
        rewrite Hk, (Hhandle _ _ Hk). by rewrite lookup_insert_eq.
      * destruct (decide (k ∈ x :: keys)) as [[?|?]%elem_of_cons|_]; [done..|].
        destruct (table !! x) as [px|] eqn:Hx; [|done].
        rewrite (Hhandle _ _ Hx). by rewrite lookup_insert_ne.
  - destruct (table !! x) as [px|] eqn:Hx; [|done].
    rewrite (Hhandle _ _ Hx). rewrite lookup_insert_ne; [done|]. intros ->. congruence.
Qed.

Lemma initialUnhandled_lookup {O} (handle base : O -> N) (table : gmap N O) (k : N) :
  (forall k p, table !! k = Some p -> handle p = k) ->
  initialUnhandled handle base table !! k = base <$> table !! k.
Proof.
  intros Hhandle. unfold initialUnhandled. rewrite initialUnhandled_fold by done.
  destruct (table !! k) as [p|] eqn:Hk; [|by rewrite lookup_empty].
  destruct (decide (k ∈ Keys table)) as [|Hc]; [done|]. exfalso. apply Hc.
  apply elem_of_Keys. eauto.
Qed.


Section Rebuild.
Context `{Ext : Externals} `{Cr : !Creators}.

(** X19. In a snapshot whose pipelines are filed under their own
    handles, the table the resolver works on maps each pipeline handle to
    the base pipeline recorded for it, and holds nothing else. *)
Theorem baseTable_of_snapshot (s : State) :
  ((forall k p, ComputePipelines s !! k = Some p -> ComputePipelineObject.VulkanHandle p = k) ->
   forall k, baseTable s true !! k
             = ComputePipelineObject.BasePipeline <$> ComputePipelines s !! k) /\
  ((forall k p, GraphicsPipelines s !! k = Some p ->
                GraphicsPipelineObject.VulkanHandle p = k) ->
   forall k, baseTable s false !! k
             = GraphicsPipelineObject.BasePipeline <$> GraphicsPipelines s !! k).
Proof.
  split; intros Hhandle k; unfold baseTable; by apply initialUnhandled_lookup.
Qed.




End Rebuild.

Lemma baseTable_of_snapshot_witness :
  baseTable (computeOnly [(1, 0); (2, 1)]%N) true !! 2%N
  = ComputePipelineObject.BasePipeline
    <$> ComputePipelines (computeOnly [(1, 0); (2, 1)]%N) !! 2%N.
Proof.
  apply (proj1 (baseTable_of_snapshot (Ext := exampleExternals)
                  (computeOnly [(1, 0); (2, 1)]%N))).
  intros k p. cbn [computeOnly ComputePipelines fmap list_fmap list_to_map foldr fst snd
                   uncurry].
  intros Hk.
  destruct (decide (k = 1%N)) as [->|]; [by simplify_map_eq|].
  destruct (decide (k = 2%N)) as [->|]; [by simplify_map_eq|].
  by simplify_map_eq.
Defined.




